(** * Media Splitter: the split planner and the [splitMedia] orchestration

    A shallow embedding of [splitMedia] of the React component [App].
    The repository holds three revisions of that function:
    - the revision with split modes (parts / size / time) and encoding
      modes (stream copy / re-encode), modelled by the top-level
      definitions below;
    - the parts-only, stream-copy revision of [src/App.jsx], modelled in
      [PartsOnly];
    - the earliest revision, which overlapped adjacent windows by 5% of
      the duration; the specification treats it as history and it is not
      modelled.

    Modelling choices.
    - A JavaScript number is a rational ([Q]); counters and part counts
      are integers ([Z]).  [Double] rounds a rational to the nearest
      binary64 value.  The percentages ([partPercent],
      [callbackPercent]) and the plans [plan64] and [PartsOnly.plan64]
      round after every operation, as the program does; the properties
      of window boundaries and percentages are stated on them.  [plan]
      and the runs built on it compute the same expressions without
      rounding: they carry the properties that do not depend on the last
      bit of a boundary (how many windows, which commands, names,
      outcomes, what is reported).  Module [IEEE] runs the arithmetic on
      the machine's binary64 numbers, to compare.  Infinities, NaN,
      overflow, subnormal values and division by zero are outside the
      model (the user interface keeps [parts >= 2], [splitSize >= 1] and
      [splitTime >= 10]).
    - Strings are [string] (byte sequences); only the code unit ['.']
      is ever inspected by the code, and [JS.slice0] cuts bytes, which
      are the UTF-16 units of [slice] on ASCII text only.
    - The promise of [getDuration] settles only when the browser loads
      the metadata of the file.  [splitMedia] is the call for a file
      whose metadata loads; [splitMediaAwait] is the call with a probe
      that may stay pending.
    - [Number.prototype.toString] of a time value stays symbolic
      ([ArgNum q]); integers are printed in decimal.
    - React state setters, engine calls and the [try/catch/finally]
      block are run in a small state-and-exception monad that also keeps
      a log of every effect, so that claims about what was reported and
      what was sent to the engine can be stated on a run. *)

From Stdlib Require Import ZArith QArith Qround Qabs Qpower List String Ascii Bool Lia Lqa.
From Stdlib Require Import DecimalString.
From Stdlib Require PrimFloat FloatOps SpecFloat.
From Stdlib Require DecimalZ DecimalPos.
Import ListNotations.

Open Scope string_scope.
Open Scope Z_scope.
Open Scope Q_scope.

(* ================================================================= *)
(** ** JavaScript primitives used by [splitMedia] *)

Module JS.

(** [Math.ceil] and [Math.round] (round half up) of a number, given by
    its exact value. *)
Definition Math_ceil (x : Q) : Z := Qceiling x.
Definition Math_round (x : Q) : Z := Qfloor (x + (1 # 2)).

(** [x < y] and [x <= y] as the booleans the code branches on. *)
Definition ltb (x y : Q) : bool := negb (Qle_bool y x).
Definition leb (x y : Q) : bool := Qle_bool x y.

(** Decimal printing of an integer, as [`${n}`] does. *)
Definition toString (n : Z) : string := NilZero.string_of_int (Z.to_int n).

(** [s.split(sep)] for a one-character separator. *)
Fixpoint split (sep : ascii) (s : string) : list string :=
  match s with
  | EmptyString => [EmptyString]
  | String c r =>
      if Ascii.eqb c sep then EmptyString :: split sep r
      else match split sep r with
           | [] => [String c EmptyString]
           | h :: t => String c h :: t
           end
  end.

(** [a.pop()] read as an expression: the last element ([""] stands for
    [undefined], which [split] never produces). *)
Definition pop (l : list string) : string := last l EmptyString.

(** Drop the first [n] characters. *)
Fixpoint drop (n : nat) (s : string) : string :=
  match n, s with
  | O, _ => s
  | S _, EmptyString => EmptyString
  | S n', String _ r => drop n' r
  end.

(** [s.replace(pat, rep)] with a string pattern: the first occurrence
    only, searched from the left. *)
Fixpoint replace (pat rep s : string) : string :=
  if String.prefix pat s then rep ++ drop (String.length pat) s
  else match s with
       | EmptyString => EmptyString
       | String c r => String c (replace pat rep r)
       end.

(** [s.includes(pat)] and [s.slice(0, n)]. *)
Fixpoint includes (pat s : string) : bool :=
  if String.prefix pat s then true
  else match s with
       | EmptyString => false
       | String _ r => includes pat r
       end.

Definition slice0 (n : nat) (s : string) : string := String.substring 0 n s.

End JS.

(* ================================================================= *)
(** ** Binary64 arithmetic *)

(** A JavaScript number is an IEEE-754 binary64 value, and every
    arithmetic operation returns the binary64 value nearest to its exact
    result, ties to even.  [Double.round] is that rounding, on exact
    rationals: [x] lies in the binade [[2^e, 2^(e+1))] with [e = mag x],
    and is rounded to a multiple of [2^(e - 52)].  The exponent is not
    bounded: infinities, NaN, overflow and subnormal values are outside
    the model ([IEEEChecks] compares it with the machine's binary64
    operations on samples). *)
Module Double.

Definition pow2 (e : Z) : Q := 2 ^ e.

(** [floor (log2 x)] of a positive [x]. *)
Definition mag (x : Q) : Z :=
  let k := (Z.log2 (Qnum x) - Z.log2 (Zpos (Qden x)))%Z in
  if Qle_bool (pow2 k) x then k else (k - 1)%Z.

(** The nearest integer, ties to even. *)
Definition rne (q : Q) : Z :=
  let f := Qfloor q in
  match Qcompare (q - inject_Z f) (1 # 2) with
  | Lt => f
  | Gt => (f + 1)%Z
  | Eq => if Z.even f then f else (f + 1)%Z
  end.

Definition ulp (x : Q) : Q := pow2 (mag (Qabs x) - 52).

Definition round (x : Q) : Q :=
  if Qeq_bool x 0 then 0 else inject_Z (rne (x / ulp x)) * ulp x.

(** The operators [*], [/], [+] and [-] of the source. *)
Definition mul (x y : Q) : Q := round (x * y).
Definition div (x y : Q) : Q := round (x / y).
Definition add (x y : Q) : Q := round (x + y).
Definition sub (x y : Q) : Q := round (x - y).

(** The unit roundoff [2^-53]. *)
Definition eps : Q := pow2 (-53).

(** Binary64 values: a 53-bit significand times a power of two. *)
Definition representable (x : Q) : Prop :=
  exists m e : Z, (Z.abs m < 2 ^ 53)%Z /\ x == inject_Z m * pow2 e.

Definition isDouble (x : Q) : Prop := round x == x.

End Double.

(** [Math.round((i / n) * 100)], as the loop computes it for its counter
    [i] and the part count [n]. *)
Definition partPercent (i n : Z) : Z :=
  JS.Math_round (Double.mul (Double.div (inject_Z i) (inject_Z n)) 100).

(** [Math.round(progress * 100)], as the ['progress'] listener computes
    it; the number the engine passes is the binary64 value nearest to
    [ratio]. *)
Definition callbackPercent (ratio : Q) : Z :=
  JS.Math_round (Double.mul (Double.round ratio) 100).

(* ================================================================= *)
(** ** Data *)

(** The [File] the user dropped: [file.name], [file.size], [file.type]. *)
Record File := mkFile {
  name : string;
  size : Z;
  type : string
}.

(** [splitMode]: ['parts'], ['size'] or ['time']. *)
Inductive SplitMode := ModeParts | ModeSize | ModeTime.

(** [encodingMode]: ['compatible'] (re-encode) or ['fast'] (stream copy). *)
Inductive EncodingMode := Compatible | Fast.

(** The component state that [splitMedia] reads. *)
Record Settings := mkSettings {
  splitMode : SplitMode;
  parts : Z;
  splitSize : Q;
  splitTime : Q;
  encodingMode : EncodingMode
}.

(** One time window of the source: the loop's [start], [actualDuration]
    and [i]. *)
Record Window := mkWindow {
  start : Q;
  actualDuration : Q;
  index : Z
}.

(* ================================================================= *)
(** ** The planning arithmetic of [splitMedia] *)

(** [currentParts] and [currentPartDuration] after the mode dispatch. *)
Definition planParams (cfg : Settings) (fileSize : Z) (duration : Q) : Z * Q :=
  match splitMode cfg with
  | ModeSize =>
      let totalSizeMB := inject_Z fileSize / inject_Z (1024 * 1024) in
      let currentParts := JS.Math_ceil (totalSizeMB / splitSize cfg) in
      let currentParts := if (currentParts <? 1)%Z then 1%Z else currentParts in
      (currentParts, duration / inject_Z currentParts)
  | ModeTime =>
      let currentParts := JS.Math_ceil (duration / splitTime cfg) in
      let currentParts := if (currentParts <? 1)%Z then 1%Z else currentParts in
      (currentParts, splitTime cfg)
  | ModeParts =>
      (parts cfg, duration / inject_Z (parts cfg))
  end.

(** The window of iteration [i]: [start], and [end] clamped to
    [duration]. *)
Definition windowAt (currentPartDuration duration : Q) (i : Z) : Window :=
  let start := inject_Z i * currentPartDuration in
  let end_ := inject_Z (i + 1) * currentPartDuration in
  let end_ := if JS.ltb duration end_ then duration else end_ in
  mkWindow start (end_ - start) i.

(** The [for] loop, keeping only the windows it reaches: [fuel] is the
    number of iterations left ([currentParts - i]), and the loop [break]s
    at the first window whose duration is not positive. *)
Fixpoint planLoop (fuel : nat) (i : Z) (currentPartDuration duration : Q)
  : list Window :=
  match fuel with
  | O => []
  | S fuel' =>
      let w := windowAt currentPartDuration duration i in
      if JS.leb (actualDuration w) 0 then []
      else w :: planLoop fuel' (i + 1) currentPartDuration duration
  end.

(** The window sequence of one [splitMedia] call. *)
Definition plan (cfg : Settings) (fileSize : Z) (duration : Q) : list Window :=
  let '(currentParts, currentPartDuration) := planParams cfg fileSize duration in
  planLoop (Z.to_nat currentParts) 0 currentPartDuration duration.

(** *** The same arithmetic on binary64 values

    [planParams], [windowAt] and [plan] compute with exact rationals.
    The definitions below are the same code with every [*], [/], [+]
    and [-] rounded to binary64, as the program computes them. *)
Definition planParams64 (cfg : Settings) (fileSize : Z) (duration : Q) : Z * Q :=
  match splitMode cfg with
  | ModeSize =>
      let totalSizeMB := Double.div (inject_Z fileSize) (Double.mul 1024 1024) in
      let currentParts := JS.Math_ceil (Double.div totalSizeMB (splitSize cfg)) in
      let currentParts := if (currentParts <? 1)%Z then 1%Z else currentParts in
      (currentParts, Double.div duration (inject_Z currentParts))
  | ModeTime =>
      let currentParts := JS.Math_ceil (Double.div duration (splitTime cfg)) in
      let currentParts := if (currentParts <? 1)%Z then 1%Z else currentParts in
      (currentParts, splitTime cfg)
  | ModeParts =>
      (parts cfg, Double.div duration (inject_Z (parts cfg)))
  end.

Definition windowAt64 (currentPartDuration duration : Q) (i : Z) : Window :=
  let start := Double.mul (inject_Z i) currentPartDuration in
  let end_ := Double.mul (Double.add (inject_Z i) 1) currentPartDuration in
  let end_ := if JS.ltb duration end_ then duration else end_ in
  mkWindow start (Double.sub end_ start) i.

Fixpoint planLoop64 (fuel : nat) (i : Z) (currentPartDuration duration : Q)
  : list Window :=
  match fuel with
  | O => []
  | S fuel' =>
      let w := windowAt64 currentPartDuration duration i in
      if JS.leb (actualDuration w) 0 then []
      else w :: planLoop64 fuel' (i + 1) currentPartDuration duration
  end.

Definition plan64 (cfg : Settings) (fileSize : Z) (duration : Q) : list Window :=
  let '(currentParts, currentPartDuration) := planParams64 cfg fileSize duration in
  planLoop64 (Z.to_nat currentParts) 0 currentPartDuration duration.

(* ================================================================= *)
(** ** Output names and engine commands *)

(** The name parts [splitMedia] derives from [file.name]. *)
Definition fileExtOf (fileName : string) : string :=
  JS.pop (JS.split "." fileName).

Definition baseNameOf (fileName : string) : string :=
  JS.replace ("." ++ fileExtOf fileName) "" fileName.

(** [`${i + 1}_${baseName}_${i + 1}.${fileExt}`] *)
Definition outputName (i : Z) (baseName fileExt : string) : string :=
  JS.toString (i + 1) ++ "_" ++ baseName ++ "_" ++ JS.toString (i + 1)
    ++ "." ++ fileExt.

(** One element of the argument array handed to [ffmpeg.exec]:
    a literal string, or [q.toString()] of a time value. *)
Inductive Arg :=
| ArgStr (s : string)
| ArgNum (q : Q).

(** [ffmpegArgs] as built in the loop body. *)
Definition ffmpegArgs (mode : EncodingMode) (start actualDuration : Q)
    (outputName : string) : list Arg :=
  let ffmpegArgs :=
    [ArgStr "-ss"; ArgNum start; ArgStr "-i"; ArgStr "input";
     ArgStr "-t"; ArgNum actualDuration] in
  let ffmpegArgs :=
    match mode with
    | Fast =>
        (ffmpegArgs ++ [ArgStr "-c"; ArgStr "copy";
                        ArgStr "-avoid_negative_ts"; ArgStr "make_zero";
                        ArgStr "-movflags"; ArgStr "+faststart"])%list
    | Compatible =>
        (ffmpegArgs ++ [ArgStr "-c:v"; ArgStr "libx264";
                        ArgStr "-preset"; ArgStr "fast";
                        ArgStr "-crf"; ArgStr "18";
                        ArgStr "-c:a"; ArgStr "aac";
                        ArgStr "-b:a"; ArgStr "192k";
                        ArgStr "-movflags"; ArgStr "+faststart";
                        ArgStr "-avoid_negative_ts"; ArgStr "make_zero"])%list
    end in
  (ffmpegArgs ++ [ArgStr outputName])%list.

(* ================================================================= *)
(** ** Component state, the engine, and the effect monad *)

Definition Uint8Array := list Byte.byte.

(** [new Blob([data.buffer], { type })]; an object URL stands for its blob. *)
Record Blob := mkBlob {
  blobData : Uint8Array;
  blobType : string
}.

(** An element of [outputs] / [resultFiles]: [{ name, url }]. *)
Record Artifact := mkArtifact {
  artName : string;
  artUrl : Blob
}.

(** The values [setStatus] receives, with their text in [renderStatus]. *)
Inductive Status :=
| StEmpty
| StReading
| StAnalyzing
| StSplitting (part total percent : Z)
| StSplittingPart (part percent : Z)
| StDone
| StEngineError (head : string).

Definition renderStatus (s : Status) : string :=
  match s with
  | StEmpty => ""
  | StReading => "Reading media file..."
  | StAnalyzing => "Analyzing duration..."
  | StSplitting part total percent =>
      "Splitting part " ++ JS.toString part ++ " of " ++ JS.toString total
        ++ "... (" ++ JS.toString percent ++ "%)"
  | StSplittingPart part percent =>
      "Splitting part " ++ JS.toString part
        ++ "... (" ++ JS.toString percent ++ "%)"
  | StDone => "Done!"
  | StEngineError head => "Error: " ++ head ++ "..."
  end.

Definition errorMessage : string :=
  "An error occurred. Please check if the file format is valid.".

(** The [useState] cells that [splitMedia] and the engine callbacks write. *)
Record AppState := mkAppState {
  processing : bool;
  status : Status;
  progress : Z;
  resultFiles : list Artifact;
  error : string
}.

(** Every effect of a run, in order. *)
Inductive Event :=
| SetProcessing (b : bool)
| SetError (msg : string)
| SetResultFiles (files : list Artifact)
| SetStatus (s : Status)
| SetProgress (p : Z)
| WriteFile (path : string)
| Exec (args : list Arg)
| ReadFile (path : string).

Record World := mkWorld {
  ui : AppState;
  log : list Event
}.

(** What the engine sends to the registered ['log'] and ['progress']
    listeners while a command runs. *)
Inductive EngineEvent :=
| OnLog (message : string)
| OnProgress (ratio : Q).

(** The collaborators of [splitMedia]: the engine ([false] / [None] is a
    rejected promise) and the duration probe. *)
Record Env := mkEnv {
  writeFile : string -> File -> bool;
  getDuration : File -> Q;
  exec : list Arg -> list EngineEvent * bool;
  readFile : string -> option Uint8Array
}.

Inductive Outcome (A : Type) :=
| Returned (a : A)
| Thrown.
Arguments Returned {A} a.
Arguments Thrown {A}.

Definition M (A : Type) : Type := World -> Outcome A * World.

Definition ret {A} (a : A) : M A := fun w => (Returned a, w).

Definition throw {A} : M A := fun w => (Thrown, w).

Definition bind {A B} (m : M A) (k : A -> M B) : M B :=
  fun w =>
    match m w with
    | (Returned a, w') => k a w'
    | (Thrown, w') => (Thrown, w')
    end.

Notation "x <- m ;; k" := (bind m (fun x => k))
  (at level 61, m at next level, right associativity).
Notation "m ;; k" := (bind m (fun _ => k))
  (at level 61, right associativity).

(** [try { body } catch { handler } finally { finalizer }] *)
Definition tryCatchFinally (body handler finalizer : M unit) : M unit :=
  fun w =>
    match body w with
    | (Returned _, w1) => finalizer w1
    | (Thrown, w1) =>
        match handler w1 with
        | (Returned _, w2) => finalizer w2
        | (Thrown, w2) => (finalizer ;; throw) w2
        end
    end.

(** What each effect does to the component state: a setter overwrites
    its cell, an engine call leaves the component state alone. *)
Definition applyEvent (e : Event) (s : AppState) : AppState :=
  match e with
  | SetProcessing b =>
      mkAppState b (status s) (progress s) (resultFiles s) (error s)
  | SetStatus st =>
      mkAppState (processing s) st (progress s) (resultFiles s) (error s)
  | SetProgress p =>
      mkAppState (processing s) (status s) p (resultFiles s) (error s)
  | SetResultFiles l =>
      mkAppState (processing s) (status s) (progress s) l (error s)
  | SetError msg =>
      mkAppState (processing s) (status s) (progress s) (resultFiles s) msg
  | WriteFile _ | Exec _ | ReadFile _ => s
  end.

Definition effect (e : Event) : M unit :=
  fun w => (Returned tt, mkWorld (applyEvent e (ui w)) (log w ++ [e])%list).

Definition setProcessing (b : bool) : M unit := effect (SetProcessing b).
Definition setStatus (st : Status) : M unit := effect (SetStatus st).
Definition setProgress (p : Z) : M unit := effect (SetProgress p).
Definition setResultFiles (l : list Artifact) : M unit := effect (SetResultFiles l).
Definition setError (msg : string) : M unit := effect (SetError msg).

(** The listeners installed by [loadFFmpeg]. *)
Definition onEngineEvent (e : EngineEvent) : M unit :=
  match e with
  | OnLog message =>
      if JS.includes "error" message
      then setStatus (StEngineError (JS.slice0 20 message))
      else ret tt
  | OnProgress ratio => setProgress (callbackPercent ratio)
  end.

Fixpoint dispatch (es : list EngineEvent) : M unit :=
  match es with
  | [] => ret tt
  | e :: es' => onEngineEvent e ;; dispatch es'
  end.

Definition ffmpeg_writeFile (env : Env) (path : string) (file : File) : M unit :=
  effect (WriteFile path) ;;
  if writeFile env path file then ret tt else throw.

Definition ffmpeg_exec (env : Env) (args : list Arg) : M unit :=
  effect (Exec args) ;;
  dispatch (fst (exec env args)) ;;
  if snd (exec env args) then ret tt else throw.

Definition ffmpeg_readFile (env : Env) (path : string) : M Uint8Array :=
  effect (ReadFile path) ;;
  match readFile env path with
  | Some data => ret data
  | None => throw
  end.

(* ================================================================= *)
(** ** [splitMedia] *)

Section SplitMedia.

Variable env : Env.
Variable cfg : Settings.
Variable file : File.

(** Names bound before the loop. *)
Variables (baseName fileExt : string).
Variables (duration : Q) (currentParts : Z) (currentPartDuration : Q).

(** The loop body after the [break] test, for the window of iteration
    [index w]. *)
Definition processWindow (w : Window) (outputs : list Artifact)
  : M (list Artifact) :=
  let i := index w in
  let outputName := outputName i baseName fileExt in
  setStatus (StSplitting (i + 1) currentParts
               (partPercent i currentParts)) ;;
  let ffmpegArgs :=
    ffmpegArgs (encodingMode cfg) (start w) (actualDuration w) outputName in
  ffmpeg_exec env ffmpegArgs ;;
  data <- ffmpeg_readFile env outputName ;;
  ret (outputs ++ [mkArtifact outputName (mkBlob data (type file))])%list.

(** [for (let i = 0; i < currentParts; i++) { ... }] *)
Fixpoint splitLoop (fuel : nat) (i : Z) (outputs : list Artifact)
  : M (list Artifact) :=
  match fuel with
  | O => ret outputs
  | S fuel' =>
      let w := windowAt currentPartDuration duration i in
      if JS.leb (actualDuration w) 0 then ret outputs
      else outputs' <- processWindow w outputs ;;
           splitLoop fuel' (i + 1) outputs'
  end.

(** The same body run over an already computed window list. *)
Fixpoint processWindows (ws : list Window) (outputs : list Artifact)
  : M (list Artifact) :=
  match ws with
  | [] => ret outputs
  | w :: ws' =>
      outputs' <- processWindow w outputs ;;
      processWindows ws' outputs'
  end.

End SplitMedia.

Definition splitMedia (env : Env) (cfg : Settings) (file : option File) : M unit :=
  match file with
  | None => ret tt
  | Some file =>
      setProcessing true ;;
      setError "" ;;
      setResultFiles [] ;;
      tryCatchFinally
        (let fileName := name file in
         let fileExt := fileExtOf fileName in
         let baseName := baseNameOf fileName in
         setStatus StReading ;;
         ffmpeg_writeFile env "input" file ;;
         setStatus StAnalyzing ;;
         let duration := getDuration env file in
         let '(currentParts, currentPartDuration) :=
           planParams cfg (size file) duration in
         outputs <- splitLoop env cfg file baseName fileExt duration
                      currentParts currentPartDuration
                      (Z.to_nat currentParts) 0 [] ;;
         setResultFiles outputs ;;
         setStatus StDone ;;
         setProgress 100)
        (setError errorMessage)
        (setProcessing false)
  end.

(** A run from a given component state, with an empty log. *)
Definition run (env : Env) (cfg : Settings) (file : option File)
    (s0 : AppState) : Outcome unit * World :=
  splitMedia env cfg file (mkWorld s0 []).

Definition finalState (env : Env) (cfg : Settings) (file : option File)
    (s0 : AppState) : AppState :=
  ui (snd (run env cfg file s0)).

Definition runLog (env : Env) (cfg : Settings) (file : option File)
    (s0 : AppState) : list Event :=
  log (snd (run env cfg file s0)).

(* ================================================================= *)
(** ** [splitMedia] when the duration probe stays pending *)

(** [getDuration] resolves its promise in [video.onloadedmetadata] and
    installs no [onerror] handler: for media whose metadata the browser
    cannot load, the promise never settles and
    [await getDuration(file)] never returns.  [getDuration env] is the
    duration of a file whose metadata loads; [metadataLoads] says
    whether it does.  [splitMedia] above is the function for files whose
    metadata loads. *)
Inductive Completion (A : Type) :=
| Settled (o : Outcome A)
| Pending.
Arguments Settled {A} o.
Arguments Pending {A}.

Definition Async (A : Type) : Type := World -> Completion A * World.

(** A computation without a pending [await]. *)
Definition lift {A} (m : M A) : Async A :=
  fun w => let (o, w') := m w in (Settled o, w').

(** [await promise] for a promise that resolves to [value], or never
    settles. *)
Definition await {A} (settles : bool) (value : A) : Async A :=
  fun w => if settles then (Settled (Returned value), w) else (Pending, w).

Definition bindA {A B} (m : Async A) (k : A -> Async B) : Async B :=
  fun w =>
    match m w with
    | (Settled (Returned a), w') => k a w'
    | (Settled Thrown, w') => (Settled Thrown, w')
    | (Pending, w') => (Pending, w')
    end.

(** [try { body } catch { handler } finally { finalizer }] around a body
    that may never return: neither the handler nor the finalizer runs
    then. *)
Definition tryCatchFinallyA (body : Async unit) (handler finalizer : M unit)
  : Async unit :=
  fun w =>
    match body w with
    | (Settled (Returned _), w1) => lift finalizer w1
    | (Settled Thrown, w1) =>
        match handler w1 with
        | (Returned _, w2) => lift finalizer w2
        | (Thrown, w2) => lift (finalizer ;; throw) w2
        end
    | (Pending, w1) => (Pending, w1)
    end.

Definition splitMediaAwait (metadataLoads : File -> bool) (env : Env)
    (cfg : Settings) (file : option File) : Async unit :=
  match file with
  | None => lift (ret tt)
  | Some file =>
      bindA (lift (setProcessing true ;; setError "" ;; setResultFiles []))
        (fun _ =>
      tryCatchFinallyA
        (let fileName := name file in
         let fileExt := fileExtOf fileName in
         let baseName := baseNameOf fileName in
         bindA (lift (setStatus StReading ;;
                      ffmpeg_writeFile env "input" file ;;
                      setStatus StAnalyzing))
           (fun _ =>
         bindA (await (metadataLoads file) (getDuration env file))
           (fun duration =>
         lift (let '(currentParts, currentPartDuration) :=
                 planParams cfg (size file) duration in
               outputs <- splitLoop env cfg file baseName fileExt duration
                            currentParts currentPartDuration
                            (Z.to_nat currentParts) 0 [] ;;
               setResultFiles outputs ;;
               setStatus StDone ;;
               setProgress 100))))
        (setError errorMessage)
        (setProcessing false))
  end.

(** A call from a given component state, with an empty log: whether it
    settles, and the state and log it reaches (where it stays, when it
    does not settle). *)
Definition runAwait (metadataLoads : File -> bool) (env : Env) (cfg : Settings)
    (file : option File) (s0 : AppState) : Completion unit * World :=
  splitMediaAwait metadataLoads env cfg file (mkWorld s0 []).

(* ================================================================= *)
(** ** The parts-only revision ([src/App.jsx]) *)

(** This revision has no split mode and no encoding mode: it always cuts
    into [parts] equal windows by stream copy, does not clamp [end] and
    has no [break]. *)
Module PartsOnly.

Definition windowAt (partDuration : Q) (i : Z) : Window :=
  let start := inject_Z i * partDuration in
  let end_ := inject_Z (i + 1) * partDuration in
  mkWindow start (end_ - start) i.

Fixpoint planLoop (fuel : nat) (i : Z) (partDuration : Q) : list Window :=
  match fuel with
  | O => []
  | S fuel' => windowAt partDuration i :: planLoop fuel' (i + 1) partDuration
  end.

Definition plan (parts : Z) (duration : Q) : list Window :=
  let partDuration := duration / inject_Z parts in
  planLoop (Z.to_nat parts) 0 partDuration.

(** The same loop with every operation rounded to binary64. *)
Definition windowAt64 (partDuration : Q) (i : Z) : Window :=
  let start := Double.mul (inject_Z i) partDuration in
  let end_ := Double.mul (Double.add (inject_Z i) 1) partDuration in
  mkWindow start (Double.sub end_ start) i.

Fixpoint planLoop64 (fuel : nat) (i : Z) (partDuration : Q) : list Window :=
  match fuel with
  | O => []
  | S fuel' => windowAt64 partDuration i :: planLoop64 fuel' (i + 1) partDuration
  end.

Definition plan64 (parts : Z) (duration : Q) : list Window :=
  let partDuration := Double.div duration (inject_Z parts) in
  planLoop64 (Z.to_nat parts) 0 partDuration.

(** The array literal passed to [ffmpeg.exec]. *)
Definition ffmpegArgs (start actualDuration : Q) (outputName : string)
  : list Arg :=
  [ArgStr "-ss"; ArgNum start;
   ArgStr "-i"; ArgStr "input";
   ArgStr "-t"; ArgNum actualDuration;
   ArgStr "-c"; ArgStr "copy";
   ArgStr "-avoid_negative_ts"; ArgStr "1";
   ArgStr outputName].

Section Loop.

Variable env : Env.
Variable parts : Z.
Variable file : File.
Variables (baseName fileExt : string) (partDuration : Q).

Definition processWindow (w : Window) (outputs : list Artifact)
  : M (list Artifact) :=
  let i := index w in
  let outputName := outputName i baseName fileExt in
  setStatus (StSplittingPart (i + 1)
               (partPercent i parts)) ;;
  ffmpeg_exec env (ffmpegArgs (start w) (actualDuration w) outputName) ;;
  data <- ffmpeg_readFile env outputName ;;
  ret (outputs ++ [mkArtifact outputName (mkBlob data (type file))])%list.

Fixpoint splitLoop (fuel : nat) (i : Z) (outputs : list Artifact)
  : M (list Artifact) :=
  match fuel with
  | O => ret outputs
  | S fuel' =>
      outputs' <- processWindow (windowAt partDuration i) outputs ;;
      splitLoop fuel' (i + 1) outputs'
  end.

End Loop.

Definition splitMedia (env : Env) (parts : Z) (file : option File) : M unit :=
  match file with
  | None => ret tt
  | Some file =>
      setProcessing true ;;
      setError "" ;;
      setResultFiles [] ;;
      tryCatchFinally
        (let fileName := name file in
         let fileExt := fileExtOf fileName in
         let baseName := baseNameOf fileName in
         setStatus StReading ;;
         ffmpeg_writeFile env "input" file ;;
         setStatus StAnalyzing ;;
         let duration := getDuration env file in
         let partDuration := duration / inject_Z parts in
         outputs <- splitLoop env parts file baseName fileExt partDuration
                      (Z.to_nat parts) 0 [] ;;
         setResultFiles outputs ;;
         setStatus StDone ;;
         setProgress 100)
        (setError errorMessage)
        (setProcessing false)
  end.

Definition run (env : Env) (parts : Z) (file : option File) (s0 : AppState)
  : Outcome unit * World :=
  splitMedia env parts file (mkWorld s0 []).

End PartsOnly.

(* ================================================================= *)
(** ** The equal-parts arithmetic on binary64 values *)

(** The loop of parts mode on the machine's binary64 numbers; the
    counter [i] is a number too.  [IEEEChecks] compares [Double] and the
    plans computed with it against these. *)
Module IEEE.

Import PrimFloat.
Local Open Scope float_scope.

(** The exact value of a finite binary64 number. *)
Definition exact (x : float) : Q :=
  match FloatOps.Prim2SF x with
  | SpecFloat.S754_finite s m e =>
      ((if s then -1 else 1) * inject_Z (Zpos m) * Double.pow2 e)%Q
  | _ => 0%Q
  end.

Definition windowAt (currentPartDuration duration i : float) : float * float :=
  let start := i * currentPartDuration in
  let end_ := (i + 1) * currentPartDuration in
  let end_ := if duration <? end_ then duration else end_ in
  (start, end_ - start).

Fixpoint planLoop (fuel : nat) (i currentPartDuration duration : float)
  : list (float * float) :=
  match fuel with
  | O => []
  | S fuel' =>
      let w := windowAt currentPartDuration duration i in
      if snd w <=? 0 then []
      else w :: planLoop fuel' (i + 1) currentPartDuration duration
  end.

Fixpoint ofNat (n : nat) : float :=
  match n with
  | O => 0
  | S n' => ofNat n' + 1
  end.

Definition plan (parts : nat) (duration : float) : list (float * float) :=
  planLoop parts 0 (duration / ofNat parts) duration.

(** [start + duration] of each window equals the next [start], bit for
    bit. *)
Fixpoint contiguousb (ws : list (float * float)) : bool :=
  match ws with
  | w1 :: ((w2 :: _) as rest) =>
      (fst w1 + snd w1 =? fst w2) && contiguousb rest
  | _ => true
  end.

Definition lastEnd (ws : list (float * float)) : float :=
  let w := last ws (0, 0) in fst w + snd w.

(** The last end point is within 1e-6 of [t]. *)
Definition endsWithinb (ws : list (float * float)) (t : float) : bool :=
  abs (lastEnd ws - t) <=? 1 / 1000000.

(** The parts-only loop: no clamp, no [break]. *)
Fixpoint openLoop (fuel : nat) (i partDuration : float) : list (float * float) :=
  match fuel with
  | O => []
  | S fuel' =>
      let start := i * partDuration in
      let end_ := (i + 1) * partDuration in
      (start, end_ - start) :: openLoop fuel' (i + 1) partDuration
  end.

Definition openPlan (parts : nat) (duration : float) : list (float * float) :=
  openLoop parts 0 (duration / ofNat parts).

(** A window list on rationals holds the values of one on binary64
    numbers. *)
Fixpoint agrees (fs : list (float * float)) (ws : list Window) : bool :=
  match fs, ws with
  | [], [] => true
  | f :: fs', w :: ws' =>
      Qeq_bool (exact (fst f)) (start w)
      && Qeq_bool (exact (snd f)) (actualDuration w)
      && agrees fs' ws'
  | _, _ => false
  end.

End IEEE.

(* ================================================================= *)
(** ** Vocabulary of the properties *)

(** The three split specifications, as settings of the component. *)
Definition isParts (cfg : Settings) (count : Z) : Prop :=
  splitMode cfg = ModeParts /\ parts cfg = count.


Definition isByTime (cfg : Settings) (targetSeconds : Q) : Prop :=
  splitMode cfg = ModeTime /\ splitTime cfg = targetSeconds.

(** The policy minimums the controls enforce. *)
Definition validSpec (cfg : Settings) : Prop :=
  match splitMode cfg with
  | ModeParts => (2 <= parts cfg)%Z
  | ModeSize => 1 <= splitSize cfg
  | ModeTime => 10 <= splitTime cfg
  end.

Definition windowEnd (w : Window) : Q := start w + actualDuration w.

(** Each window ends where the next one starts. *)
Fixpoint contiguous (ws : list Window) : Prop :=
  match ws with
  | w1 :: ((w2 :: _) as rest) => windowEnd w1 == start w2 /\ contiguous rest
  | _ => True
  end.

(** No window reaches into a later one. *)
Definition nonOverlapping (ws : list Window) : Prop :=
  forall (i j : nat) (wi wj : Window),
    (i < j)%nat -> nth_error ws i = Some wi -> nth_error ws j = Some wj ->
    windowEnd wi <= start wj.

Definition startsAtZero (ws : list Window) : Prop :=
  exists w rest, ws = w :: rest /\ start w == 0.

Definition endsAt (ws : list Window) (t : Q) : Prop :=
  match ws with
  | [] => False
  | w :: _ => windowEnd (last ws w) == t
  end.

(** The tolerance the specification allows on the last end point. *)
Definition tolerance : Q := 1 # 1000000.

Definition endsWithin (ws : list Window) (t : Q) : Prop :=
  match ws with
  | [] => False
  | w :: _ => Qabs (windowEnd (last ws w) - t) <= tolerance
  end.

(** The last window ends between [lo] and [hi]. *)
Definition endsBetween (ws : list Window) (lo hi : Q) : Prop :=
  match ws with
  | [] => False
  | w :: _ => lo <= windowEnd (last ws w) <= hi
  end.

(** The code's own [start + actualDuration], a binary64 addition, is the
    exact sum on these windows. *)
Definition exactEnds (ws : list Window) : Prop :=
  Forall (fun w => Double.add (start w) (actualDuration w) == windowEnd w) ws.

(** The start of window [i] on binary64 values. *)
Definition start64 (cpd : Q) (i : Z) : Q := Double.mul (inject_Z i) cpd.

(** The loop counter values [i, i+1, ...] of [n] iterations. *)
Fixpoint Zseq (i : Z) (n : nat) : list Z :=
  match n with
  | O => []
  | S n' => i :: Zseq (i + 1) n'
  end.

Definition sumDurations (ws : list Window) : Q :=
  fold_right (fun w acc => actualDuration w + acc) 0 ws.

(** What a run sent to the engine, and what it reported. *)
Definition execs (l : list Event) : list (list Arg) :=
  flat_map (fun e => match e with Exec a => [a] | _ => [] end) l.

Definition errorsRaised (l : list Event) : list string :=
  flat_map (fun e => match e with
                     | SetError msg => if String.eqb msg "" then [] else [msg]
                     | _ => []
                     end) l.

(** The status set on entering each window. *)
Definition splittingStatuses (l : list Event) : list Status :=
  flat_map (fun e => match e with
                     | SetStatus (StSplitting a b c) => [StSplitting a b c]
                     | SetStatus (StSplittingPart a c) => [StSplittingPart a c]
                     | _ => []
                     end) l.

(** The output name, the command and the status of a planned window, as
    the loop body of [splitMedia] computes them. *)
Definition outputOf (file : File) (w : Window) : string :=
  outputName (index w) (baseNameOf (name file)) (fileExtOf (name file)).

Definition commandOf (cfg : Settings) (file : File) (w : Window) : list Arg :=
  ffmpegArgs (encodingMode cfg) (start w) (actualDuration w) (outputOf file w).

Definition statusOf (currentParts : Z) (w : Window) : Status :=
  StSplitting (index w + 1) currentParts
    (partPercent (index w) currentParts).

(** The same three for the loop body of the parts-only revision. *)
Definition partsOnlyCommandOf (file : File) (w : Window) : list Arg :=
  PartsOnly.ffmpegArgs (start w) (actualDuration w) (outputOf file w).

Definition partsOnlyStatusOf (parts : Z) (w : Window) : Status :=
  StSplittingPart (index w + 1)
    (partPercent (index w) parts).

(** The engine runs [command] and hands back the file [out]; or it
    rejects one of the two calls. *)
Definition engineDelivers (env : Env) (command : list Arg) (out : string)
  : Prop :=
  snd (exec env command) = true /\ readFile env out <> None.

Definition engineRejects (env : Env) (command : list Arg) (out : string)
  : Prop :=
  snd (exec env command) = false \/ readFile env out = None.

Definition engineOK (env : Env) (cfg : Settings) (file : File) (w : Window)
  : Prop :=
  engineDelivers env (commandOf cfg file w) (outputOf file w).

Definition engineFails (env : Env) (cfg : Settings) (file : File) (w : Window)
  : Prop :=
  engineRejects env (commandOf cfg file w) (outputOf file w).

(** [flag] followed by [value] somewhere in an argument list. *)
Fixpoint hasOption (flag : string) (value : Arg) (args : list Arg) : Prop :=
  match args with
  | ArgStr f :: ((v :: _) as rest) =>
      (f = flag /\ v = value) \/ hasOption flag value rest
  | _ :: rest => hasOption flag value rest
  | [] => False
  end.

Definition hasFlag (flag : string) (args : list Arg) : Prop :=
  In (ArgStr flag) args.

(** [n] windows of nominal length [cpd] reach exactly over [0, d]: the
    last one starts before [d] and its nominal end is not before [d]. *)
Definition covers (n : Z) (cpd d : Q) : Prop :=
  (1 <= n)%Z /\ 0 < cpd
  /\ inject_Z (n - 1) * cpd < d /\ d <= inject_Z n * cpd.

(** Start and duration of each window, in lowest terms. *)
Definition spans (ws : list Window) : list (Q * Q) :=
  map (fun w => (Qred (start w), Qred (actualDuration w))) ws.

(** *** Runs as event lists

    The functions below describe, without the monad, the events a run
    appends to the log; the lemmas of section "Runs" prove that the
    monadic code produces exactly these. *)

Definition replay (l : list Event) (s : AppState) : AppState :=
  fold_left (fun s e => applyEvent e s) l s.

Definition extend (w : World) (l : list Event) : World :=
  mkWorld (replay l (ui w)) (log w ++ l)%list.

Definition callbackEvents (es : list EngineEvent) : list Event :=
  flat_map (fun e =>
              match e with
              | OnLog message =>
                  if JS.includes "error" message
                  then [SetStatus (StEngineError (JS.slice0 20 message))]
                  else []
              | OnProgress ratio => [SetProgress (callbackPercent ratio)]
              end) es.

(** Events that leave [processing], [resultFiles] and [error] alone. *)
Definition quiet (e : Event) : Prop :=
  match e with
  | SetProcessing _ | SetResultFiles _ | SetError _ => False
  | _ => True
  end.

(** The two revisions share the shape of their run; they differ in the
    command and the status of a window, and in the window list. *)
Section Traces.

Variable env : Env.
Variable file : File.
Variable commandFor : Window -> list Arg.
Variable statusFor : Window -> Status.

(** The artifact of a window, when the engine delivers it. *)
Definition windowResult (w : Window) : option Artifact :=
  if snd (exec env (commandFor w))
  then match readFile env (outputOf file w) with
       | Some data =>
           Some (mkArtifact (outputOf file w) (mkBlob data (type file)))
       | None => None
       end
  else None.

Definition windowTrace (w : Window) : list Event :=
  ([SetStatus (statusFor w); Exec (commandFor w)]
     ++ callbackEvents (fst (exec env (commandFor w)))
     ++ (if snd (exec env (commandFor w))
         then [ReadFile (outputOf file w)] else []))%list.

Fixpoint loopResult (ws : list Window) (outputs : list Artifact)
  : option (list Artifact) :=
  match ws with
  | [] => Some outputs
  | w :: ws' =>
      match windowResult w with
      | Some a => loopResult ws' (outputs ++ [a])%list
      | None => None
      end
  end.

Fixpoint loopTrace (ws : list Window) : list Event :=
  match ws with
  | [] => []
  | w :: ws' =>
      (windowTrace w
         ++ match windowResult w with
            | Some _ => loopTrace ws'
            | None => []
            end)%list
  end.

(** The windows the loop enters: all of them, or up to and including the
    first one the engine fails on. *)
Fixpoint enteredWindows (ws : list Window) : list Window :=
  match ws with
  | [] => []
  | w :: ws' =>
      w :: match windowResult w with
           | Some _ => enteredWindows ws'
           | None => []
           end
  end.

(** The events of a whole [splitMedia] call over the windows [ws]. *)
Definition runTrace (ws : list Window) : list Event :=
  ([SetProcessing true; SetError ""; SetResultFiles [];
    SetStatus StReading; WriteFile "input"]
     ++ (if writeFile env "input" file
         then [SetStatus StAnalyzing]
                ++ loopTrace ws
                ++ match loopResult ws [] with
                   | Some outputs =>
                       [SetResultFiles outputs; SetStatus StDone; SetProgress 100]
                   | None => [SetError errorMessage]
                   end
         else [SetError errorMessage])
     ++ [SetProcessing false])%list.

End Traces.

Definition mediaTrace (env : Env) (cfg : Settings) (file : File) : list Event :=
  let duration := getDuration env file in
  let currentParts := fst (planParams cfg (size file) duration) in
  runTrace env file (commandOf cfg file) (statusOf currentParts)
    (plan cfg (size file) duration).

Definition partsOnlyTrace (env : Env) (parts : Z) (file : File) : list Event :=
  runTrace env file (partsOnlyCommandOf file) (partsOnlyStatusOf parts)
    (PartsOnly.plan parts (getDuration env file)).

(** A run signals an error to the user when it calls [setError] with a
    message. *)
Definition signalsError (env : Env) (cfg : Settings) (file : File)
    (s0 : AppState) : Prop :=
  errorsRaised (runLog env cfg (Some file) s0) <> [].

(** Whether a file name contains the character ['.']. *)
Fixpoint hasDot (s : string) : bool :=
  match s with
  | EmptyString => false
  | String c r => if Ascii.eqb c "." then true else hasDot r
  end.

(** The percentage in the status of window [i] of [N]. *)
Definition percentAt (N i : Z) : Z := partPercent i N.

(* ================================================================= *)
(** ** The rest of the component *)

(** *** [formatTime] *)

(** [Math.floor], [Math.max] and the remainder operator [%]
    (the quotient is truncated toward zero) on exact values. *)
Definition Math_floor (x : Q) : Z := Qfloor x.

Definition Math_max (x y : Q) : Q := if JS.ltb x y then y else x.

Definition jsTrunc (x : Q) : Z := if JS.ltb x 0 then Qceiling x else Qfloor x.

Definition jsRem (x y : Q) : Q := x - y * inject_Z (jsTrunc (x / y)).

(** [formatTime(seconds)]; [!seconds] holds for 0. *)
Definition formatTime (seconds : Q) : string :=
  if Qeq_bool seconds 0 then "0s"
  else
    let h := Math_floor (seconds / 3600) in
    let m := Math_floor (jsRem seconds 3600 / 60) in
    let s := Math_floor (jsRem seconds 60) in
    if (0 <? h)%Z
    then JS.toString h ++ "h " ++ JS.toString m ++ "m " ++ JS.toString s ++ "s"
    else if (0 <? m)%Z
         then JS.toString m ++ "m " ++ JS.toString s ++ "s"
         else JS.toString s ++ "s".

(** *** The split controls *)

(** The buttons that change the settings: the minus and plus buttons of
    the three counters, the three mode buttons and the two encoding
    buttons. *)
Inductive Control :=
| MinusParts
| PlusParts
| MinusSize
| PlusSize
| MinusTime
| PlusTime
| ModeButton (m : SplitMode)
| EncodingButton (e : EncodingMode).

(** A counter is rendered only in its own split mode. *)
Definition rendered (cfg : Settings) (c : Control) : bool :=
  match c, splitMode cfg with
  | MinusParts, ModeParts | PlusParts, ModeParts => true
  | MinusSize, ModeSize | PlusSize, ModeSize => true
  | MinusTime, ModeTime | PlusTime, ModeTime => true
  | ModeButton _, _ | EncodingButton _, _ => true
  | _, _ => false
  end.

(** The [disabled] attribute of each button. *)
Definition disabled (processing : bool) (cfg : Settings) (c : Control) : bool :=
  match c with
  | MinusParts => processing || (parts cfg <=? 2)%Z
  | MinusSize => processing || JS.leb (splitSize cfg) 1
  | MinusTime => processing || JS.leb (splitTime cfg) 10
  | _ => processing
  end.

(** The [onClick] handler of each button. *)
Definition onClick (cfg : Settings) (c : Control) : Settings :=
  match c with
  | MinusParts =>
      mkSettings (splitMode cfg) (Z.max 2 (parts cfg - 1)) (splitSize cfg)
        (splitTime cfg) (encodingMode cfg)
  | PlusParts =>
      mkSettings (splitMode cfg) (parts cfg + 1) (splitSize cfg)
        (splitTime cfg) (encodingMode cfg)
  | MinusSize =>
      mkSettings (splitMode cfg) (parts cfg) (Math_max 1 (splitSize cfg - 5))
        (splitTime cfg) (encodingMode cfg)
  | PlusSize =>
      mkSettings (splitMode cfg) (parts cfg) (splitSize cfg + 5)
        (splitTime cfg) (encodingMode cfg)
  | MinusTime =>
      mkSettings (splitMode cfg) (parts cfg) (splitSize cfg)
        (Math_max 10 (splitTime cfg - 10)) (encodingMode cfg)
  | PlusTime =>
      mkSettings (splitMode cfg) (parts cfg) (splitSize cfg)
        (splitTime cfg + 10) (encodingMode cfg)
  | ModeButton m =>
      mkSettings m (parts cfg) (splitSize cfg) (splitTime cfg) (encodingMode cfg)
  | EncodingButton e =>
      mkSettings (splitMode cfg) (parts cfg) (splitSize cfg) (splitTime cfg) e
  end.

(** A click reaches the handler only on a rendered, enabled button. *)
Definition click (processing : bool) (cfg : Settings) (c : Control) : Settings :=
  if rendered cfg c && negb (disabled processing cfg c)
  then onClick cfg c
  else cfg.

(** The [useState] initial values. *)
Definition initialSettings : Settings :=
  mkSettings ModeParts 2 10 60 Compatible.

(** A session of clicks, each with the value [processing] has at that
    moment. *)
Definition clicks (cfg : Settings) (l : list (bool * Control)) : Settings :=
  fold_left (fun cfg pc => click (fst pc) cfg (snd pc)) l cfg.

(** The values the counters can show: whole numbers; sizes in steps of 5
    from 0 or from 1, times in steps of 10. *)
Definition onGrid (cfg : Settings) : Prop :=
  (2 <= parts cfg)%Z
  /\ (exists k : Z, splitSize cfg == inject_Z k /\ (1 <= k)%Z
                    /\ (k mod 5 = 0 \/ k mod 5 = 1)%Z)
  /\ (exists j : Z, splitTime cfg == inject_Z (10 * j) /\ (1 <= j)%Z).

(** The "Est. Parts" badge of size mode and of time mode. *)
Definition estimatedParts (cfg : Settings) (file : File) (fileDuration : Q)
  : option Z :=
  match splitMode cfg with
  | ModeSize =>
      Some (Z.max 1 (JS.Math_ceil
                       ((inject_Z (size file) / inject_Z (1024 * 1024))
                        / splitSize cfg)))
  | ModeTime => Some (Z.max 1 (JS.Math_ceil (fileDuration / splitTime cfg)))
  | ModeParts => None
  end.

(** *** What the progress bar receives *)

Definition progressSets (l : list Event) : list Z :=
  flat_map (fun e => match e with SetProgress p => [p] | _ => [] end) l.

(** The values the ['progress'] listener derives from the callbacks of
    one command. *)
Definition engineProgress (es : list EngineEvent) : list Z :=
  flat_map (fun e => match e with
                     | OnProgress ratio => [callbackPercent ratio]
                     | OnLog _ => []
                     end) es.

(** The prefix of a name before its first ['_']. *)
Fixpoint beforeUnderscore (s : string) : string :=
  match s with
  | EmptyString => EmptyString
  | String c r => if Ascii.eqb c "_" then EmptyString
                  else String c (beforeUnderscore r)
  end.

Fixpoint hasUnderscore (s : string) : bool :=
  match s with
  | EmptyString => false
  | String c r => if Ascii.eqb c "_" then true else hasUnderscore r
  end.

(* ================================================================= *)
(** ** The component around [splitMedia] *)

(** All [useState] cells of [App], with [status] as the text it holds,
    the file handlers, the engine bootstrap and the conditions under
    which the JSX renders each block (the same in the revision with
    split modes and in [src/App.jsx]). *)
Module UI.

Record Component := mkComponent {
  loaded : bool;
  file : option File;
  settings : Settings;
  processing : bool;
  status : string;
  progress : Z;
  resultFiles : list Artifact;
  error : string;
  fileDuration : Q;
  isDragging : bool
}.

(** The state at mount. *)
Definition initial : Component :=
  mkComponent false None initialSettings false "" 0 [] "" 0 false.

Definition loadingStatus : string := "Initializing system infrastructure...".

Definition loadError (message : string) : string :=
  "Load failed: " ++ message
    ++ ". This might be a network block or browser compatibility issue. (SharedArrayBuffer needs to be enabled)".

(** The two listeners [loadFFmpeg] registers, on the cells of the
    component. *)
Definition listen (e : EngineEvent) (c : Component) : Component :=
  match e with
  | OnLog message =>
      if JS.includes "error" message
      then mkComponent (loaded c) (file c) (settings c) (processing c)
             (renderStatus (StEngineError (JS.slice0 20 message)))
             (progress c) (resultFiles c) (error c) (fileDuration c)
             (isDragging c)
      else c
  | OnProgress ratio =>
      mkComponent (loaded c) (file c) (settings c) (processing c) (status c)
        (callbackPercent ratio) (resultFiles c) (error c)
        (fileDuration c) (isDragging c)
  end.

(** [loadFFmpeg]: [during] is what the engine sends to the listeners
    while it loads; the outcome is [None] when [ffmpeg.load] resolves and
    [Some message] when anything in the [try] block throws an error with
    that message. *)
Definition loadFFmpeg (during : list EngineEvent) (outcome : option string)
    (c : Component) : Component :=
  let c1 :=
    mkComponent (loaded c) (file c) (settings c) (processing c) loadingStatus
      (progress c) (resultFiles c) (error c) (fileDuration c) (isDragging c) in
  let c2 := fold_left (fun c e => listen e c) during c1 in
  match outcome with
  | None =>
      mkComponent true (file c2) (settings c2) (processing c2) ""
        (progress c2) (resultFiles c2) (error c2) (fileDuration c2)
        (isDragging c2)
  | Some message =>
      mkComponent (loaded c2) (file c2) (settings c2) (processing c2)
        (status c2) (progress c2) (resultFiles c2) (loadError message)
        (fileDuration c2) (isDragging c2)
  end.

Definition handleDragOver (c : Component) : Component :=
  mkComponent (loaded c) (file c) (settings c) (processing c) (status c)
    (progress c) (resultFiles c) (error c) (fileDuration c) true.

Definition handleDragLeave (c : Component) : Component :=
  mkComponent (loaded c) (file c) (settings c) (processing c) (status c)
    (progress c) (resultFiles c) (error c) (fileDuration c) false.

(** [handleFileChange]: [selected] is [e.target.files[0]]. *)
Definition handleFileChange (env : Env) (selected : option File) (c : Component)
  : Component :=
  match selected with
  | Some f =>
      mkComponent (loaded c) (Some f) (settings c) (processing c) (status c)
        (progress c) [] "" (getDuration env f) (isDragging c)
  | None => c
  end.

(** [handleDrop]: [dropped] is [e.dataTransfer.files[0]]. *)
Definition handleDrop (env : Env) (dropped : option File) (c : Component)
  : Component :=
  handleFileChange env dropped (handleDragLeave c).

(** The "Process another file" button. *)
Definition processAnother (c : Component) : Component :=
  mkComponent (loaded c) None (settings c) (processing c) (status c)
    0 [] (error c) (fileDuration c) (isDragging c).

(** A settings button. *)
Definition press (b : Control) (c : Component) : Component :=
  mkComponent (loaded c) (file c) (click (processing c) (settings c) b)
    (processing c) (status c) (progress c) (resultFiles c) (error c)
    (fileDuration c) (isDragging c).

(** The cells [splitMedia] works on.  [status] is passed as [StEmpty]:
    [splitMedia] never reads it and overwrites it before anything else
    can fail. *)
Definition cells (c : Component) : AppState :=
  mkAppState (processing c) StEmpty (progress c) (resultFiles c) (error c).

(** The "Start Splitting" button: [splitMedia] run to completion. *)
Definition startSplitting (env : Env) (c : Component) : Component :=
  match file c with
  | None => c
  | Some f =>
      match finalState env (settings c) (Some f) (cells c) with
      | mkAppState processing' status' progress' resultFiles' error' =>
          mkComponent (loaded c) (file c) (settings c)
            processing' (renderStatus status') progress' resultFiles' error'
            (fileDuration c) (isDragging c)
      end
  end.

(** The same button when the duration probe may stay pending: the
    component as the call leaves it, or as it stays while the call never
    returns. *)
Definition startSplittingAwait (metadataLoads : File -> bool) (env : Env)
    (c : Component) : Component :=
  match file c with
  | None => c
  | Some f =>
      match ui (snd (runAwait metadataLoads env (settings c) (Some f) (cells c)))
      with
      | mkAppState processing' status' progress' resultFiles' error' =>
          mkComponent (loaded c) (file c) (settings c)
            processing' (renderStatus status') progress' resultFiles' error'
            (fileDuration c) (isDragging c)
      end
  end.

(** [downloadAll]: one anchor click per result, with its [href] and
    [download] attributes. *)
Definition downloadAll (c : Component) : list (Blob * string) :=
  map (fun f => (artUrl f, artName f)) (resultFiles c).

(** The render conditions of the JSX. *)
Definition showSpinner (c : Component) : bool :=
  negb (loaded c) && String.eqb (error c) "".

Definition showError (c : Component) : bool :=
  negb (String.eqb (error c) "").

Definition showControls (c : Component) : bool := loaded c.

Definition showProgress (c : Component) : bool := loaded c && processing c.

Definition showStart (c : Component) : bool :=
  loaded c && negb (processing c) && Nat.eqb (List.length (resultFiles c)) 0.

Definition startEnabled (c : Component) : bool :=
  match file c with Some _ => true | None => false end.

Definition showResults (c : Component) : bool :=
  loaded c && Nat.ltb 0 (List.length (resultFiles c)).

(** What a user can do between two runs.  An event reaches its handler
    only on an element that is rendered and enabled. *)
Inductive Action :=
| OnDragOver
| OnDragLeave
| OnDrop (dropped : option File)
| OnChange (selected : option File)
| OnPress (b : Control)
| OnStart
| OnProcessAnother.

Definition act (env : Env) (a : Action) (c : Component) : Component :=
  if showControls c
  then match a with
       | OnDragOver => handleDragOver c
       | OnDragLeave => handleDragLeave c
       | OnDrop dropped => handleDrop env dropped c
       | OnChange selected => handleFileChange env selected c
       | OnPress b => press b c
       | OnStart =>
           if showStart c && startEnabled c then startSplitting env c else c
       | OnProcessAnother =>
           if showResults c then processAnother c else c
       end
  else c.

Definition session (env : Env) (l : list Action) (c : Component) : Component :=
  fold_left (fun c a => act env a c) l c.

End UI.

(* ================================================================= *)
(** * Properties *)

Open Scope list_scope.

(** ** Comparisons and rounding *)

Lemma ltb_true_iff (x y : Q) : JS.ltb x y = true <-> x < y.
Proof.
  unfold JS.ltb. rewrite negb_true_iff.
  split; intro H.
  - apply Qnot_le_lt. intro Hle. apply Qle_bool_iff in Hle. congruence.
  - destruct (Qle_bool y x) eqn:E; [|reflexivity].
    apply Qle_bool_iff in E. exfalso. apply (Qlt_not_le _ _ H E).
Qed.

Lemma ltb_false_iff (x y : Q) : JS.ltb x y = false <-> y <= x.
Proof.
  unfold JS.ltb. rewrite negb_false_iff. apply Qle_bool_iff.
Qed.

Lemma leb_true_iff (x y : Q) : JS.leb x y = true <-> x <= y.
Proof. apply Qle_bool_iff. Qed.

Lemma leb_false_iff (x y : Q) : JS.leb x y = false <-> y < x.
Proof.
  unfold JS.leb. split; intro H.
  - apply Qnot_le_lt. intro Hle. apply Qle_bool_iff in Hle. congruence.
  - destruct (Qle_bool x y) eqn:E; [|reflexivity].
    apply Qle_bool_iff in E. exfalso. apply (Qlt_not_le _ _ H E).
Qed.

Lemma inject_Z_succ (i : Z) : inject_Z (i + 1) == inject_Z i + 1.
Proof. rewrite inject_Z_plus. reflexivity. Qed.

Lemma inject_Z_pos (n : Z) : (1 <= n)%Z -> 0 < inject_Z n.
Proof.
  intro H. change 0 with (inject_Z 0). rewrite <- Zlt_Qlt. lia.
Qed.

Lemma div_mul_cancel (d : Q) (n : Z) :
  (1 <= n)%Z -> inject_Z n * (d / inject_Z n) == d.
Proof.
  intro H. pose proof (inject_Z_pos n H) as Hn.
  field. intro E. rewrite E in Hn. apply (Qlt_irrefl 0 Hn).
Qed.

Lemma div_pos (d : Q) (n : Z) : (1 <= n)%Z -> 0 < d -> 0 < d / inject_Z n.
Proof.
  intros H Hd. apply Qlt_shift_div_l.
  - apply inject_Z_pos; assumption.
  - rewrite Qmult_0_l. assumption.
Qed.

Lemma Qfloor_unique (x : Q) (k : Z) :
  inject_Z k <= x -> x < inject_Z (k + 1) -> Qfloor x = k.
Proof.
  intros Hle Hlt.
  pose proof (Qfloor_le x) as Hf. pose proof (Qlt_floor x) as Hg.
  assert (H1 : inject_Z (Qfloor x) < inject_Z (k + 1))
    by (eapply Qle_lt_trans; eassumption).
  assert (H2 : inject_Z k < inject_Z (Qfloor x + 1))
    by (eapply Qle_lt_trans; eassumption).
  rewrite <- Zlt_Qlt in H1, H2. lia.
Qed.

(** ** Binary64 rounding *)

(** *** Powers of two *)
Lemma pow2_pos (e : Z) : 0 < Double.pow2 e.
Proof. apply Qpower_0_lt. reflexivity. Qed.

Lemma pow2_add (a b : Z) : Double.pow2 (a + b) == Double.pow2 a * Double.pow2 b.
Proof. apply Qpower_plus. discriminate. Qed.

Lemma pow2_le (a b : Z) : (a <= b)%Z -> Double.pow2 a <= Double.pow2 b.
Proof. intro H. apply Qpower_le_compat_l; [assumption | discriminate]. Qed.

Lemma pow2_lt_inv (a b : Z) : Double.pow2 a < Double.pow2 b -> (a < b)%Z.
Proof. intro H. apply (Qpower_lt_compat_l_inv 2); [assumption | reflexivity]. Qed.

Lemma pow2_Z (n : Z) : (0 <= n)%Z -> Double.pow2 n == inject_Z (2 ^ n).
Proof. intro H. unfold Double.pow2. rewrite Zpower_Qpower by assumption. reflexivity. Qed.

Lemma pow2_succ (e : Z) : Double.pow2 (e + 1) == 2 * Double.pow2 e.
Proof. rewrite pow2_add. change (Double.pow2 1) with 2. ring. Qed.

Lemma pow2_sub (a b : Z) : Double.pow2 (a - b) == Double.pow2 a / Double.pow2 b.
Proof.
  unfold Z.sub. rewrite pow2_add. unfold Double.pow2 at 2. rewrite Qpower_opp.
  reflexivity.
Qed.

(** *** The binade of a positive number *)
Lemma Qmake_eq (x : Q) : x * inject_Z (Zpos (Qden x)) == inject_Z (Qnum x).
Proof.
  destruct x as [a b]. unfold Qeq, Qmult, inject_Z. cbn. lia.
Qed.

Lemma Qnum_pos (x : Q) : 0 < x -> (0 < Qnum x)%Z.
Proof. destruct x as [a b]. unfold Qlt. cbn. lia. Qed.

Lemma mag_spec (x : Q) : 0 < x -> Double.pow2 (Double.mag x) <= x /\ x < Double.pow2 (Double.mag x + 1).
Proof.
  intro Hx. pose proof (Qnum_pos x Hx) as Ha.
  pose proof (Qmake_eq x) as Hab.
  set (a := Qnum x) in *. set (b := Zpos (Qden x)) in *.
  assert (Hb : (0 < b)%Z) by (unfold b; lia).
  destruct (Z.log2_spec a Ha) as [Ha1 Ha2].
  destruct (Z.log2_spec b Hb) as [Hb1 Hb2].
  pose proof (Z.log2_nonneg a) as Hla. pose proof (Z.log2_nonneg b) as Hlb.
  set (la := Z.log2 a) in *. set (lb := Z.log2 b) in *.
  assert (Qa1 : Double.pow2 la <= inject_Z a)
    by (rewrite pow2_Z by assumption; rewrite <- Zle_Qle; assumption).
  assert (Qa2 : inject_Z a < Double.pow2 (la + 1)).
  { rewrite pow2_Z by lia. rewrite <- Zlt_Qlt.
    replace (la + 1)%Z with (Z.succ la) by lia. assumption. }
  assert (Qb1 : Double.pow2 lb <= inject_Z b)
    by (rewrite pow2_Z by assumption; rewrite <- Zle_Qle; assumption).
  assert (Qb2 : inject_Z b < Double.pow2 (lb + 1)).
  { rewrite pow2_Z by lia. rewrite <- Zlt_Qlt.
    replace (lb + 1)%Z with (Z.succ lb) by lia. assumption. }
  assert (Qb : 0 < inject_Z b) by (change 0 with (inject_Z 0); rewrite <- Zlt_Qlt; assumption).
  (* x < Double.pow2 (la - lb + 1) and Double.pow2 (la - lb - 1) < x *)
  assert (Hup : x < Double.pow2 (la - lb + 1)).
  { apply (Qmult_lt_r _ _ (inject_Z b) Qb). rewrite Hab.
    eapply Qlt_le_trans; [exact Qa2|].
    replace (la + 1)%Z with ((la - lb + 1) + lb)%Z by lia.
    rewrite pow2_add. apply Qmult_le_l; [apply pow2_pos | assumption]. }
  assert (Hlow : Double.pow2 (la - lb - 1) < x).
  { apply (Qmult_lt_r _ _ (inject_Z b) Qb). rewrite Hab.
    eapply Qlt_le_trans; [|exact Qa1].
    replace la with ((la - lb - 1) + (lb + 1))%Z at 2 by lia.
    rewrite pow2_add. apply Qmult_lt_l; [apply pow2_pos | assumption]. }
  unfold Double.mag. fold a b la lb.
  destruct (Qle_bool (Double.pow2 (la - lb)) x) eqn:E.
  - apply Qle_bool_iff in E. split; assumption.
  - assert (x < Double.pow2 (la - lb)).
    { apply Qnot_le_lt. intro H. apply Qle_bool_iff in H. congruence. }
    split; [apply Qlt_le_weak; assumption|].
    replace (la - lb - 1 + 1)%Z with (la - lb)%Z by lia. assumption.
Qed.

Lemma mag_unique (x : Q) (e : Z) :
  Double.pow2 e <= x -> x < Double.pow2 (e + 1) -> Double.mag x = e.
Proof.
  intros H1 H2.
  assert (Hx : 0 < x) by (eapply Qlt_le_trans; [apply pow2_pos | exact H1]).
  destruct (mag_spec x Hx) as [M1 M2].
  assert (A : (e < Double.mag x + 1)%Z)
    by (apply pow2_lt_inv; eapply Qle_lt_trans; eassumption).
  assert (B : (Double.mag x < e + 1)%Z)
    by (apply pow2_lt_inv; eapply Qle_lt_trans; eassumption).
  lia.
Qed.

Lemma mag_comp (x y : Q) : 0 < x -> x == y -> Double.mag x = Double.mag y.
Proof.
  intros Hx E. assert (Hy : 0 < y) by (rewrite <- E; assumption).
  destruct (mag_spec y Hy) as [H1 H2].
  apply mag_unique; rewrite E; assumption.
Qed.

Lemma mag_le (x y : Q) : 0 < x -> x <= y -> (Double.mag x <= Double.mag y)%Z.
Proof.
  intros Hx Hxy.
  assert (Hy : 0 < y) by (eapply Qlt_le_trans; eassumption).
  destruct (mag_spec x Hx) as [X1 _]. destruct (mag_spec y Hy) as [_ Y2].
  assert (Double.mag x < Double.mag y + 1)%Z; [|lia].
  apply pow2_lt_inv. eapply Qle_lt_trans; [exact X1|].
  eapply Qle_lt_trans; eassumption.
Qed.

(** *** Rounding to the nearest integer, ties to even *)
Lemma rne_comp (q q' : Q) : q == q' -> Double.rne q = Double.rne q'.
Proof.
  intro E. unfold Double.rne.
  assert (Hf : Qfloor q = Qfloor q') by (apply Qfloor_comp; exact E).
  rewrite <- Hf.
  assert (Hc : Qcompare (q - inject_Z (Qfloor q)) (1 # 2)
               = Qcompare (q' - inject_Z (Qfloor q)) (1 # 2)).
  { apply Qcompare_comp; [|reflexivity].
    apply Qplus_comp; [exact E | reflexivity]. }
  rewrite <- Hc. reflexivity.
Qed.

Lemma rne_cases (q : Q) :
  let f := Qfloor q in
  (q - inject_Z f < 1 # 2 /\ Double.rne q = f)
  \/ (1 # 2 < q - inject_Z f /\ Double.rne q = (f + 1)%Z)
  \/ (q - inject_Z f == 1 # 2 /\ (Double.rne q = f \/ Double.rne q = (f + 1)%Z)
      /\ Z.even (Double.rne q) = true).
Proof.
  intro f. unfold Double.rne. fold f.
  destruct (Qcompare_spec (q - inject_Z f) (1 # 2)) as [E|L|G].
  - right. right. split; [assumption|].
    destruct (Z.even f) eqn:Ev.
    + split; [now left | assumption].
    + split; [now right|]. rewrite Z.even_add, Ev. reflexivity.
  - left. split; [assumption | reflexivity].
  - right. left. split; [assumption | reflexivity].
Qed.

Lemma floor_bounds (q : Q) :
  inject_Z (Qfloor q) <= q /\ q < inject_Z (Qfloor q) + 1.
Proof.
  split; [apply Qfloor_le|].
  pose proof (Qlt_floor q) as H. rewrite inject_Z_plus in H. exact H.
Qed.

Lemma rne_error (q : Q) :
  - (1 # 2) <= inject_Z (Double.rne q) - q <= 1 # 2.
Proof.
  destruct (floor_bounds q) as [F1 F2].
  destruct (rne_cases q) as [[H ->]|[[H ->]|[H [[-> | ->] _]]]];
    try rewrite inject_Z_plus; change (inject_Z 1) with 1; split; lra.
Qed.

Lemma rne_Z (n : Z) : Double.rne (inject_Z n) = n.
Proof.
  unfold Double.rne. rewrite Qfloor_Z.
  destruct (Qcompare_spec (inject_Z n - inject_Z n) (1 # 2)) as [E|L|G].
  - exfalso. lra.
  - reflexivity.
  - exfalso. lra.
Qed.

Lemma rne_mono (q q' : Q) : q <= q' -> (Double.rne q <= Double.rne q')%Z.
Proof.
  intro H. pose proof (Qfloor_resp_le q q' H) as Hf.
  destruct (floor_bounds q) as [F1 F2]. destruct (floor_bounds q') as [G1 G2].
  destruct (Z.eq_dec (Qfloor q) (Qfloor q')) as [E|N].
  - destruct (rne_cases q) as [[A Ra]|[[A Ra]|[A [Ra Ea]]]];
      destruct (rne_cases q') as [[B Rb]|[[B Rb]|[B [Rb Eb]]]];
      rewrite <- E in *; try lia; try (exfalso; lra).
    destruct Ra as [Ra|Ra]; destruct Rb as [Rb|Rb]; try lia.
    rewrite Ra in Ea. rewrite Rb in Eb. rewrite Z.even_add in Ea.
    rewrite Eb in Ea. discriminate.
  - assert (Double.rne q <= Qfloor q + 1)%Z
      by (destruct (rne_cases q) as [[_ ->]|[[_ ->]|[_ [[-> | ->] _]]]]; lia).
    assert (Qfloor q' <= Double.rne q')%Z
      by (destruct (rne_cases q') as [[_ ->]|[[_ ->]|[_ [[-> | ->] _]]]]; lia).
    lia.
Qed.

(** *** Rounding to binary64 *)
Lemma Qabs_pos_eq (x : Q) : 0 <= x -> Qabs x = x.
Proof.
  destruct x as [a b]. unfold Qle. cbn. intro H.
  unfold Qabs. f_equal. lia.
Qed.

Lemma round_pos_eq (x : Q) :
  0 < x -> Double.round x = inject_Z (Double.rne (x / Double.pow2 (Double.mag x - 52))) * Double.pow2 (Double.mag x - 52).
Proof.
  intro Hx. unfold Double.round, Double.ulp.
  destruct (Qeq_bool x 0) eqn:E.
  - apply Qeq_bool_iff in E. exfalso. lra.
  - rewrite Qabs_pos_eq by lra. reflexivity.
Qed.

Lemma round_0 : Double.round 0 = 0.
Proof. reflexivity. Qed.

Lemma scaled_bounds (x : Q) :
  0 < x ->
  Double.pow2 52 <= x / Double.pow2 (Double.mag x - 52) /\ x / Double.pow2 (Double.mag x - 52) < Double.pow2 53.
Proof.
  intro Hx. destruct (mag_spec x Hx) as [H1 H2].
  pose proof (pow2_pos (Double.mag x - 52)) as Hu.
  split.
  - apply Qle_shift_div_l; [assumption|].
    rewrite <- pow2_add. replace (52 + (Double.mag x - 52))%Z with (Double.mag x) by lia.
    assumption.
  - apply Qlt_shift_div_r; [assumption|].
    rewrite <- pow2_add. replace (53 + (Double.mag x - 52))%Z with (Double.mag x + 1)%Z by lia.
    assumption.
Qed.

Lemma mantissa_bounds (x : Q) :
  0 < x ->
  (2 ^ 52 <= Double.rne (x / Double.pow2 (Double.mag x - 52)) <= 2 ^ 53)%Z.
Proof.
  intro Hx. destruct (scaled_bounds x Hx) as [H1 H2].
  split.
  - rewrite <- (rne_Z (2 ^ 52)). apply rne_mono.
    rewrite <- pow2_Z by lia. assumption.
  - rewrite <- (rne_Z (2 ^ 53)). apply rne_mono.
    rewrite <- pow2_Z by lia. apply Qlt_le_weak. assumption.
Qed.

Lemma round_bounds (x : Q) :
  0 < x -> Double.pow2 (Double.mag x) <= Double.round x /\ Double.round x <= Double.pow2 (Double.mag x + 1).
Proof.
  intro Hx. rewrite round_pos_eq by assumption.
  destruct (mantissa_bounds x Hx) as [M1 M2].
  pose proof (pow2_pos (Double.mag x - 52)) as Hu.
  split.
  - replace (Double.mag x) with (52 + (Double.mag x - 52))%Z at 1 by lia.
    rewrite pow2_add. apply Qmult_le_r; [assumption|].
    rewrite (pow2_Z 52) by lia. rewrite <- Zle_Qle. assumption.
  - replace (Double.mag x + 1)%Z with (53 + (Double.mag x - 52))%Z by lia.
    rewrite pow2_add. apply Qmult_le_r; [assumption|].
    rewrite (pow2_Z 53) by lia. rewrite <- Zle_Qle. assumption.
Qed.

Lemma round_pos (x : Q) : 0 < x -> 0 < Double.round x.
Proof.
  intro Hx. eapply Qlt_le_trans; [apply (pow2_pos (Double.mag x))|].
  apply round_bounds. assumption.
Qed.

Lemma round_error_abs (x : Q) :
  0 < x ->
  - Double.pow2 (Double.mag x - 53) <= Double.round x - x <= Double.pow2 (Double.mag x - 53).
Proof.
  intro Hx. rewrite round_pos_eq by assumption.
  pose proof (pow2_pos (Double.mag x - 52)) as Hu.
  pose proof (rne_error (x / Double.pow2 (Double.mag x - 52))) as [E1 E2].
  assert (Hx' : x == x / Double.pow2 (Double.mag x - 52) * Double.pow2 (Double.mag x - 52))
    by (field; lra).
  assert (Hh : Double.pow2 (Double.mag x - 52) == 2 * Double.pow2 (Double.mag x - 53)).
  { rewrite <- pow2_succ. replace (Double.mag x - 53 + 1)%Z with (Double.mag x - 52)%Z by lia.
    reflexivity. }
  set (q := x / Double.pow2 (Double.mag x - 52)) in *.
  set (u := Double.pow2 (Double.mag x - 52)) in *.
  set (m := inject_Z (Double.rne q)) in *.
  assert (A : (m - q) * u <= (1 # 2) * u) by (apply Qmult_le_r; assumption).
  assert (B : - (1 # 2) * u <= (m - q) * u) by (apply Qmult_le_r; assumption).
  split; lra.
Qed.

Lemma round_error (x : Q) :
  0 <= x -> x * (1 - Double.eps) <= Double.round x /\ Double.round x <= x * (1 + Double.eps).
Proof.
  intro Hx0. destruct (Qle_lt_or_eq _ _ Hx0) as [Hx|E].
  - destruct (round_error_abs x Hx) as [E1 E2].
    destruct (mag_spec x Hx) as [M1 _].
    assert (H : Double.pow2 (Double.mag x - 53) <= x * Double.eps).
    { unfold Double.eps. replace (Double.mag x - 53)%Z with (Double.mag x + -53)%Z by lia.
      rewrite pow2_add. apply Qmult_le_r; [apply pow2_pos | assumption]. }
    split; lra.
  - assert (Double.round x == 0).
    { unfold Double.round. destruct (Qeq_bool x 0) eqn:B; [reflexivity|].
      apply Qeq_bool_neq in B. exfalso. apply B. symmetry. assumption. }
    rewrite H, <- E. split; lra.
Qed.

Lemma round_comp (x y : Q) : x == y -> Double.round x == Double.round y.
Proof.
  intro E. unfold Double.round.
  assert (B : Qeq_bool x 0 = Qeq_bool y 0).
  { destruct (Qeq_bool x 0) eqn:Bx; destruct (Qeq_bool y 0) eqn:By;
      try reflexivity.
    - apply Qeq_bool_iff in Bx. apply Qeq_bool_neq in By.
      exfalso. apply By. rewrite <- E. assumption.
    - apply Qeq_bool_iff in By. apply Qeq_bool_neq in Bx.
      exfalso. apply Bx. rewrite E. assumption. }
  rewrite <- B. destruct (Qeq_bool x 0) eqn:Bx; [reflexivity|].
  apply Qeq_bool_neq in Bx.
  assert (Ha : 0 < Qabs x).
  { destruct (Qle_lt_or_eq _ _ (Qabs_nonneg x)) as [H|H]; [assumption|].
    exfalso. apply Bx.
    destruct (Qabs_Qle_condition x 0) as [C _].
    assert (Hc : - 0 <= x <= 0) by (apply C; rewrite <- H; apply Qle_refl).
    destruct Hc. lra. }
  assert (Hm : Double.mag (Qabs x) = Double.mag (Qabs y)).
  { apply mag_comp; [assumption|]. apply Qabs_wd. assumption. }
  unfold Double.ulp. rewrite <- Hm.
  assert (Hr : Double.rne (x / Double.pow2 (Double.mag (Qabs x) - 52))
               = Double.rne (y / Double.pow2 (Double.mag (Qabs x) - 52))).
  { apply rne_comp. apply Qmult_comp; [exact E | reflexivity]. }
  rewrite Hr. reflexivity.
Qed.

Lemma round_nonneg (x : Q) : 0 <= x -> 0 <= Double.round x.
Proof.
  intro H. destruct (round_error x H) as [L _].
  assert (0 <= x * (1 - Double.eps)).
  { apply Qmult_le_0_compat; [assumption|]. unfold Double.eps. 
    assert (Double.pow2 (-53) <= Double.pow2 0) by (apply pow2_le; lia).
    change (Double.pow2 0) with 1 in H0. lra. }
  lra.
Qed.

Lemma round_mono (x y : Q) : 0 <= x -> x <= y -> Double.round x <= Double.round y.
Proof.
  intros Hx0 Hxy. destruct (Qle_lt_or_eq _ _ Hx0) as [Hx|E].
  - assert (Hy : 0 < y) by lra.
    pose proof (mag_le x y Hx Hxy) as Hm.
    destruct (Z.eq_dec (Double.mag x) (Double.mag y)) as [Em|Nm].
    + rewrite !round_pos_eq by assumption. rewrite <- Em.
      apply Qmult_le_r; [apply pow2_pos|].
      rewrite <- Zle_Qle. apply rne_mono.
      apply Qmult_le_r; [|assumption].
      apply Qinv_lt_0_compat. apply pow2_pos.
    + destruct (round_bounds x Hx) as [_ B]. destruct (round_bounds y Hy) as [A _].
      eapply Qle_trans; [exact B|]. eapply Qle_trans; [|exact A].
      apply pow2_le. lia.
  - rewrite <- (round_comp 0 x E). rewrite round_0. apply round_nonneg. lra.
Qed.

Lemma round_neg (x : Q) : x <= 0 -> Double.round x <= 0.
Proof.
  intro H. unfold Double.round. destruct (Qeq_bool x 0); [apply Qle_refl|].
  pose proof (pow2_pos (Double.mag (Qabs x) - 52)) as Hu. fold (Double.ulp x) in Hu.
  assert (Hq : x / Double.ulp x <= 0).
  { apply Qle_shift_div_r; [assumption|]. lra. }
  pose proof (rne_mono _ _ Hq) as Hr. change 0 with (inject_Z 0) in Hr at 1.
  rewrite rne_Z in Hr.
  assert (Hm : inject_Z (Double.rne (x / Double.ulp x)) <= 0)
    by (change 0 with (inject_Z 0); rewrite <- Zle_Qle; assumption).
  setoid_replace 0 with (0 * Double.ulp x) by ring.
  apply Qmult_le_r; assumption.
Qed.

(** Doubling is exact. *)
Lemma mag_double (x : Q) : 0 < x -> Double.mag (2 * x) = (Double.mag x + 1)%Z.
Proof.
  intro Hx. destruct (mag_spec x Hx) as [H1 H2].
  apply mag_unique.
  - rewrite pow2_succ. lra.
  - rewrite pow2_succ. lra.
Qed.

Lemma round_double (x : Q) : 0 <= x -> Double.round (2 * x) == 2 * Double.round x.
Proof.
  intro Hx0. destruct (Qle_lt_or_eq _ _ Hx0) as [Hx|E].
  - assert (H2 : 0 < 2 * x) by lra.
    rewrite !round_pos_eq by assumption. rewrite mag_double by assumption.
    replace (Double.mag x + 1 - 52)%Z with ((Double.mag x - 52) + 1)%Z by lia.
    pose proof (pow2_pos (Double.mag x - 52)) as Hu.
    assert (Hq : Double.rne (2 * x / Double.pow2 (Double.mag x - 52 + 1))
                 = Double.rne (x / Double.pow2 (Double.mag x - 52))).
    { apply rne_comp. rewrite pow2_succ. field. lra. }
    rewrite Hq, pow2_succ. ring.
  - rewrite <- (round_comp 0 x E). rewrite <- (round_comp 0 (2 * x)); [reflexivity|].
    rewrite <- E. reflexivity.
Qed.

Lemma representable_comp (x y : Q) : x == y -> Double.representable x -> Double.representable y.
Proof.
  intros E (m & e & Hm & Hx). exists m, e. split; [assumption|].
  rewrite <- E. assumption.
Qed.

Lemma pow2_shift_Z (m j : Z) :
  (0 <= j)%Z -> inject_Z m * Double.pow2 j == inject_Z (m * 2 ^ j).
Proof.
  intro H. rewrite pow2_Z by assumption. rewrite inject_Z_mult. reflexivity.
Qed.

Lemma round_exact (x : Q) : 0 <= x -> Double.representable x -> Double.round x == x.
Proof.
  intros Hx0 (m & k & Hm & E). destruct (Qle_lt_or_eq _ _ Hx0) as [Hx|E0].
  - rewrite round_pos_eq by assumption.
    destruct (mag_spec x Hx) as [M1 M2].
    set (e := Double.mag x) in *. clearbody e.
    pose proof (pow2_pos k) as Hk. pose proof (pow2_pos (e - 52)) as Hu.
    assert (Hmpos : (0 < m)%Z).
    { destruct (Z.lt_trichotomy m 0) as [N|[N|N]]; [| |assumption]; exfalso.
      - assert (inject_Z m < 0)
          by (change 0 with (inject_Z 0); rewrite <- Zlt_Qlt; assumption).
        assert (inject_Z m * Double.pow2 k < 0 * Double.pow2 k)
          by (apply Qmult_lt_r; assumption).
        lra.
      - subst m. change (inject_Z 0) with 0 in E. lra. }
    assert (Hj : (e - 52 <= k)%Z).
    { assert (e < 53 + k)%Z; [|lia].
      apply pow2_lt_inv. eapply Qle_lt_trans; [exact M1|]. rewrite E.
      rewrite pow2_add. apply Qmult_lt_r; [assumption|].
      rewrite (pow2_Z 53) by lia. rewrite <- Zlt_Qlt. lia. }
    assert (Hq : x / Double.pow2 (e - 52) == inject_Z (m * 2 ^ (k - (e - 52)))).
    { rewrite <- pow2_shift_Z by lia. rewrite E.
      rewrite (pow2_sub k (e - 52)). field. lra. }
    rewrite (rne_comp _ _ Hq), rne_Z.
    rewrite <- pow2_shift_Z by lia. rewrite E, (pow2_sub k (e - 52)).
    field. lra.
  - rewrite <- (round_comp 0 x E0). rewrite round_0. assumption.
Qed.

Lemma round_representable (x : Q) : 0 <= x -> Double.representable (Double.round x).
Proof.
  intro Hx0. destruct (Qle_lt_or_eq _ _ Hx0) as [Hx|E0].
  - rewrite round_pos_eq by assumption.
    destruct (mantissa_bounds x Hx) as [M1 M2].
    set (m := Double.rne (x / Double.pow2 (Double.mag x - 52))) in *.
    destruct (Z.eq_dec m (2 ^ 53)) as [E|N].
    + exists (2 ^ 52)%Z, (Double.mag x - 52 + 1)%Z. split; [lia|].
      rewrite E, pow2_succ. 
      change (inject_Z (2 ^ 53)) with (2 * inject_Z (2 ^ 52)). ring.
    + exists m, (Double.mag x - 52)%Z. split; [lia | reflexivity].
  - apply (representable_comp (Double.round 0)); [apply round_comp; assumption|].
    rewrite round_0. exists 0%Z, 0%Z. split; [reflexivity|]. reflexivity.
Qed.

Lemma representable_Z (n : Z) : (Z.abs n < 2 ^ 53)%Z -> Double.representable (inject_Z n).
Proof.
  intro H. exists n, 0%Z. split; [assumption|]. change (Double.pow2 0) with 1. ring.
Qed.

(** Sterbenz: the difference of two nearby binary64 values is one. *)
Lemma Zle_of_scaled (a b : Z) (k : Z) :
  inject_Z a * Double.pow2 k <= inject_Z b * Double.pow2 k -> (a <= b)%Z.
Proof.
  intro H. apply Qmult_le_r in H; [|apply pow2_pos].
  rewrite <- Zle_Qle in H. assumption.
Qed.

Lemma sterbenz (x y : Q) :
  Double.representable x -> Double.representable y ->
  0 <= y -> y <= x -> x <= 2 * y -> Double.representable (x - y).
Proof.
  intros (mx & kx & Hmx & Ex) (my & ky & Hmy & Ey) Hy0 Hyx Hx2y.
  destruct (Z.le_gt_cases kx ky) as [Hk|Hk].
  - exists (mx - my * 2 ^ (ky - kx))%Z, kx. 
    assert (Eq : x - y == inject_Z (mx - my * 2 ^ (ky - kx)) * Double.pow2 kx).
    { rewrite Ex, Ey. unfold Z.sub at 1.
      rewrite inject_Z_plus, inject_Z_opp, <- pow2_shift_Z by lia.
      rewrite pow2_sub. field. pose proof (pow2_pos kx). lra. }
    split; [|exact Eq].
    assert (L : (0 <= mx - my * 2 ^ (ky - kx))%Z).
    { apply (Zle_of_scaled _ _ kx). rewrite <- Eq.
      change (inject_Z 0) with 0. lra. }
    assert (U : (mx - my * 2 ^ (ky - kx) <= mx)%Z).
    { apply (Zle_of_scaled _ _ kx). rewrite <- Eq, <- Ex. lra. }
    lia.
  - exists (mx * 2 ^ (kx - ky) - my)%Z, ky.
    assert (Eq : x - y == inject_Z (mx * 2 ^ (kx - ky) - my) * Double.pow2 ky).
    { rewrite Ex, Ey. unfold Z.sub at 1.
      rewrite inject_Z_plus, inject_Z_opp, <- pow2_shift_Z by lia.
      rewrite pow2_sub. field. pose proof (pow2_pos ky). lra. }
    split; [|exact Eq].
    assert (L : (0 <= mx * 2 ^ (kx - ky) - my)%Z).
    { apply (Zle_of_scaled _ _ ky). rewrite <- Eq.
      change (inject_Z 0) with 0. lra. }
    assert (U : (mx * 2 ^ (kx - ky) - my <= my)%Z).
    { apply (Zle_of_scaled _ _ ky). rewrite <- Eq, <- Ey. lra. }
    lia.
Qed.

(** ** One window *)

Section OneWindow.

Variables (cpd d : Q) (i : Z).

Lemma windowAt_start : start (windowAt cpd d i) = inject_Z i * cpd.
Proof. reflexivity. Qed.

(** A window whose nominal end does not pass [d] is left unclamped. *)
Lemma windowAt_inner :
  inject_Z (i + 1) * cpd <= d ->
  actualDuration (windowAt cpd d i) == cpd
  /\ windowEnd (windowAt cpd d i) == inject_Z (i + 1) * cpd.
Proof.
  intro H. unfold windowEnd, windowAt; simpl.
  apply ltb_false_iff in H. rewrite H.
  rewrite inject_Z_succ. split; ring.
Qed.

(** A window whose nominal end reaches [d] ends exactly at [d]. *)
Lemma windowAt_clamped :
  d <= inject_Z (i + 1) * cpd -> windowEnd (windowAt cpd d i) == d.
Proof.
  intro H. unfold windowEnd, windowAt; simpl.
  destruct (JS.ltb d (inject_Z (i + 1) * cpd)) eqn:E.
  - ring.
  - apply ltb_false_iff in E.
    assert (E' : inject_Z (i + 1) * cpd == d) by (apply Qle_antisym; assumption).
    rewrite <- E'. ring.
Qed.

Lemma windowAt_end_le :
  windowEnd (windowAt cpd d i) <= inject_Z (i + 1) * cpd.
Proof.
  unfold windowEnd, windowAt; simpl.
  destruct (JS.ltb d (inject_Z (i + 1) * cpd)) eqn:E.
  - apply ltb_true_iff in E.
    setoid_replace (inject_Z i * cpd + (d - inject_Z i * cpd)) with d by ring.
    apply Qlt_le_weak; assumption.
  - setoid_replace (inject_Z i * cpd
                      + (inject_Z (i + 1) * cpd - inject_Z i * cpd))
      with (inject_Z (i + 1) * cpd) by ring.
    apply Qle_refl.
Qed.

(** The loop keeps a window exactly when it starts before [d]. *)
Lemma windowAt_kept :
  0 < cpd -> inject_Z i * cpd < d ->
  JS.leb (actualDuration (windowAt cpd d i)) 0 = false.
Proof.
  intros Hc Hs. apply leb_false_iff. unfold windowAt; simpl.
  destruct (JS.ltb d (inject_Z (i + 1) * cpd)) eqn:E.
  - lra.
  - rewrite inject_Z_succ. lra.
Qed.

Lemma windowAt_positive :
  0 < cpd -> inject_Z i * cpd < d ->
  0 < actualDuration (windowAt cpd d i).
Proof.
  intros Hc Hs. apply leb_false_iff. apply windowAt_kept; assumption.
Qed.

End OneWindow.

(** ** The loop counter *)

Lemma Zseq_length (n : nat) : forall i, List.length (Zseq i n) = n.
Proof. induction n; intro i; simpl; [reflexivity | now rewrite IHn]. Qed.

Lemma Zseq_nth_error (n : nat) :
  forall i k, (k < n)%nat -> nth_error (Zseq i n) k = Some (i + Z.of_nat k)%Z.
Proof.
  induction n; intros i k Hk; [lia|].
  destruct k as [|k]; simpl.
  - f_equal. lia.
  - rewrite IHn by lia. f_equal. lia.
Qed.

Lemma Zseq_snoc (n : nat) :
  forall i, Zseq i (S n) = (Zseq i n ++ [(i + Z.of_nat n)%Z])%list.
Proof.
  induction n; intro i.
  - simpl. f_equal. lia.
  - change (Zseq i (S (S n))) with (i :: Zseq (i + 1) (S n)).
    rewrite IHn. simpl. do 3 f_equal. lia.
Qed.

(** ** The planning loop when no window is dropped *)

Section Loop.

Variables (cpd d : Q).
Hypothesis cpd_pos : 0 < cpd.

Lemma start_mono (a b : Z) :
  (a <= b)%Z -> inject_Z a * cpd <= inject_Z b * cpd.
Proof.
  intro H. apply Qmult_le_compat_r.
  - rewrite <- Zle_Qle. assumption.
  - apply Qlt_le_weak, cpd_pos.
Qed.

(** If the last iteration still starts before [d], the [break] never
    fires and the loop yields one window per counter value. *)
Lemma planLoop_no_break (fuel : nat) :
  forall i,
    inject_Z (i + Z.of_nat fuel - 1) * cpd < d ->
    planLoop fuel i cpd d = map (windowAt cpd d) (Zseq i fuel).
Proof.
  induction fuel as [|fuel IH]; intros i Hlast; [reflexivity|].
  cbn [planLoop Zseq map].
  rewrite windowAt_kept.
  - f_equal. apply IH.
    replace (i + 1 + Z.of_nat fuel - 1)%Z
      with (i + Z.of_nat (S fuel) - 1)%Z by lia.
    assumption.
  - assumption.
  - eapply Qle_lt_trans; [|exact Hlast].
    apply start_mono. lia.
Qed.

Lemma windows_nth_error (fuel : nat) (i : Z) (k : nat) (w : Window) :
  nth_error (map (windowAt cpd d) (Zseq i fuel)) k = Some w ->
  (k < fuel)%nat /\ w = windowAt cpd d (i + Z.of_nat k).
Proof.
  intro H.
  assert (Hk : (k < fuel)%nat).
  { rewrite <- (Zseq_length fuel i), <- (length_map (windowAt cpd d)).
    apply nth_error_Some. congruence. }
  split; [assumption|].
  rewrite nth_error_map, (Zseq_nth_error fuel i k Hk) in H.
  simpl in H. congruence.
Qed.

End Loop.

(** ** From the split mode to a covering *)

Lemma covers_parts (n : Z) (d : Q) :
  (1 <= n)%Z -> 0 < d -> covers n (d / inject_Z n) d.
Proof.
  intros Hn Hd.
  pose proof (div_mul_cancel d n Hn) as Hmul.
  pose proof (div_pos d n Hn Hd) as Hpos.
  repeat split; try assumption.
  - replace (n - 1)%Z with (n + -1)%Z by lia.
    rewrite inject_Z_plus. change (inject_Z (-1)) with (-1 # 1).
    setoid_replace ((inject_Z n + (-1 # 1)) * (d / inject_Z n))
      with (inject_Z n * (d / inject_Z n) - d / inject_Z n) by ring.
    rewrite Hmul. lra.
  - rewrite Hmul. apply Qle_refl.
Qed.

Lemma ceil_pos (x : Q) : 0 < x -> (1 <= Qceiling x)%Z.
Proof.
  intro Hx.
  assert (H : 0 < inject_Z (Qceiling x)).
  { eapply Qlt_le_trans; [exact Hx | apply Qle_ceiling]. }
  change 0 with (inject_Z 0) in H. rewrite <- Zlt_Qlt in H. lia.
Qed.

Lemma covers_time (t d : Q) :
  0 < t -> 0 < d ->
  let c := JS.Math_ceil (d / t) in
  covers (if (c <? 1)%Z then 1%Z else c) t d.
Proof.
  intros Ht Hd c.
  assert (Hq : 0 < d / t).
  { apply Qlt_shift_div_l; [assumption | rewrite Qmult_0_l; assumption]. }
  assert (Hdt : d / t * t == d).
  { field. intro E. rewrite E in Ht. apply (Qlt_irrefl 0 Ht). }
  pose proof (ceil_pos _ Hq) as Hc. fold (JS.Math_ceil (d / t)) in Hc. fold c in Hc.
  destruct (Z.ltb_spec c 1) as [Hlt|_]; [lia|].
  repeat split; try assumption.
  - pose proof (Qceiling_lt (d / t)) as Hlt. fold (JS.Math_ceil (d / t)) in Hlt.
    fold c in Hlt.
    rewrite <- Hdt. apply Qmult_lt_compat_r; assumption.
  - pose proof (Qle_ceiling (d / t)) as Hle. fold (JS.Math_ceil (d / t)) in Hle.
    fold c in Hle.
    rewrite <- Hdt at 1. apply Qmult_le_compat_r; [assumption|].
    apply Qlt_le_weak; assumption.
Qed.

Lemma floor_one (c : Z) : (1 <= (if (c <? 1)%Z then 1 else c))%Z.
Proof. destruct (Z.ltb_spec c 1); lia. Qed.

Lemma planParams_covers (cfg : Settings) (fileSize : Z) (d : Q) :
  validSpec cfg -> 0 < d ->
  covers (fst (planParams cfg fileSize d)) (snd (planParams cfg fileSize d)) d.
Proof.
  unfold validSpec, planParams. intros Hv Hd.
  destruct (splitMode cfg); cbn [fst snd].
  - apply covers_parts; [lia | assumption].
  - apply covers_parts; [apply floor_one | assumption].
  - apply covers_time; [lra | assumption].
Qed.

(** Under a covering the loop returns every window. *)
Lemma planLoop_covers (n : Z) (cpd d : Q) :
  covers n cpd d ->
  planLoop (Z.to_nat n) 0 cpd d = map (windowAt cpd d) (Zseq 0 (Z.to_nat n)).
Proof.
  intros (Hn & Hc & Hlast & _).
  apply planLoop_no_break; [assumption|].
  replace (0 + Z.of_nat (Z.to_nat n) - 1)%Z with (n - 1)%Z by lia.
  assumption.
Qed.

Lemma plan_unfold (cfg : Settings) (fileSize : Z) (d : Q) :
  plan cfg fileSize d
  = planLoop (Z.to_nat (fst (planParams cfg fileSize d))) 0
      (snd (planParams cfg fileSize d)) d.
Proof. unfold plan. destruct (planParams cfg fileSize d); reflexivity. Qed.

Lemma plan_covers (cfg : Settings) (fileSize : Z) (d : Q) :
  validSpec cfg -> 0 < d ->
  plan cfg fileSize d
  = map (windowAt (snd (planParams cfg fileSize d)) d)
      (Zseq 0 (Z.to_nat (fst (planParams cfg fileSize d)))).
Proof.
  intros Hv Hd. rewrite plan_unfold.
  apply planLoop_covers, planParams_covers; assumption.
Qed.

(** ** Equal parts *)

Lemma last_nonempty {A : Type} (l : list A) :
  forall a d1 d2, last (a :: l) d1 = last (a :: l) d2.
Proof.
  induction l as [|b l IH]; intros a d1 d2; [reflexivity|].
  change (last (b :: l) d1 = last (b :: l) d2). apply IH.
Qed.

Lemma sum_contiguous (ws : list Window) :
  forall w, contiguous (w :: ws) ->
    sumDurations (w :: ws) == windowEnd (last (w :: ws) w) - start w.
Proof.
  induction ws as [|w' ws IH]; intros w Hc.
  - unfold sumDurations, windowEnd; simpl. ring.
  - destruct Hc as [Hjoin Hc].
    specialize (IH w' Hc).
    change (sumDurations (w :: w' :: ws))
      with (actualDuration w + sumDurations (w' :: ws)).
    rewrite IH.
    change (last (w :: w' :: ws) w) with (last (w' :: ws) w).
    rewrite (last_nonempty ws w' w w').
    unfold windowEnd in Hjoin |- *.
    lra.
Qed.

(** Every window of a covering, by position. *)
Lemma covering_windows (n : Z) (cpd d : Q) :
  covers n cpd d ->
  forall (k : nat) (w : Window),
    nth_error (map (windowAt cpd d) (Zseq 0 (Z.to_nat n))) k = Some w ->
    index w = Z.of_nat k
    /\ start w == inject_Z (Z.of_nat k) * cpd
    /\ 0 < actualDuration w
    /\ ((Z.of_nat k < n - 1)%Z -> actualDuration w == cpd)
    /\ (Z.of_nat k = (n - 1)%Z ->
        actualDuration w == d - inject_Z (n - 1) * cpd
        /\ actualDuration w <= cpd).
Proof.
  intros (Hn & Hc & Hlast & Hend) k w Hk.
  apply windows_nth_error in Hk. destruct Hk as [Hk ->].
  rewrite Z.add_0_l.
  assert (Hstart : inject_Z (Z.of_nat k) * cpd < d).
  { eapply Qle_lt_trans; [|exact Hlast]. apply start_mono; [assumption | lia]. }
  split; [reflexivity|]. split; [reflexivity|].
  split; [apply windowAt_positive; assumption|].
  split.
  - intro Hin. apply windowAt_inner.
    eapply Qle_trans; [|apply Qlt_le_weak; exact Hlast].
    apply start_mono; [assumption | lia].
  - intro Hk'.
    assert (He : windowEnd (windowAt cpd d (Z.of_nat k)) == d).
    { apply windowAt_clamped. replace (Z.of_nat k + 1)%Z with n by lia.
      assumption. }
    unfold windowEnd in He. rewrite windowAt_start in He. rewrite Hk' in He.
    rewrite Hk'.
    assert (Hn1 : inject_Z n == inject_Z (n - 1) + 1).
    { rewrite <- inject_Z_succ. replace (n - 1 + 1)%Z with n by lia. reflexivity. }
    rewrite Hn1 in Hend.
    split; lra.
Qed.

Lemma covering_length (n : Z) (cpd d : Q) :
  List.length (map (windowAt cpd d) (Zseq 0 (Z.to_nat n))) = Z.to_nat n.
Proof. rewrite length_map. apply Zseq_length. Qed.

Lemma planParams_parts (cfg : Settings) (fileSize : Z) (d : Q) :
  splitMode cfg = ModeParts ->
  planParams cfg fileSize d = (parts cfg, d / inject_Z (parts cfg)).
Proof. unfold planParams. intros ->. reflexivity. Qed.

Lemma planParams_time (cfg : Settings) (fileSize : Z) (d : Q) :
  splitMode cfg = ModeTime ->
  planParams cfg fileSize d
  = (Z.max 1 (JS.Math_ceil (d / splitTime cfg)), splitTime cfg).
Proof.
  unfold planParams. intros ->. f_equal.
  destruct (Z.ltb_spec (JS.Math_ceil (d / splitTime cfg)) 1); lia.
Qed.

Lemma planParams_size (cfg : Settings) (fileSize : Z) (d : Q) :
  splitMode cfg = ModeSize ->
  let n := Z.max 1 (JS.Math_ceil
                      (inject_Z fileSize / inject_Z (1024 * 1024) / splitSize cfg)) in
  planParams cfg fileSize d = (n, d / inject_Z n).
Proof.
  intros Hm n. subst n. unfold planParams. rewrite Hm.
  destruct (Z.ltb_spec
              (JS.Math_ceil
                 (inject_Z fileSize / inject_Z (1024 * 1024) / splitSize cfg)) 1).
  - rewrite Z.max_l by lia. reflexivity.
  - rewrite Z.max_r by lia. reflexivity.
Qed.

(** ** Fixed-length parts *)

Lemma time_plan_general (cfg : Settings) (fileSize : Z) (targetSeconds totalDuration : Q) :
  isByTime cfg targetSeconds -> 10 <= targetSeconds -> 0 < totalDuration ->
  let ws := plan cfg fileSize totalDuration in
  let n := Z.max 1 (JS.Math_ceil (totalDuration / targetSeconds)) in
  List.length ws = Z.to_nat n
  /\ (forall (i : nat) (w : Window),
         nth_error ws i = Some w ->
         start w == inject_Z (Z.of_nat i) * targetSeconds
         /\ ((Z.of_nat i < n - 1)%Z -> actualDuration w == targetSeconds)
         /\ (Z.of_nat i = (n - 1)%Z ->
             actualDuration w == totalDuration - inject_Z (n - 1) * targetSeconds
             /\ 0 < actualDuration w /\ actualDuration w <= targetSeconds)).
Proof.
  intros [Hmode Ht] Hge Hd ws n.
  assert (Hv : validSpec cfg) by (unfold validSpec; rewrite Hmode, Ht; assumption).
  pose proof (planParams_covers cfg fileSize totalDuration Hv Hd) as Hcov.
  assert (Hws : ws = map (windowAt targetSeconds totalDuration)
                       (Zseq 0 (Z.to_nat n))).
  { subst ws n. rewrite plan_covers by assumption.
    rewrite planParams_time by assumption. rewrite Ht. reflexivity. }
  rewrite planParams_time in Hcov by assumption. rewrite Ht in Hcov.
  cbn [fst snd] in Hcov. fold n in Hcov.
  split; [rewrite Hws; apply covering_length|].
  intros i w Hi. rewrite Hws in Hi.
  destruct (covering_windows _ _ _ Hcov i w Hi) as (_ & Hi2 & Hi3 & Hi4 & Hi5).
  repeat split; try assumption; apply Hi5; assumption.
Qed.

(** C3: in time mode with [targetSeconds >= 10] and a positive total
    duration the plan has exactly [max 1 (ceil (totalDuration /
    targetSeconds))] windows; window [i] starts at [i * targetSeconds];
    every window but the last lasts [targetSeconds] and the last one lasts
    the remaining time. For 95 s cut every 30 s the windows are
    [0,30], [30,30], [60,30], [90,5]. *)
Theorem time_plan :
  (forall (cfg : Settings) (fileSize : Z) (targetSeconds totalDuration : Q),
      isByTime cfg targetSeconds -> 10 <= targetSeconds -> 0 < totalDuration ->
      let ws := plan cfg fileSize totalDuration in
      let n := Z.max 1 (JS.Math_ceil (totalDuration / targetSeconds)) in
      List.length ws = Z.to_nat n
      /\ (forall (i : nat) (w : Window),
             nth_error ws i = Some w ->
             start w == inject_Z (Z.of_nat i) * targetSeconds
             /\ ((Z.of_nat i < n - 1)%Z -> actualDuration w == targetSeconds)
             /\ (Z.of_nat i = (n - 1)%Z ->
                 actualDuration w
                   == totalDuration - inject_Z (n - 1) * targetSeconds
                 /\ 0 < actualDuration w /\ actualDuration w <= targetSeconds)))
  /\ (forall (cfg : Settings) (fileSize : Z),
         isByTime cfg 30 ->
         spans (plan cfg fileSize 95) = [(0, 30); (30, 30); (60, 30); (90, 5)]).
Proof.
  split.
  - exact time_plan_general.
  - intros cfg fileSize [Hmode Ht].
    rewrite plan_unfold, planParams_time by assumption.
    rewrite Ht. reflexivity.
Qed.

Lemma time_plan_witness :
  let cfg := mkSettings ModeTime 2 10 30 Fast in
  (List.length (plan cfg 0 95) = 4%nat
   /\ forall (i : nat) (w : Window),
       nth_error (plan cfg 0 95) i = Some w ->
       start w == inject_Z (Z.of_nat i) * 30
       /\ ((Z.of_nat i < 4 - 1)%Z -> actualDuration w == 30)
       /\ (Z.of_nat i = (4 - 1)%Z ->
           actualDuration w == 95 - inject_Z (4 - 1) * 30
           /\ 0 < actualDuration w /\ actualDuration w <= 30))
  /\ spans (plan cfg 0 95) = [(0, 30); (30, 30); (60, 30); (90, 5)].
Proof.
  intro cfg. split.
  - apply (proj1 time_plan cfg 0%Z 30 95).
    + split; reflexivity.
    + discriminate.
    + reflexivity.
  - apply (proj2 time_plan cfg 0%Z). split; reflexivity.
Defined.

(** ** Parts derived from a size target *)



(** ** Runs *)

Lemma extend_nil (w : World) : extend w [] = w.
Proof. destruct w; unfold extend; simpl. now rewrite app_nil_r. Qed.

Lemma extend_extend (w : World) (a b : list Event) :
  extend (extend w a) b = extend w (a ++ b).
Proof.
  unfold extend, replay; simpl. now rewrite fold_left_app, app_assoc.
Qed.

Lemma effect_extend (e : Event) (w : World) :
  effect e w = (Returned tt, extend w [e]).
Proof. reflexivity. Qed.

Lemma bind_extend {A B} (m : M A) (k : A -> M B) (w : World)
    (a : A) (l : list Event) :
  m w = (Returned a, extend w l) -> bind m k w = k a (extend w l).
Proof. unfold bind. intros ->. reflexivity. Qed.

Lemma dispatch_extend (es : list EngineEvent) :
  forall w, dispatch es w = (Returned tt, extend w (callbackEvents es)).
Proof.
  induction es as [|e es IH]; intro w.
  - simpl. now rewrite extend_nil.
  - cbn [dispatch callbackEvents flat_map].
    fold (callbackEvents es).
    assert (He : exists l,
               onEngineEvent e w = (Returned tt, extend w l)
               /\ l = match e with
                      | OnLog message =>
                          if JS.includes "error" message
                          then [SetStatus (StEngineError (JS.slice0 20 message))]
                          else []
                      | OnProgress ratio =>
                          [SetProgress (callbackPercent ratio)]
                      end).
    { destruct e as [message|ratio]; cbn [onEngineEvent].
      - destruct (JS.includes "error" message).
        + eexists; split; [|reflexivity]. reflexivity.
        + exists []. split; [|reflexivity].
          unfold ret. now rewrite extend_nil.
      - eexists; split; [|reflexivity]. reflexivity. }
    destruct He as (l & Hrun & Hl).
    rewrite (bind_extend _ _ _ _ _ Hrun), IH, extend_extend, <- Hl.
    reflexivity.
Qed.

Lemma exec_extend (env : Env) (args : list Arg) (w : World) :
  ffmpeg_exec env args w
  = ((if snd (exec env args) then Returned tt else Thrown),
     extend w (Exec args :: callbackEvents (fst (exec env args)))).
Proof.
  unfold ffmpeg_exec.
  rewrite (bind_extend _ _ _ _ _ (effect_extend _ _)).
  rewrite (bind_extend _ _ _ _ _ (dispatch_extend _ _)).
  rewrite extend_extend. simpl.
  destruct (snd (exec env args)); reflexivity.
Qed.

Lemma readFile_extend (env : Env) (path : string) (w : World) :
  ffmpeg_readFile env path w
  = (match readFile env path with Some data => Returned data | None => Thrown end,
     extend w [ReadFile path]).
Proof.
  unfold ffmpeg_readFile.
  rewrite (bind_extend _ _ _ _ _ (effect_extend _ _)).
  destruct (readFile env path); reflexivity.
Qed.

(** The loop body of either revision: status, command, output. *)
Lemma body_extend (env : Env) (file : File) (st : Status) (cmd : list Arg)
    (out : string) (outputs : list Artifact) (wd : World) :
  (setStatus st ;;
   ffmpeg_exec env cmd ;;
   data <- ffmpeg_readFile env out ;;
   ret (outputs ++ [mkArtifact out (mkBlob data (type file))])) wd
  = (match (if snd (exec env cmd)
            then match readFile env out with
                 | Some data => Some (mkArtifact out (mkBlob data (type file)))
                 | None => None
                 end
            else None) with
     | Some a => Returned (outputs ++ [a])
     | None => Thrown
     end,
     extend wd ([SetStatus st; Exec cmd]
                  ++ callbackEvents (fst (exec env cmd))
                  ++ (if snd (exec env cmd) then [ReadFile out] else []))).
Proof.
  unfold setStatus.
  rewrite (bind_extend _ _ _ _ _ (effect_extend _ _)).
  unfold bind. rewrite exec_extend, extend_extend.
  destruct (snd (exec env cmd)).
  - rewrite readFile_extend, extend_extend.
    destruct (readFile env out); reflexivity.
  - cbn [List.app]. rewrite app_nil_r. reflexivity.
Qed.

(** The frame around the loop, shared by both revisions: the resets, the
    upload of the input, and the [try/catch/finally]. *)
Lemma frame_extend (env : Env) (file : File) (loop : M (list Artifact))
    (result : option (list Artifact)) (trace : list Event) (s0 : AppState) :
  (forall wd,
      loop wd = (match result with Some o => Returned o | None => Thrown end,
                 extend wd trace)) ->
  (setProcessing true ;;
   setError "" ;;
   setResultFiles [] ;;
   tryCatchFinally
     (setStatus StReading ;;
      ffmpeg_writeFile env "input" file ;;
      setStatus StAnalyzing ;;
      outputs <- loop ;;
      setResultFiles outputs ;;
      setStatus StDone ;;
      setProgress 100)
     (setError errorMessage)
     (setProcessing false)) (mkWorld s0 [])
  = (Returned tt,
     extend (mkWorld s0 [])
       ([SetProcessing true; SetError ""; SetResultFiles [];
         SetStatus StReading; WriteFile "input"]
          ++ (if writeFile env "input" file
              then [SetStatus StAnalyzing]
                     ++ trace
                     ++ match result with
                        | Some outputs =>
                            [SetResultFiles outputs; SetStatus StDone;
                             SetProgress 100]
                        | None => [SetError errorMessage]
                        end
              else [SetError errorMessage])
          ++ [SetProcessing false])).
Proof.
  intro Hloop.
  unfold setProcessing, setError, setResultFiles, setStatus, setProgress.
  set (w0 := mkWorld s0 []).
  rewrite (bind_extend _ _ _ _ _ (effect_extend _ _)).
  rewrite (bind_extend _ _ _ _ _ (effect_extend _ _)), extend_extend.
  rewrite (bind_extend _ _ _ _ _ (effect_extend _ _)), extend_extend.
  unfold tryCatchFinally.
  rewrite (bind_extend _ _ _ _ _ (effect_extend _ _)), extend_extend.
  unfold ffmpeg_writeFile.
  unfold bind at 1.
  rewrite (bind_extend _ _ _ _ _ (effect_extend _ _)), extend_extend.
  destruct (writeFile env "input" file).
  - unfold ret at 1.
    rewrite (bind_extend _ _ _ _ _ (effect_extend _ _)), extend_extend.
    unfold bind at 1. rewrite Hloop, extend_extend.
    destruct result as [outputs|].
    + rewrite (bind_extend _ _ _ _ _ (effect_extend _ _)), extend_extend.
      rewrite (bind_extend _ _ _ _ _ (effect_extend _ _)), extend_extend.
      rewrite !effect_extend, !extend_extend.
      cbn [List.app]. rewrite <- !app_assoc. reflexivity.
    + rewrite !effect_extend, !extend_extend.
      cbn [List.app]. rewrite <- !app_assoc. reflexivity.
  - unfold throw at 1.
    rewrite !effect_extend, !extend_extend. reflexivity.
Qed.

Section RunLoop.

Variable env : Env.
Variable cfg : Settings.
Variable file : File.
Variable currentParts : Z.

Let baseName := baseNameOf (name file).
Let fileExt := fileExtOf (name file).
Let commandFor := commandOf cfg file.
Let statusFor := statusOf currentParts.

Lemma processWindow_extend (w : Window) (outputs : list Artifact) (wd : World) :
  processWindow env cfg file baseName fileExt currentParts w outputs wd
  = (match windowResult env file commandFor w with
     | Some a => Returned (outputs ++ [a])
     | None => Thrown
     end,
     extend wd (windowTrace env file commandFor statusFor w)).
Proof. apply body_extend. Qed.

Lemma processWindows_extend (ws : list Window) :
  forall (outputs : list Artifact) (wd : World),
    processWindows env cfg file baseName fileExt currentParts ws outputs wd
    = (match loopResult env file commandFor ws outputs with
       | Some o => Returned o
       | None => Thrown
       end,
       extend wd (loopTrace env file commandFor statusFor ws)).
Proof.
  induction ws as [|w ws IH]; intros outputs wd.
  - simpl. unfold ret. now rewrite extend_nil.
  - cbn [processWindows loopResult loopTrace].
    unfold bind. rewrite processWindow_extend.
    destruct (windowResult env file commandFor w) as [a|].
    + rewrite IH, extend_extend. reflexivity.
    + now rewrite app_nil_r.
Qed.

(** The loop of [splitMedia] is its body run over the planned windows. *)
Lemma splitLoop_plan (duration currentPartDuration : Q) (fuel : nat) :
  forall (i : Z) (outputs : list Artifact) (wd : World),
    splitLoop env cfg file baseName fileExt duration currentParts
      currentPartDuration fuel i outputs wd
    = processWindows env cfg file baseName fileExt currentParts
        (planLoop fuel i currentPartDuration duration) outputs wd.
Proof.
  induction fuel as [|fuel IH]; intros i outputs wd; [reflexivity|].
  cbn [splitLoop planLoop].
  destruct (JS.leb (actualDuration (windowAt currentPartDuration duration i)) 0);
    [reflexivity|].
  cbn [processWindows]. unfold bind.
  destruct (processWindow env cfg file baseName fileExt currentParts
              (windowAt currentPartDuration duration i) outputs wd)
    as [[outputs'|] wd']; [apply IH | reflexivity].
Qed.

End RunLoop.

(** A run of [splitMedia] appends exactly [mediaTrace] to the log, and
    its promise always resolves. *)
Lemma run_trace (env : Env) (cfg : Settings) (file : File) (s0 : AppState) :
  run env cfg (Some file) s0
  = (Returned tt, extend (mkWorld s0 []) (mediaTrace env cfg file)).
Proof.
  unfold run, splitMedia, mediaTrace, runTrace.
  rewrite plan_unfold.
  destruct (planParams cfg (size file) (getDuration env file))
    as [currentParts currentPartDuration].
  cbn [fst snd].
  apply frame_extend. intro wd.
  rewrite splitLoop_plan. apply processWindows_extend.
Qed.

(** The same for the parts-only revision. *)
Lemma partsOnly_processWindow_extend (env : Env) (parts : Z) (file : File)
    (w : Window) (outputs : list Artifact) (wd : World) :
  PartsOnly.processWindow env parts file (baseNameOf (name file))
    (fileExtOf (name file)) w outputs wd
  = (match windowResult env file (partsOnlyCommandOf file) w with
     | Some a => Returned (outputs ++ [a])
     | None => Thrown
     end,
     extend wd (windowTrace env file (partsOnlyCommandOf file)
                  (partsOnlyStatusOf parts) w)).
Proof. apply body_extend. Qed.

Lemma partsOnly_loop_extend (env : Env) (parts : Z) (file : File) (pd : Q)
    (fuel : nat) :
  forall (i : Z) (outputs : list Artifact) (wd : World),
    PartsOnly.splitLoop env parts file (baseNameOf (name file))
      (fileExtOf (name file)) pd fuel i outputs wd
    = (match loopResult env file (partsOnlyCommandOf file)
               (PartsOnly.planLoop fuel i pd) outputs with
       | Some o => Returned o
       | None => Thrown
       end,
       extend wd (loopTrace env file (partsOnlyCommandOf file)
                    (partsOnlyStatusOf parts) (PartsOnly.planLoop fuel i pd))).
Proof.
  induction fuel as [|fuel IH]; intros i outputs wd.
  - simpl. unfold ret. now rewrite extend_nil.
  - cbn [PartsOnly.splitLoop PartsOnly.planLoop loopResult loopTrace].
    unfold bind at 1. rewrite partsOnly_processWindow_extend.
    destruct (windowResult env file (partsOnlyCommandOf file)
                (PartsOnly.windowAt pd i)) as [a|].
    + rewrite IH, extend_extend. reflexivity.
    + now rewrite app_nil_r.
Qed.

Lemma partsOnly_run_trace (env : Env) (parts : Z) (file : File) (s0 : AppState) :
  PartsOnly.run env parts (Some file) s0
  = (Returned tt, extend (mkWorld s0 []) (partsOnlyTrace env parts file)).
Proof.
  unfold PartsOnly.run, PartsOnly.splitMedia, partsOnlyTrace, runTrace,
    PartsOnly.plan.
  apply frame_extend. intro wd. apply partsOnly_loop_extend.
Qed.

(** ** What a run logs *)

Lemma runLog_trace (env : Env) (cfg : Settings) (file : File) (s0 : AppState) :
  runLog env cfg (Some file) s0 = mediaTrace env cfg file.
Proof. unfold runLog. rewrite run_trace. reflexivity. Qed.

Lemma finalState_trace (env : Env) (cfg : Settings) (file : File) (s0 : AppState) :
  finalState env cfg (Some file) s0 = replay (mediaTrace env cfg file) s0.
Proof. unfold finalState. rewrite run_trace. reflexivity. Qed.

Lemma replay_app (a b : list Event) (s : AppState) :
  replay (a ++ b) s = replay b (replay a s).
Proof. apply fold_left_app. Qed.

Lemma replay_quiet (l : list Event) :
  Forall quiet l ->
  forall s,
    processing (replay l s) = processing s
    /\ resultFiles (replay l s) = resultFiles s
    /\ error (replay l s) = error s.
Proof.
  induction 1 as [|e l He _ IH]; intro s; [repeat split|].
  change (replay (e :: l) s) with (replay l (applyEvent e s)).
  destruct (IH (applyEvent e s)) as (H1 & H2 & H3).
  rewrite H1, H2, H3.
  destruct e; simpl in He; try contradiction; repeat split.
Qed.

Lemma callbackEvents_quiet (es : list EngineEvent) :
  Forall quiet (callbackEvents es).
Proof.
  induction es as [|e es IH]; [constructor|].
  cbn [callbackEvents flat_map]. apply Forall_app. split; [|exact IH].
  destruct e as [message|ratio].
  - destruct (JS.includes "error" message); repeat constructor.
  - repeat constructor.
Qed.

Lemma execs_callbacks (es : list EngineEvent) : execs (callbackEvents es) = [].
Proof.
  induction es as [|e es IH]; [reflexivity|].
  cbn [callbackEvents flat_map]. unfold execs in *. rewrite flat_map_app.
  fold (callbackEvents es). rewrite IH, app_nil_r.
  destruct e as [message|ratio]; [destruct (JS.includes "error" message)|];
    reflexivity.
Qed.

Lemma errors_callbacks (es : list EngineEvent) :
  errorsRaised (callbackEvents es) = [].
Proof.
  induction es as [|e es IH]; [reflexivity|].
  cbn [callbackEvents flat_map]. unfold errorsRaised in *.
  rewrite flat_map_app.
  fold (callbackEvents es). rewrite IH, app_nil_r.
  destruct e as [message|ratio]; [destruct (JS.includes "error" message)|];
    reflexivity.
Qed.

Lemma statuses_callbacks (es : list EngineEvent) :
  splittingStatuses (callbackEvents es) = [].
Proof.
  induction es as [|e es IH]; [reflexivity|].
  cbn [callbackEvents flat_map]. unfold splittingStatuses in *.
  rewrite flat_map_app.
  fold (callbackEvents es). rewrite IH, app_nil_r.
  destruct e as [message|ratio]; [destruct (JS.includes "error" message)|];
    reflexivity.
Qed.

Section LoopFacts.

Variable env : Env.
Variable file : File.
Variable commandFor : Window -> list Arg.
Variable statusFor : Window -> Status.

(** Every window status is a "Splitting part" status. *)
Hypothesis statusFor_splitting :
  forall w l,
    splittingStatuses (SetStatus (statusFor w) :: l)
    = statusFor w :: splittingStatuses l.

Lemma windowTrace_quiet (w : Window) :
  Forall quiet (windowTrace env file commandFor statusFor w).
Proof.
  unfold windowTrace. repeat (apply Forall_app; split).
  - repeat constructor.
  - apply callbackEvents_quiet.
  - destruct (snd (exec env (commandFor w))); repeat constructor.
Qed.

Lemma loopTrace_quiet (ws : list Window) :
  Forall quiet (loopTrace env file commandFor statusFor ws).
Proof.
  induction ws as [|w ws IH]; [constructor|].
  cbn [loopTrace]. apply Forall_app. split; [apply windowTrace_quiet|].
  destruct (windowResult env file commandFor w); [exact IH | constructor].
Qed.

Lemma execs_window (w : Window) :
  execs (windowTrace env file commandFor statusFor w) = [commandFor w].
Proof.
  unfold windowTrace, execs. rewrite !flat_map_app.
  fold (execs (callbackEvents (fst (exec env (commandFor w))))).
  rewrite execs_callbacks.
  destruct (snd (exec env (commandFor w))); reflexivity.
Qed.

Lemma errors_window (w : Window) :
  errorsRaised (windowTrace env file commandFor statusFor w) = [].
Proof.
  unfold windowTrace, errorsRaised. rewrite !flat_map_app.
  fold (errorsRaised (callbackEvents (fst (exec env (commandFor w))))).
  rewrite errors_callbacks.
  destruct (snd (exec env (commandFor w))); reflexivity.
Qed.

Lemma statuses_window (w : Window) :
  splittingStatuses (windowTrace env file commandFor statusFor w)
  = [statusFor w].
Proof.
  unfold windowTrace. cbn [List.app]. rewrite statusFor_splitting.
  f_equal. unfold splittingStatuses. cbn [flat_map List.app].
  rewrite flat_map_app.
  fold (splittingStatuses (callbackEvents (fst (exec env (commandFor w))))).
  rewrite statuses_callbacks.
  destruct (snd (exec env (commandFor w))); reflexivity.
Qed.

Lemma execs_loop (ws : list Window) :
  execs (loopTrace env file commandFor statusFor ws)
  = map commandFor (enteredWindows env file commandFor ws).
Proof.
  induction ws as [|w ws IH]; [reflexivity|].
  cbn [loopTrace enteredWindows map]. unfold execs in *.
  rewrite flat_map_app.
  fold (execs (windowTrace env file commandFor statusFor w)).
  rewrite execs_window.
  destruct (windowResult env file commandFor w); [rewrite IH|]; reflexivity.
Qed.

Lemma errors_loop (ws : list Window) :
  errorsRaised (loopTrace env file commandFor statusFor ws) = [].
Proof.
  induction ws as [|w ws IH]; [reflexivity|].
  cbn [loopTrace]. unfold errorsRaised in *. rewrite flat_map_app.
  fold (errorsRaised (windowTrace env file commandFor statusFor w)).
  rewrite errors_window.
  destruct (windowResult env file commandFor w); [rewrite IH|]; reflexivity.
Qed.

Lemma statuses_loop (ws : list Window) :
  splittingStatuses (loopTrace env file commandFor statusFor ws)
  = map statusFor (enteredWindows env file commandFor ws).
Proof.
  induction ws as [|w ws IH]; [reflexivity|].
  cbn [loopTrace enteredWindows map]. unfold splittingStatuses in *.
  rewrite flat_map_app.
  fold (splittingStatuses (windowTrace env file commandFor statusFor w)).
  rewrite statuses_window.
  destruct (windowResult env file commandFor w); [rewrite IH|]; reflexivity.
Qed.

(** The engine verdict on one window. *)
Lemma windowResult_ok (w : Window) :
  engineDelivers env (commandFor w) (outputOf file w)
  <-> windowResult env file commandFor w <> None.
Proof.
  unfold engineDelivers, windowResult.
  destruct (snd (exec env _)); destruct (readFile env _);
    split; intro H; try congruence; try (split; congruence);
    destruct H; congruence.
Qed.

Lemma windowResult_fails (w : Window) :
  engineRejects env (commandFor w) (outputOf file w)
  <-> windowResult env file commandFor w = None.
Proof.
  unfold engineRejects, windowResult.
  destruct (snd (exec env _)); destruct (readFile env _);
    split; intro H; try congruence; try (now left); try (now right);
    destruct H; congruence.
Qed.

Lemma windowResult_name (w : Window) (a : Artifact) :
  windowResult env file commandFor w = Some a -> artName a = outputOf file w.
Proof.
  unfold windowResult.
  destruct (snd (exec env _)); [|discriminate].
  destruct (readFile env _); [|discriminate].
  intro H; injection H as <-. reflexivity.
Qed.

(** When every window is delivered the loop returns one artifact per
    window, in order. *)
Lemma loopResult_ok (ws : list Window) :
  (forall w, In w ws -> engineDelivers env (commandFor w) (outputOf file w)) ->
  forall outputs, exists arts,
    loopResult env file commandFor ws outputs = Some (outputs ++ arts)
    /\ map artName arts = map (outputOf file) ws
    /\ enteredWindows env file commandFor ws = ws.
Proof.
  induction ws as [|w ws IH]; intros Hok outputs.
  - exists []. rewrite app_nil_r. repeat split.
  - cbn [loopResult enteredWindows].
    assert (Hw : windowResult env file commandFor w <> None)
      by (apply windowResult_ok, Hok; now left).
    destruct (windowResult env file commandFor w) as [a|] eqn:Ea; [|congruence].
    destruct (IH (fun w' H => Hok w' (or_intror H)) (outputs ++ [a]))
      as (arts & Hres & Hnames & Hent).
    exists (a :: arts). rewrite Hres, <- app_assoc. cbn [map List.app].
    rewrite Hnames, Hent, (windowResult_name w a Ea). repeat split.
Qed.

Lemma loopResult_names (ws : list Window) :
  forall outputs outputs',
    loopResult env file commandFor ws outputs = Some outputs' ->
    map artName outputs' = map artName outputs ++ map (outputOf file) ws.
Proof.
  induction ws as [|w ws IH]; intros outputs outputs' H.
  - injection H as <-. now rewrite app_nil_r.
  - cbn [loopResult] in H.
    destruct (windowResult env file commandFor w) as [a|] eqn:Ea; [|discriminate].
    rewrite (IH _ _ H), map_app, <- app_assoc. cbn [map List.app].
    now rewrite (windowResult_name w a Ea).
Qed.

(** When the engine fails on window [k], the loop throws, having
    entered the windows up to the first failure and no other. *)
Lemma loopResult_fails (ws : list Window) :
  forall (k : nat) (w : Window) (outputs : list Artifact),
    nth_error ws k = Some w ->
    engineRejects env (commandFor w) (outputOf file w) ->
    loopResult env file commandFor ws outputs = None
    /\ exists j, (j <= k)%nat
                 /\ enteredWindows env file commandFor ws = firstn (S j) ws.
Proof.
  induction ws as [|w0 ws IH]; intros k w outputs Hk Hf.
  - destruct k; discriminate.
  - cbn [loopResult enteredWindows].
    destruct (windowResult env file commandFor w0) as [a|] eqn:Ea.
    + destruct k as [|k].
      * injection Hk as <-. apply windowResult_fails in Hf. congruence.
      * destruct (IH k w (outputs ++ [a]) Hk Hf) as (Hres & j & Hj & Hent).
        split; [assumption|]. exists (S j). split; [lia|].
        rewrite Hent. reflexivity.
    + split; [reflexivity|]. exists 0%nat. split; [lia|]. reflexivity.
Qed.

Lemma enteredWindows_prefix (ws : list Window) :
  exists m, (m <= List.length ws)%nat
            /\ enteredWindows env file commandFor ws = firstn m ws.
Proof.
  induction ws as [|w ws (m & Hm & IH)].
  - exists 0%nat. split; [apply Nat.le_refl | reflexivity].
  - cbn [enteredWindows].
    destruct (windowResult env file commandFor w).
    + exists (S m). split; [simpl; lia|]. now rewrite IH.
    + exists 1%nat. split; [simpl; lia|]. reflexivity.
Qed.

Lemma enteredWindows_incl (ws : list Window) (w : Window) :
  In w (enteredWindows env file commandFor ws) -> In w ws.
Proof.
  destruct (enteredWindows_prefix ws) as (m & _ & ->).
  revert m. induction ws as [|w0 ws IH]; intros m H.
  - destruct m; contradiction.
  - destruct m as [|m]; [contradiction|].
    destruct H as [H|H]; [now left | right; eauto].
Qed.

(** *** Projections of a whole run *)

Variable ws : list Window.

Lemma execs_run :
  execs (runTrace env file commandFor statusFor ws)
  = if writeFile env "input" file
    then map commandFor (enteredWindows env file commandFor ws)
    else [].
Proof.
  unfold runTrace, execs. rewrite !flat_map_app.
  destruct (writeFile env "input" file); [|reflexivity].
  rewrite !flat_map_app.
  fold (execs (loopTrace env file commandFor statusFor ws)).
  rewrite execs_loop.
  destruct (loopResult env file commandFor ws []); simpl;
    rewrite ?app_nil_r; reflexivity.
Qed.

Lemma errors_run :
  errorsRaised (runTrace env file commandFor statusFor ws)
  = if writeFile env "input" file
    then match loopResult env file commandFor ws [] with
         | Some _ => []
         | None => [errorMessage]
         end
    else [errorMessage].
Proof.
  unfold runTrace, errorsRaised. rewrite !flat_map_app.
  destruct (writeFile env "input" file); [|reflexivity].
  rewrite !flat_map_app.
  fold (errorsRaised (loopTrace env file commandFor statusFor ws)).
  rewrite errors_loop.
  destruct (loopResult env file commandFor ws []); reflexivity.
Qed.

Lemma statuses_run :
  splittingStatuses (runTrace env file commandFor statusFor ws)
  = if writeFile env "input" file
    then map statusFor (enteredWindows env file commandFor ws)
    else [].
Proof.
  unfold runTrace, splittingStatuses. rewrite !flat_map_app.
  destruct (writeFile env "input" file); [|reflexivity].
  rewrite !flat_map_app.
  fold (splittingStatuses (loopTrace env file commandFor statusFor ws)).
  rewrite statuses_loop.
  destruct (loopResult env file commandFor ws []); simpl;
    rewrite ?app_nil_r; reflexivity.
Qed.

(** A run in which the engine delivered everything. *)
Lemma replay_success (s0 : AppState) (outputs : list Artifact) :
  writeFile env "input" file = true ->
  loopResult env file commandFor ws [] = Some outputs ->
  replay (runTrace env file commandFor statusFor ws) s0
  = mkAppState false StDone 100 outputs "".
Proof.
  intros Hw Hres. unfold runTrace. rewrite Hw, Hres.
  rewrite !replay_app.
  set (s1 := replay _ s0).
  set (s2 := replay [SetStatus StAnalyzing] s1).
  destruct (replay_quiet _ (loopTrace_quiet ws) s2) as (_ & _ & He).
  set (s3 := replay (loopTrace env file commandFor statusFor ws) s2) in *.
  cbn [replay fold_left applyEvent processing status progress resultFiles error].
  rewrite He. reflexivity.
Qed.

(** A run that ended in the [catch] block. *)
Lemma replay_failure (s0 : AppState) :
  writeFile env "input" file = false
  \/ loopResult env file commandFor ws [] = None ->
  let final := replay (runTrace env file commandFor statusFor ws) s0 in
  processing final = false /\ resultFiles final = []
  /\ error final = errorMessage.
Proof.
  intros H final. subst final. unfold runTrace.
  destruct (writeFile env "input" file).
  - destruct H as [H|H]; [discriminate|]. rewrite H.
    rewrite !replay_app.
    set (s1 := replay _ s0).
    set (s2 := replay [SetStatus StAnalyzing] s1).
    destruct (replay_quiet _ (loopTrace_quiet ws) s2) as (_ & Hr & _).
    set (s3 := replay (loopTrace env file commandFor statusFor ws) s2) in *.
    cbn [replay fold_left applyEvent processing status progress resultFiles
           error].
    rewrite Hr. repeat split.
  - repeat split.
Qed.

(** The artifacts left in [resultFiles] are named after their windows. *)
Lemma replay_names (s0 : AppState) (i : nat) (a : Artifact) :
  nth_error (resultFiles (replay (runTrace env file commandFor statusFor ws) s0)) i
  = Some a ->
  exists w, nth_error ws i = Some w /\ artName a = outputOf file w.
Proof.
  intro H.
  destruct (writeFile env "input" file) eqn:Hw.
  - destruct (loopResult env file commandFor ws []) as [outputs|] eqn:Hres.
    + rewrite (replay_success s0 outputs Hw Hres) in H.
      cbn [resultFiles] in H.
      pose proof (loopResult_names ws [] outputs Hres) as Hn.
      cbn [map List.app] in Hn.
      apply (map_nth_error artName) in H. rewrite Hn in H.
      rewrite nth_error_map in H.
      destruct (nth_error ws i) as [w|] eqn:Ei; [|discriminate].
      injection H as <-. exists w. split; reflexivity.
    + destruct (replay_failure s0 (or_intror Hres)) as (_ & Hr & _).
      rewrite Hr in H. destruct i; discriminate.
  - destruct (replay_failure s0 (or_introl Hw)) as (_ & Hr & _).
    rewrite Hr in H. destruct i; discriminate.
Qed.

Lemma replay_count (s0 : AppState) :
  writeFile env "input" file = true ->
  (forall w, In w ws -> engineDelivers env (commandFor w) (outputOf file w)) ->
  List.length (resultFiles (replay (runTrace env file commandFor statusFor ws) s0))
  = List.length ws.
Proof.
  intros Hw Hok.
  destruct (loopResult_ok ws Hok []) as (arts & Hres & Hn & _).
  rewrite (replay_success s0 _ Hw Hres). cbn [resultFiles List.app].
  rewrite <- (length_map artName), Hn, length_map. reflexivity.
Qed.

End LoopFacts.

(** ** The two revisions as instances *)

Lemma statusOf_splitting (currentParts : Z) (w : Window) (l : list Event) :
  splittingStatuses (SetStatus (statusOf currentParts w) :: l)
  = statusOf currentParts w :: splittingStatuses l.
Proof. reflexivity. Qed.

Lemma partsOnlyStatusOf_splitting (parts : Z) (w : Window) (l : list Event) :
  splittingStatuses (SetStatus (partsOnlyStatusOf parts w) :: l)
  = partsOnlyStatusOf parts w :: splittingStatuses l.
Proof. reflexivity. Qed.

Section MediaFacts.

Variable env : Env.
Variable cfg : Settings.
Variable file : File.

Let ws := plan cfg (size file) (getDuration env file).
Let currentParts := fst (planParams cfg (size file) (getDuration env file)).

Lemma execs_media (s0 : AppState) :
  execs (runLog env cfg (Some file) s0)
  = if writeFile env "input" file
    then map (commandOf cfg file)
           (enteredWindows env file (commandOf cfg file) ws)
    else [].
Proof. rewrite runLog_trace. apply execs_run. Qed.

Lemma errors_media (s0 : AppState) :
  errorsRaised (runLog env cfg (Some file) s0)
  = if writeFile env "input" file
    then match loopResult env file (commandOf cfg file) ws [] with
         | Some _ => []
         | None => [errorMessage]
         end
    else [errorMessage].
Proof. rewrite runLog_trace. apply errors_run. Qed.

Lemma statuses_media (s0 : AppState) :
  splittingStatuses (runLog env cfg (Some file) s0)
  = if writeFile env "input" file
    then map (statusOf currentParts)
           (enteredWindows env file (commandOf cfg file) ws)
    else [].
Proof.
  rewrite runLog_trace. apply statuses_run. apply statusOf_splitting.
Qed.

Lemma final_success (s0 : AppState) (outputs : list Artifact) :
  writeFile env "input" file = true ->
  loopResult env file (commandOf cfg file) ws [] = Some outputs ->
  finalState env cfg (Some file) s0 = mkAppState false StDone 100 outputs "".
Proof. rewrite finalState_trace. apply replay_success. Qed.

Lemma final_failure (s0 : AppState) :
  writeFile env "input" file = false
  \/ loopResult env file (commandOf cfg file) ws [] = None ->
  processing (finalState env cfg (Some file) s0) = false
  /\ resultFiles (finalState env cfg (Some file) s0) = []
  /\ error (finalState env cfg (Some file) s0) = errorMessage.
Proof. rewrite finalState_trace. apply replay_failure. Qed.

(** When the engine delivers every window, the commands sent are those
    of the plan, in order. *)
Lemma run_follows_plan (s0 : AppState) :
  writeFile env "input" file = true ->
  (forall w, In w ws -> engineOK env cfg file w) ->
  execs (runLog env cfg (Some file) s0) = map (commandOf cfg file) ws.
Proof.
  intros Hw Hok. rewrite execs_media, Hw.
  destruct (loopResult_ok env file (commandOf cfg file) ws Hok [])
    as (_ & _ & _ & ->).
  reflexivity.
Qed.

End MediaFacts.

(** ** Zero duration *)

Lemma planLoop_zero (d : Q) :
  d == 0 -> forall fuel cpd, planLoop fuel 0 cpd d = [].
Proof.
  intros Hd fuel cpd. destruct fuel as [|fuel]; [reflexivity|].
  cbn [planLoop].
  assert (H : JS.leb (actualDuration (windowAt cpd d 0)) 0 = true).
  { apply leb_true_iff. unfold windowAt; cbn [actualDuration].
    change (inject_Z 0) with 0. change (inject_Z (0 + 1)) with 1.
    destruct (JS.ltb d (1 * cpd)) eqn:E.
    - lra.
    - apply ltb_false_iff in E. lra. }
  rewrite H. reflexivity.
Qed.

Lemma plan_zero (cfg : Settings) (fileSize : Z) (d : Q) :
  d == 0 -> plan cfg fileSize d = [].
Proof. intro Hd. rewrite plan_unfold. apply planLoop_zero; assumption. Qed.

(** C5 (as amended): when the probed duration is 0 the plan is empty and
    the run completes as a success: nothing is sent to the engine, no
    error is raised, and the component ends in "Done!" with progress 100
    and an empty result list. *)
Theorem zero_duration_completes_silently
    (env : Env) (cfg : Settings) (file : File) (s0 : AppState) :
  getDuration env file == 0 ->
  writeFile env "input" file = true ->
  plan cfg (size file) (getDuration env file) = []
  /\ execs (runLog env cfg (Some file) s0) = []
  /\ errorsRaised (runLog env cfg (Some file) s0) = []
  /\ ~ signalsError env cfg file s0
  /\ finalState env cfg (Some file) s0 = mkAppState false StDone 100 [] "".
Proof.
  intros Hd Hw.
  pose proof (plan_zero cfg (size file) _ Hd) as Hplan.
  assert (Herr : errorsRaised (runLog env cfg (Some file) s0) = []).
  { rewrite errors_media, Hw, Hplan. reflexivity. }
  split; [assumption|]. split; [|split; [|split]].
  - rewrite execs_media, Hw, Hplan. reflexivity.
  - assumption.
  - unfold signalsError. rewrite Herr. intro H; apply H; reflexivity.
  - apply final_success; [assumption|]. rewrite Hplan. reflexivity.
Qed.

Lemma zero_duration_completes_silently_witness :
  let env := mkEnv (fun _ _ => true) (fun _ => 0 # 7)
               (fun _ => ([OnProgress (1 # 2)], true)) (fun _ => Some []) in
  let cfg := mkSettings ModeTime 2 10 30 Fast in
  let file := mkFile "clip.mp4" 1048576 "video/mp4" in
  let s0 := mkAppState false StEmpty 0 [] "" in
  plan cfg (size file) (getDuration env file) = []
  /\ execs (runLog env cfg (Some file) s0) = []
  /\ errorsRaised (runLog env cfg (Some file) s0) = []
  /\ ~ signalsError env cfg file s0
  /\ finalState env cfg (Some file) s0 = mkAppState false StDone 100 [] "".
Proof.
  intros env cfg file s0.
  apply (zero_duration_completes_silently env cfg file s0).
  - reflexivity.
  - reflexivity.
Defined.

(** C5 (as stated) fails: with a zero duration the run of a two-part
    split plans no window and raises no error; it ends in "Done!". *)
Lemma zero_duration_signals_nothing :
  let env := mkEnv (fun _ _ => true) (fun _ => 0)
               (fun _ => ([], true)) (fun _ => Some []) in
  let cfg := mkSettings ModeParts 2 10 60 Compatible in
  let file := mkFile "clip.mp4" 1048576 "video/mp4" in
  let s0 := mkAppState false StEmpty 0 [] "" in
  getDuration env file == 0
  /\ plan cfg (size file) (getDuration env file) = []
  /\ ~ signalsError env cfg file s0
  /\ error (finalState env cfg (Some file) s0) = ""%string
  /\ status (finalState env cfg (Some file) s0) = StDone.
Proof.
  intros env cfg file s0.
  split; [reflexivity|]. split; [reflexivity|].
  split; [|split; reflexivity].
  unfold signalsError. intro H. apply H. reflexivity.
Qed.

(** ** Engine failure *)

(** C6: if the engine fails on some planned window [k], the run ends in
    the [catch] block: the result list is empty whatever was in it before
    and whatever the earlier windows produced, exactly one error message
    is raised, [processing] is reset, and the commands sent to the engine
    are a prefix of the planned commands of length at most [k + 1] (each
    window is tried at most once and nothing is sent after the failure). *)
Theorem engine_failure_aborts
    (env : Env) (cfg : Settings) (file : File) (s0 : AppState)
    (k : nat) (w : Window) :
  let ws := plan cfg (size file) (getDuration env file) in
  nth_error ws k = Some w ->
  engineFails env cfg file w ->
  resultFiles (finalState env cfg (Some file) s0) = []
  /\ error (finalState env cfg (Some file) s0) = errorMessage
  /\ processing (finalState env cfg (Some file) s0) = false
  /\ errorsRaised (runLog env cfg (Some file) s0) = [errorMessage]
  /\ exists j, (j <= S k)%nat
               /\ execs (runLog env cfg (Some file) s0)
                  = map (commandOf cfg file) (firstn j ws).
Proof.
  intros ws Hk Hf.
  destruct (loopResult_fails env file (commandOf cfg file) ws k w [] Hk Hf)
    as (Hres & j & Hj & Hent).
  destruct (final_failure env cfg file s0 (or_intror Hres)) as (Hp & Hr & He).
  repeat split; try assumption.
  - rewrite errors_media. fold ws. rewrite Hres.
    destruct (writeFile env "input" file); reflexivity.
  - rewrite execs_media. fold ws.
    destruct (writeFile env "input" file).
    + exists (S j). split; [lia|]. now rewrite Hent.
    + exists 0%nat. split; [lia|]. reflexivity.
Qed.

Lemma engine_failure_aborts_witness :
  let env := mkEnv (fun _ _ => true) (fun _ => 90)
               (fun _ => ([OnProgress 1], true))
               (fun path => if String.eqb path "2_clip_2.mp4"
                            then None else Some []) in
  let cfg := mkSettings ModeParts 3 10 60 Fast in
  let file := mkFile "clip.mp4" 3145728 "video/mp4" in
  let old := mkArtifact "1_old_1.mp4" (mkBlob [] "video/mp4") in
  let s0 := mkAppState false StDone 100 [old] "" in
  let ws := plan cfg (size file) (getDuration env file) in
  resultFiles (finalState env cfg (Some file) s0) = []
  /\ error (finalState env cfg (Some file) s0) = errorMessage
  /\ processing (finalState env cfg (Some file) s0) = false
  /\ errorsRaised (runLog env cfg (Some file) s0) = [errorMessage]
  /\ exists j, (j <= 2)%nat
               /\ execs (runLog env cfg (Some file) s0)
                  = map (commandOf cfg file) (firstn j ws).
Proof.
  intros env cfg file old s0 ws.
  apply (engine_failure_aborts env cfg file s0 1
           (windowAt (90 / inject_Z 3) 90 1)).
  - reflexivity.
  - right. reflexivity.
Defined.

(** ** Progress reports *)

(** Positions and indices agree in a plan. *)
Lemma planLoop_index (cpd d : Q) (fuel : nat) :
  forall (i0 : Z) (j : nat) (w : Window),
    nth_error (planLoop fuel i0 cpd d) j = Some w ->
    index w = (i0 + Z.of_nat j)%Z.
Proof.
  induction fuel as [|fuel IH]; intros i0 j w H.
  - destruct j; discriminate.
  - cbn [planLoop] in H.
    destruct (JS.leb (actualDuration (windowAt cpd d i0)) 0).
    + destruct j; discriminate.
    + destruct j as [|j].
      * injection H as <-. simpl. lia.
      * apply IH in H. rewrite H. lia.
Qed.

Lemma plan_index (cfg : Settings) (fileSize : Z) (d : Q) (j : nat) (w : Window) :
  nth_error (plan cfg fileSize d) j = Some w -> index w = Z.of_nat j.
Proof.
  rewrite plan_unfold. intro H. apply planLoop_index in H. lia.
Qed.

Lemma firstn_Zseq (n : nat) :
  forall m i, (m <= n)%nat -> firstn m (Zseq i n) = Zseq i m.
Proof.
  induction n as [|n IH]; intros m i Hm.
  - assert (m = 0%nat) by lia. subst. reflexivity.
  - destruct m as [|m]; [reflexivity|].
    cbn [Zseq firstn]. rewrite IH by lia. reflexivity.
Qed.

(** With a valid specification and a positive duration, [currentParts]
    is the number of planned windows. *)
Lemma plan_length (cfg : Settings) (fileSize : Z) (d : Q) :
  validSpec cfg -> 0 < d ->
  Z.of_nat (List.length (plan cfg fileSize d)) = fst (planParams cfg fileSize d).
Proof.
  intros Hv Hd. rewrite plan_covers by assumption.
  rewrite covering_length.
  destruct (planParams_covers cfg fileSize d Hv Hd) as (Hn & _). lia.
Qed.

Lemma statuses_of_plan (env : Env) (cfg : Settings) (file : File) :
  validSpec cfg -> 0 < getDuration env file ->
  let ws := plan cfg (size file) (getDuration env file) in
  let N := Z.of_nat (List.length ws) in
  forall m, (m <= List.length ws)%nat ->
    map (statusOf (fst (planParams cfg (size file) (getDuration env file))))
      (firstn m ws)
    = map (fun i => StSplitting (i + 1) N (percentAt N i)) (Zseq 0 m).
Proof.
  intros Hv Hd ws N m Hm.
  assert (HN : N = fst (planParams cfg (size file) (getDuration env file)))
    by (apply plan_length; assumption).
  rewrite <- HN. subst ws.
  rewrite plan_covers in Hm |- * by assumption.
  rewrite covering_length in Hm.
  rewrite firstn_map, firstn_Zseq by assumption.
  rewrite map_map. reflexivity.
Qed.

Lemma firstn_all_length {A : Type} (l : list A) (m : nat) :
  (m <= List.length l)%nat -> firstn m l = l -> m = List.length l.
Proof.
  intros Hm H. apply (f_equal (@List.length A)) in H.
  rewrite length_firstn in H. lia.
Qed.

(** ** The stream-copy command *)




(** ** Output names *)

Lemma split_no_dot (s : string) : hasDot s = false -> JS.split "." s = [s].
Proof.
  induction s as [|c r IH]; intro H; [reflexivity|].
  cbn [hasDot] in H. cbn [JS.split].
  destruct (Ascii.eqb c "."); [discriminate|].
  rewrite (IH H). reflexivity.
Qed.

Lemma replace_no_dot (s pat : string) :
  hasDot s = false -> JS.replace (String "." pat) "" s = s.
Proof.
  induction s as [|c r IH]; intro H; [reflexivity|].
  cbn [hasDot] in H. cbn [JS.replace String.prefix].
  destruct (Ascii.eqb_spec c ".") as [->|Hc]; [discriminate|].
  destruct (ascii_dec "." c) as [E|_]; [congruence|].
  rewrite (IH H). reflexivity.
Qed.

Lemma fileExtOf_no_dot (fileName : string) :
  hasDot fileName = false -> fileExtOf fileName = fileName.
Proof. intro H. unfold fileExtOf. rewrite (split_no_dot _ H). reflexivity. Qed.

Lemma baseNameOf_no_dot (fileName : string) :
  hasDot fileName = false -> baseNameOf fileName = fileName.
Proof.
  intro H. unfold baseNameOf. rewrite (fileExtOf_no_dot _ H).
  apply (replace_no_dot fileName fileName H).
Qed.

(** *** Names of the form [base.ext]

    [fileExt] is what follows the last dot.  [baseName] is the name with
    the first occurrence of [.fileExt] removed, which is the part before
    the last dot unless [.fileExt] also occurs earlier in the name. *)

Lemma split_ends_with (ext : string) :
  hasDot ext = false ->
  forall base, exists l,
    l <> [] /\ JS.split "." (base ++ String "." ext)%string = l ++ [ext].
Proof.
  intros He base. induction base as [|c b (l & Hl & IH)].
  - exists [EmptyString]. split; [discriminate|].
    cbn. rewrite (split_no_dot _ He). reflexivity.
  - cbn [String.append JS.split]. rewrite IH.
    destruct (Ascii.eqb c ".").
    + exists (EmptyString :: l). split; [discriminate | reflexivity].
    + destruct l as [|h t]; [congruence|].
      exists (String c h :: t). split; [discriminate | reflexivity].
Qed.

Lemma fileExtOf_base_ext (base ext : string) :
  hasDot ext = false -> fileExtOf (base ++ String "." ext)%string = ext.
Proof.
  intro He. unfold fileExtOf, JS.pop.
  destruct (split_ends_with ext He base) as (l & _ & ->).
  apply last_last.
Qed.

Lemma prefix_within (p : string) :
  hasDot p = false ->
  forall s t, String.prefix p (s ++ String "." t)%string = true ->
              String.prefix p s = true.
Proof.
  induction p as [|a p IH]; intros Hp s t H; [destruct s; reflexivity|].
  cbn [hasDot] in Hp.
  destruct (Ascii.eqb_spec a ".") as [->|Ha]; [discriminate|].
  destruct s as [|b s]; cbn [String.append String.prefix] in H |- *.
  - destruct (ascii_dec a "."); [contradiction | discriminate].
  - destruct (ascii_dec a b); [|discriminate].
    apply (IH Hp s t H).
Qed.

Lemma prefix_refl (s : string) : String.prefix s s = true.
Proof.
  induction s as [|c s IH]; [reflexivity|].
  cbn [String.prefix]. destruct (ascii_dec c c); [assumption | congruence].
Qed.

Lemma drop_all (s : string) : JS.drop (String.length s) s = EmptyString.
Proof. induction s as [|c s IH]; [reflexivity | exact IH]. Qed.

Lemma baseNameOf_base_ext (base ext : string) :
  hasDot ext = false ->
  JS.includes (String "." ext) base = false ->
  baseNameOf (base ++ String "." ext)%string = base.
Proof.
  intros He Hb. unfold baseNameOf.
  rewrite (fileExtOf_base_ext base ext He).
  change ("." ++ ext)%string with (String "." ext).
  induction base as [|c b IH].
  - cbn [String.append JS.replace].
    rewrite prefix_refl, drop_all. reflexivity.
  - cbn [JS.includes] in Hb.
    destruct (String.prefix (String "." ext) (String c b)) eqn:Hp;
      [discriminate|].
    cbn [String.append JS.replace].
    destruct (String.prefix (String "." ext) (String c (b ++ String "." ext)))
      eqn:Hq.
    + exfalso. cbn [String.prefix] in Hp, Hq.
      destruct (ascii_dec "." c); [|discriminate].
      rewrite (prefix_within ext He b ext Hq) in Hp. discriminate.
    + rewrite (IH Hb). reflexivity.
Qed.

(** The artifacts a run leaves in [resultFiles] are named after their
    position. *)
Lemma artifact_names (env : Env) (cfg : Settings) (file : File) (s0 : AppState)
    (i : nat) (a : Artifact) :
  nth_error (resultFiles (finalState env cfg (Some file) s0)) i = Some a ->
  artName a
  = outputName (Z.of_nat i) (baseNameOf (name file)) (fileExtOf (name file)).
Proof.
  rewrite finalState_trace. unfold mediaTrace. intro H.
  apply replay_names in H. destruct H as (w & Hw & ->).
  unfold outputOf. rewrite (plan_index _ _ _ _ _ Hw). reflexivity.
Qed.

(** A successful run leaves one artifact per planned window. *)
Lemma artifact_count (env : Env) (cfg : Settings) (file : File) (s0 : AppState) :
  writeFile env "input" file = true ->
  (forall w, In w (plan cfg (size file) (getDuration env file)) ->
             engineOK env cfg file w) ->
  List.length (resultFiles (finalState env cfg (Some file) s0))
  = List.length (plan cfg (size file) (getDuration env file)).
Proof.
  intros Hw Hok. rewrite finalState_trace. unfold mediaTrace.
  apply replay_count; assumption.
Qed.

(** The artifact a run produces for window [i] (0-indexed) is named
    [{i+1}_{baseName}_{i+1}.{fileExt}], where [baseName] and [fileExt] are
    the values [splitMedia] derives from the file name; a successful run
    has one such artifact per planned window; and for a file named
    [base.ext] in which [.ext] occurs nowhere in [base] (and [ext] has no
    dot) these values are [base] and [ext]. *)
Lemma names_from_derived_values
    (env : Env) (cfg : Settings) (file : File) (s0 : AppState) :
  (forall (i : nat) (a : Artifact),
      nth_error (resultFiles (finalState env cfg (Some file) s0)) i = Some a ->
      artName a
      = (JS.toString (Z.of_nat i + 1) ++ "_" ++ baseNameOf (name file) ++ "_"
           ++ JS.toString (Z.of_nat i + 1) ++ "." ++ fileExtOf (name file))%string)
  /\ (writeFile env "input" file = true ->
      (forall w, In w (plan cfg (size file) (getDuration env file)) ->
                 engineOK env cfg file w) ->
      List.length (resultFiles (finalState env cfg (Some file) s0))
      = List.length (plan cfg (size file) (getDuration env file)))
  /\ (forall (base ext : string) (i : nat) (a : Artifact),
         name file = (base ++ "." ++ ext)%string ->
         hasDot ext = false ->
         JS.includes ("." ++ ext) base = false ->
         nth_error (resultFiles (finalState env cfg (Some file) s0)) i = Some a ->
         artName a
         = (JS.toString (Z.of_nat i + 1) ++ "_" ++ base ++ "_"
              ++ JS.toString (Z.of_nat i + 1) ++ "." ++ ext)%string).
Proof.
  split; [|split].
  - intros i a H. apply (artifact_names env cfg file s0 i a H).
  - apply artifact_count.
  - intros base ext i a Hname He Hb H.
    rewrite (artifact_names env cfg file s0 i a H), Hname.
    change (base ++ "." ++ ext)%string with (base ++ String "." ext)%string.
    rewrite (fileExtOf_base_ext base ext He).
    rewrite (baseNameOf_base_ext base ext He Hb).
    reflexivity.
Qed.

(** C9: the file [my.mp3_song.mp3] has base name [my.mp3_song] and
    extension [mp3], but [fileName.replace(`.${fileExt}`, '')] removes the
    first occurrence of [.mp3], not the trailing one: [splitMedia] derives
    the base name [my_song.mp3], and a successful two-part run names its
    artifacts [1_my_song.mp3_1.mp3] and [2_my_song.mp3_2.mp3] instead of
    [1_my.mp3_song_1.mp3] and [2_my.mp3_song_2.mp3].  The parts-only
    revision does the same. *)
Theorem first_occurrence_removed :
  let env := mkEnv (fun _ _ => true) (fun _ => 100)
               (fun _ => ([], true)) (fun _ => Some []) in
  let cfg := mkSettings ModeParts 2 10 60 Fast in
  let file := mkFile "my.mp3_song.mp3" 5242880 "audio/mpeg" in
  let s0 := mkAppState false StEmpty 0 [] "" in
  name file = ("my.mp3_song" ++ "." ++ "mp3")%string
  /\ fileExtOf (name file) = "mp3"%string
  /\ baseNameOf (name file) = "my_song.mp3"%string
  /\ map artName (resultFiles (finalState env cfg (Some file) s0))
     = ["1_my_song.mp3_1.mp3"; "2_my_song.mp3_2.mp3"]%string
  /\ map artName (resultFiles (finalState env cfg (Some file) s0))
     <> map (fun i => (JS.toString (i + 1) ++ "_" ++ "my.mp3_song" ++ "_"
                         ++ JS.toString (i + 1) ++ "." ++ "mp3")%string)
            [0; 1]%Z
  /\ map artName (resultFiles (ui (snd (PartsOnly.run env 2 (Some file) s0))))
     = ["1_my_song.mp3_1.mp3"; "2_my_song.mp3_2.mp3"]%string.
Proof.
  intros env cfg file s0.
  split; [reflexivity|]. split; [reflexivity|]. split; [reflexivity|].
  split; [vm_compute; reflexivity|].
  split; [vm_compute; discriminate | vm_compute; reflexivity].
Qed.

(** C10: for a file name without ['.'], the extension extraction returns
    the whole name and the base-name computation leaves the name
    unchanged, so the artifact of window [i] is named
    [{i+1}_{fileName}_{i+1}.{fileName}]. *)
Theorem dotless_name_duplicated
    (env : Env) (cfg : Settings) (file : File) (s0 : AppState) :
  hasDot (name file) = false ->
  fileExtOf (name file) = name file
  /\ baseNameOf (name file) = name file
  /\ (forall i : Z,
         outputName i (baseNameOf (name file)) (fileExtOf (name file))
         = (JS.toString (i + 1) ++ "_" ++ name file ++ "_"
              ++ JS.toString (i + 1) ++ "." ++ name file)%string)
  /\ (forall (i : nat) (a : Artifact),
         nth_error (resultFiles (finalState env cfg (Some file) s0)) i = Some a ->
         artName a
         = (JS.toString (Z.of_nat i + 1) ++ "_" ++ name file ++ "_"
              ++ JS.toString (Z.of_nat i + 1) ++ "." ++ name file)%string).
Proof.
  intro H.
  pose proof (fileExtOf_no_dot _ H) as He.
  pose proof (baseNameOf_no_dot _ H) as Hb.
  split; [assumption|]. split; [assumption|]. split.
  - intro i. unfold outputName. rewrite He, Hb. reflexivity.
  - intros i a Ha. rewrite (artifact_names env cfg file s0 i a Ha).
    unfold outputName. rewrite He, Hb. reflexivity.
Qed.

Lemma dotless_name_duplicated_witness :
  let env := mkEnv (fun _ _ => true) (fun _ => 100)
               (fun _ => ([], true)) (fun _ => Some []) in
  let cfg := mkSettings ModeParts 2 10 60 Fast in
  let file := mkFile "recording" 5242880 "audio/mpeg" in
  let s0 := mkAppState false StEmpty 0 [] "" in
  map artName (resultFiles (finalState env cfg (Some file) s0))
  = ["1_recording_1.recording"; "2_recording_2.recording"]%string
  /\ fileExtOf (name file) = name file
  /\ baseNameOf (name file) = name file.
Proof.
  intros env cfg file s0.
  destruct (dotless_name_duplicated env cfg file s0 eq_refl)
    as (He & Hb & _ & _).
  split; [reflexivity|]. split; assumption.
Defined.

(** ** The parts-only revision *)

Lemma partsOnly_planLoop_map (pd : Q) (fuel : nat) :
  forall i, PartsOnly.planLoop fuel i pd
            = map (PartsOnly.windowAt pd) (Zseq i fuel).
Proof.
  induction fuel as [|fuel IH]; intro i; [reflexivity|].
  cbn [PartsOnly.planLoop Zseq map]. now rewrite IH.
Qed.

Lemma partsOnly_plan_map (parts : Z) (d : Q) :
  PartsOnly.plan parts d
  = map (PartsOnly.windowAt (d / inject_Z parts)) (Zseq 0 (Z.to_nat parts)).
Proof. unfold PartsOnly.plan. apply partsOnly_planLoop_map. Qed.

Lemma Zseq_bounds (n : nat) :
  forall i x, In x (Zseq i n) -> (i <= x < i + Z.of_nat n)%Z.
Proof.
  induction n as [|n IH]; intros i x H; [contradiction|].
  destruct H as [<-|H]; [lia|]. apply IH in H. lia.
Qed.

(** The parts-only revision always sends a stream-copy command, with
    [-avoid_negative_ts 1] and without [-movflags]. *)
Lemma partsOnly_command (start actualDuration : Q) (out : string) :
  let args := PartsOnly.ffmpegArgs start actualDuration out in
  hasOption "-ss" (ArgNum start) args
  /\ hasOption "-t" (ArgNum actualDuration) args
  /\ hasOption "-c" (ArgStr "copy") args
  /\ hasOption "-avoid_negative_ts" (ArgStr "1") args
  /\ (out <> "-movflags"%string -> ~ hasFlag "-movflags" args).
Proof.
  cbn [PartsOnly.ffmpegArgs hasOption]. repeat split; try tauto.
  intros Hout Hin. unfold hasFlag in Hin. cbn [In] in Hin.
  repeat (destruct Hin as [Hin|Hin]; [try discriminate|]); try contradiction.
  injection Hin as Hin. congruence.
Qed.

(** ** What drives the progress bar *)

Lemma progressSets_app (a b : list Event) :
  progressSets (a ++ b) = progressSets a ++ progressSets b.
Proof. apply flat_map_app. Qed.

Lemma progressSets_callbacks (es : list EngineEvent) :
  progressSets (callbackEvents es) = engineProgress es.
Proof.
  induction es as [|e es IH]; [reflexivity|].
  cbn [callbackEvents engineProgress flat_map].
  fold (callbackEvents es). fold (engineProgress es).
  rewrite progressSets_app, IH.
  destruct e as [message|ratio]; [destruct (JS.includes "error" message)|];
    reflexivity.
Qed.

Section ProgressFacts.

Variable env : Env.
Variable file : File.
Variable commandFor : Window -> list Arg.
Variable statusFor : Window -> Status.

Lemma progressSets_window (w : Window) :
  progressSets (windowTrace env file commandFor statusFor w)
  = engineProgress (fst (exec env (commandFor w))).
Proof.
  unfold windowTrace. rewrite !progressSets_app, progressSets_callbacks.
  destruct (snd (exec env (commandFor w))); cbn; now rewrite app_nil_r.
Qed.

Lemma progressSets_loop (ws : list Window) :
  progressSets (loopTrace env file commandFor statusFor ws)
  = flat_map (fun w => engineProgress (fst (exec env (commandFor w))))
      (enteredWindows env file commandFor ws).
Proof.
  induction ws as [|w ws IH]; [reflexivity|].
  cbn [loopTrace enteredWindows flat_map].
  rewrite progressSets_app, progressSets_window.
  destruct (windowResult env file commandFor w); [rewrite IH|]; reflexivity.
Qed.

Lemma progressSets_run (ws : list Window) :
  progressSets (runTrace env file commandFor statusFor ws)
  = if writeFile env "input" file
    then flat_map (fun w => engineProgress (fst (exec env (commandFor w))))
           (enteredWindows env file commandFor ws)
           ++ match loopResult env file commandFor ws [] with
              | Some _ => [100%Z]
              | None => []
              end
    else [].
Proof.
  unfold runTrace. rewrite !progressSets_app.
  destruct (writeFile env "input" file); [|reflexivity].
  rewrite !progressSets_app, progressSets_loop.
  destruct (loopResult env file commandFor ws []); cbn;
    now rewrite ?app_nil_r.
Qed.

End ProgressFacts.

Section PartsOnlyRuns.

Variable env : Env.
Variable parts : Z.
Variable file : File.
Variable s0 : AppState.

Let ws := PartsOnly.plan parts (getDuration env file).
Let final := snd (PartsOnly.run env parts (Some file) s0).

Lemma partsOnly_log : log final = partsOnlyTrace env parts file.
Proof. unfold final. rewrite partsOnly_run_trace. reflexivity. Qed.

Lemma partsOnly_ui : ui final = replay (partsOnlyTrace env parts file) s0.
Proof. unfold final. rewrite partsOnly_run_trace. reflexivity. Qed.

(** X21: in the parts-only revision an engine failure on any window
    leaves no artifact, raises one error, resets [processing], and is
    not retried: the commands sent are those of the windows up to the
    first failure. *)
Lemma partsOnly_failure_aborts (k : nat) (w : Window) :
  nth_error ws k = Some w ->
  engineRejects env (partsOnlyCommandOf file w) (outputOf file w) ->
  resultFiles (ui final) = []
  /\ error (ui final) = errorMessage
  /\ processing (ui final) = false
  /\ errorsRaised (log final) = [errorMessage]
  /\ exists j, (j <= S k)%nat
               /\ execs (log final)
                  = map (partsOnlyCommandOf file) (firstn j ws).
Proof.
  intros Hk Hf.
  destruct (loopResult_fails env file (partsOnlyCommandOf file) ws k w []
              Hk Hf) as (Hres & j & Hj & Hent).
  rewrite partsOnly_ui, partsOnly_log. unfold partsOnlyTrace. fold ws.
  destruct (replay_failure env file (partsOnlyCommandOf file)
              (partsOnlyStatusOf parts) ws s0 (or_intror Hres))
    as (Hp & Hr & He).
  repeat split; try assumption.
  - rewrite errors_run, Hres.
    destruct (writeFile env "input" file); reflexivity.
  - rewrite execs_run.
    destruct (writeFile env "input" file).
    + exists (S j). split; [lia|]. now rewrite Hent.
    + exists 0%nat. split; [lia|]. reflexivity.
Qed.

(** X22: in the parts-only revision the status on entering window [i]
    shows [Math.round((i / parts) * 100)] as the program computes it on
    binary64 values, for every window the run enters; a successful run
    enters all of them and ends with progress 100, and the values
    [setProgress] receives are those the ['progress'] listener computed
    from the engine's callbacks, window by window, followed by 100. *)
Lemma partsOnly_progress :
  exists m,
    (m <= Z.to_nat parts)%nat
    /\ splittingStatuses (log final)
       = map (fun i => StSplittingPart (i + 1) (partPercent i parts)) (Zseq 0 m)
    /\ (writeFile env "input" file = true ->
        (forall w, In w ws ->
                   engineDelivers env (partsOnlyCommandOf file w)
                     (outputOf file w)) ->
        m = Z.to_nat parts
        /\ progress (ui final) = 100%Z
        /\ progressSets (log final)
           = flat_map (fun w => engineProgress
                                  (fst (exec env (partsOnlyCommandOf file w))))
               ws
               ++ [100%Z]).
Proof.
  rewrite partsOnly_ui, partsOnly_log. unfold partsOnlyTrace. fold ws.
  rewrite (statuses_run env file _ _ (partsOnlyStatusOf_splitting parts)).
  assert (Hlen : List.length ws = Z.to_nat parts).
  { unfold ws. rewrite partsOnly_plan_map, length_map. apply Zseq_length. }
  destruct (enteredWindows_prefix env file (partsOnlyCommandOf file) ws)
    as (m & Hm & Hent).
  rewrite Hlen in Hm.
  destruct (writeFile env "input" file) eqn:Hw.
  - exists m. split; [assumption|]. split.
    + rewrite Hent. unfold ws. rewrite partsOnly_plan_map.
      rewrite firstn_map, firstn_Zseq by assumption.
      rewrite map_map. reflexivity.
    + intros _ Hok.
      destruct (loopResult_ok env file (partsOnlyCommandOf file) ws Hok [])
        as (arts & Hres & _ & Hall).
      split; [|split].
      * rewrite Hall in Hent. rewrite <- Hlen.
        apply firstn_all_length; [lia | now symmetry].
      * rewrite (replay_success env file _ _ ws s0 _ Hw Hres). reflexivity.
      * rewrite progressSets_run, Hw, Hres, Hall. reflexivity.
  - exists 0%nat. split; [lia|]. split; [reflexivity | discriminate].
Qed.

(** X23: in the parts-only revision artifact [i] of a run is named
    [{i+1}_{baseName}_{i+1}.{fileExt}]. *)
Lemma partsOnly_names (i : nat) (a : Artifact) :
  nth_error (resultFiles (ui final)) i = Some a ->
  artName a
  = outputName (Z.of_nat i) (baseNameOf (name file)) (fileExtOf (name file)).
Proof.
  rewrite partsOnly_ui. unfold partsOnlyTrace. intro H.
  apply replay_names in H. destruct H as (w & Hw & ->).
  rewrite partsOnly_plan_map in Hw.
  rewrite nth_error_map in Hw.
  destruct (nth_error (Zseq 0 (Z.to_nat parts)) i) as [z|] eqn:Ez;
    [|discriminate].
  injection Hw as <-.
  assert (Hi : (i < Z.to_nat parts)%nat).
  { rewrite <- (Zseq_length (Z.to_nat parts) 0). apply nth_error_Some.
    congruence. }
  rewrite (Zseq_nth_error _ 0 i Hi) in Ez. injection Ez as <-.
  reflexivity.
Qed.

End PartsOnlyRuns.

(** Runs of the parts-only revision on concrete inputs: a three-part
    split whose second window fails leaves no artifact and one error; a
    successful two-part split shows 0% and 50% in its statuses, sets
    the progress to 100 and names its artifacts by position; a zero duration still sends one command per part. *)
Example partsOnly_failure_run :
  let env := mkEnv (fun _ _ => true) (fun _ => 90)
               (fun _ => ([], true))
               (fun path => if String.eqb path "2_clip_2.mp4"
                            then None else Some []) in
  let file := mkFile "clip.mp4" 3145728 "video/mp4" in
  let old := mkArtifact "1_old_1.mp4" (mkBlob [] "video/mp4") in
  let final := snd (PartsOnly.run env 3 (Some file)
                      (mkAppState false StDone 100 [old] "")) in
  resultFiles (ui final) = []
  /\ error (ui final) = errorMessage
  /\ processing (ui final) = false
  /\ errorsRaised (log final) = [errorMessage]
  /\ List.length (execs (log final)) = 2%nat.
Proof. repeat split. Qed.

Example partsOnly_success_run :
  let env := mkEnv (fun _ _ => true) (fun _ => 120)
               (fun _ => ([], true)) (fun _ => Some []) in
  let file := mkFile "talk.mp4" 5242880 "video/mp4" in
  let final := snd (PartsOnly.run env 2 (Some file)
                      (mkAppState false StEmpty 0 [] "")) in
  progressSets (log final) = [100]%Z
  /\ map artName (resultFiles (ui final)) = ["1_talk_1.mp4"; "2_talk_2.mp4"]%string
  /\ map renderStatus (splittingStatuses (log final))
     = ["Splitting part 1... (0%)"; "Splitting part 2... (50%)"]%string
  /\ status (ui final) = StDone.
Proof. repeat split. Qed.

Example partsOnly_zero_duration_run :
  let env := mkEnv (fun _ _ => true) (fun _ => 0)
               (fun _ => ([], true)) (fun _ => Some []) in
  let file := mkFile "talk.mp4" 5242880 "video/mp4" in
  let final := snd (PartsOnly.run env 2 (Some file)
                      (mkAppState false StEmpty 0 [] "")) in
  List.length (execs (log final)) = 2%nat
  /\ spans (PartsOnly.plan 2 0) = [(0, 0); (0, 0)].
Proof. repeat split. Qed.

(** ** The code on the examples of the specification *)

Example parts_100_by_4 :
  spans (plan (mkSettings ModeParts 4 10 60 Compatible) 0 100)
  = [(0, 25); (25, 25); (50, 25); (75, 25)].
Proof. reflexivity. Qed.

Example status_text :
  renderStatus (StSplitting 2 3 (percentAt 3 1))
  = "Splitting part 2 of 3... (33%)"%string.
Proof. reflexivity. Qed.

Example name_parts :
  fileExtOf "my.mp3_song.mp3" = "mp3"%string
  /\ baseNameOf "my.mp3_song.mp3" = "my_song.mp3"%string
  /\ fileExtOf "holiday.2024.mp4" = "mp4"%string
  /\ baseNameOf "holiday.2024.mp4" = "holiday.2024"%string.
Proof. repeat split. Qed.

Example two_part_run :
  let env := mkEnv (fun _ _ => true) (fun _ => 120)
               (fun _ => ([OnProgress (1 # 2); OnLog "frame error"], true))
               (fun _ => Some []) in
  let cfg := mkSettings ModeParts 2 10 60 Compatible in
  let file := mkFile "talk.mp4" 5242880 "video/mp4" in
  let s0 := mkAppState false StEmpty 0 [] "" in
  map renderStatus (splittingStatuses (runLog env cfg (Some file) s0))
  = ["Splitting part 1 of 2... (0%)"; "Splitting part 2 of 2... (50%)"]%string
  /\ progressSets (runLog env cfg (Some file) s0) = [50; 50; 100]%Z
  /\ map artName (resultFiles (finalState env cfg (Some file) s0))
     = ["1_talk_1.mp4"; "2_talk_2.mp4"]%string
  /\ finalState env cfg None s0 = s0.
Proof. repeat split. Qed.

(** ** Spot checks against the machine's binary64 numbers

    [Double] computes, on sample inputs, the values the machine's
    binary64 operations compute, and the plans built with it are the
    plans of the same loop run on binary64 numbers.  Those plans have
    [parts] windows and are contiguous bit for bit; the last end point
    can fall one rounding step short of the duration (49 parts of
    1 s). *)
Module IEEEChecks.

Import PrimFloat.

Example ieee_operations :
  Qeq_bool (IEEE.exact (100 / 3)%float) (Double.div 100 3) = true
  /\ Qeq_bool (IEEE.exact (2 * (100 / 3))%float)
       (Double.mul 2 (Double.div 100 3)) = true
  /\ Qeq_bool (IEEE.exact (100 - 2 * (100 / 3))%float)
       (Double.sub 100 (Double.mul 2 (Double.div 100 3))) = true
  /\ Qeq_bool (IEEE.exact (23 / 40 * 100)%float)
       (Double.mul (Double.div 23 40) 100) = true
  /\ Qeq_bool (IEEE.exact (15 / 1000 * 100)%float)
       (Double.mul (Double.round (15 # 1000)) 100) = true
  /\ Qeq_bool (IEEE.exact (1 / 10 + 2 / 10)%float)
       (Double.add (Double.round (1 # 10)) (Double.round (2 # 10))) = true.
Proof. vm_compute. repeat split. Qed.

Example ieee_plans :
  let parts (n : Z) := mkSettings ModeParts n 10 60 Fast in
  IEEE.agrees (IEEE.plan 3 100) (plan64 (parts 3%Z) 0 100) = true
  /\ IEEE.agrees (IEEE.plan 49 1) (plan64 (parts 49%Z) 0 1) = true
  /\ IEEE.agrees (IEEE.plan 7 3600) (plan64 (parts 7%Z) 0 3600) = true
  /\ IEEE.agrees (IEEE.plan 49 17179869184)
       (plan64 (parts 49%Z) 0 17179869184) = true
  /\ IEEE.agrees (IEEE.openPlan 11 100) (PartsOnly.plan64 11 100) = true.
Proof. vm_compute. repeat split. Qed.

Example ieee_three_parts :
  List.length (IEEE.plan 3 100) = 3%nat
  /\ IEEE.contiguousb (IEEE.plan 3 100) = true
  /\ IEEE.lastEnd (IEEE.plan 3 100) = 100%float.
Proof. repeat split. Qed.

Example ieee_forty_nine_parts :
  List.length (IEEE.plan 49 1) = 49%nat
  /\ IEEE.contiguousb (IEEE.plan 49 1) = true
  /\ ltb (IEEE.lastEnd (IEEE.plan 49 1)) 1 = true
  /\ IEEE.endsWithinb (IEEE.plan 49 1) 1 = true
  /\ IEEE.endsWithinb (IEEE.plan 49 17179869184) 17179869184 = false.
Proof. repeat split. Qed.

Example ieee_seven_parts_of_an_hour :
  List.length (IEEE.plan 7 3600) = 7%nat
  /\ IEEE.contiguousb (IEEE.plan 7 3600) = true
  /\ IEEE.endsWithinb (IEEE.plan 7 3600) 3600 = true.
Proof. repeat split. Qed.

Example ieee_eleven_open_parts :
  ltb 100 (IEEE.lastEnd (IEEE.openPlan 11 100)) = true.
Proof. reflexivity. Qed.

End IEEEChecks.

(* ================================================================= *)
(** * The plan on binary64 values *)

Lemma eps_value : Double.eps == 1 # 9007199254740992.
Proof. reflexivity. Qed.

Lemma round_Z (n : Z) :
  (0 <= n < 2 ^ 53)%Z -> Double.round (inject_Z n) == inject_Z n.
Proof.
  intro H. apply round_exact.
  - change 0 with (inject_Z 0). rewrite <- Zle_Qle. lia.
  - apply representable_Z. lia.
Qed.

Lemma nth_error_map_Zseq {A : Type} (f : Z -> A) (m : nat) (i : Z) (k : nat) (a : A) :
  nth_error (map f (Zseq i m)) k = Some a ->
  (k < m)%nat /\ a = f (i + Z.of_nat k)%Z.
Proof.
  rewrite nth_error_map. intro H.
  destruct (nth_error (Zseq i m) k) as [z|] eqn:Ez; [|discriminate].
  assert (Hk : (k < m)%nat).
  { rewrite <- (Zseq_length m i). apply nth_error_Some. congruence. }
  rewrite (Zseq_nth_error _ i k Hk) in Ez. injection Ez as <-.
  injection H as <-. split; [assumption | reflexivity].
Qed.

Section Loop64.

Variables (cpd d : Q).
Hypothesis cpd_pos : 0 < cpd.
Hypothesis d_double : Double.representable d.
Hypothesis d_pos : 0 < d.

Lemma start64_zero : start64 cpd 0 == 0.
Proof.
  unfold start64, Double.mul.
  rewrite (round_comp (inject_Z 0 * cpd) 0) by (change (inject_Z 0) with 0; ring).
  reflexivity.
Qed.

Lemma scaled_nonneg (i : Z) : (0 <= i)%Z -> 0 <= inject_Z i * cpd.
Proof.
  intro H. apply Qmult_le_0_compat; [|lra].
  change 0 with (inject_Z 0). rewrite <- Zle_Qle. assumption.
Qed.

Lemma scaled_succ (i : Z) :
  inject_Z (i + 1) * cpd == inject_Z i * cpd + cpd.
Proof. rewrite inject_Z_succ. ring. Qed.

Lemma start64_nonneg (i : Z) : (0 <= i)%Z -> 0 <= start64 cpd i.
Proof. intro H. apply round_nonneg, scaled_nonneg, H. Qed.

Lemma start64_mono (i j : Z) :
  (0 <= i <= j)%Z -> start64 cpd i <= start64 cpd j.
Proof.
  intros [Hi Hij]. apply round_mono; [apply scaled_nonneg; assumption|].
  apply start_mono; assumption.
Qed.

Lemma start64_representable (i : Z) :
  (0 <= i)%Z -> Double.representable (start64 cpd i).
Proof. intro H. apply round_representable, scaled_nonneg, H. Qed.

(** From the second window on, the next start is at most twice the
    start. *)
Lemma start64_twice (i : Z) :
  (1 <= i)%Z -> start64 cpd (i + 1) <= 2 * start64 cpd i.
Proof.
  intro H. unfold start64, Double.mul.
  rewrite <- round_double by (apply scaled_nonneg; lia).
  apply round_mono; [apply scaled_nonneg; lia|].
  assert (inject_Z 1 * cpd <= inject_Z i * cpd)
    by (apply start_mono; [assumption | lia]).
  change (inject_Z 1) with 1 in H0.
  rewrite scaled_succ. lra.
Qed.

(** Below [2^51] iterations, rounding cannot make two starts collide. *)
Lemma start64_strict (i : Z) :
  (0 <= i <= 2 ^ 51)%Z -> start64 cpd i < start64 cpd (i + 1).
Proof.
  intros [Hi Hmax]. unfold start64, Double.mul.
  destruct (round_error (inject_Z i * cpd) (scaled_nonneg i Hi)) as [_ U].
  destruct (round_error (inject_Z (i + 1) * cpd) (scaled_nonneg (i + 1) ltac:(lia)))
    as [L _].
  assert (B : inject_Z i * cpd <= inject_Z (2 ^ 51) * cpd)
    by (apply start_mono; assumption).
  change (inject_Z (2 ^ 51)) with 2251799813685248 in B.
  set (ry := Double.round (inject_Z (i + 1) * cpd)) in *.
  rewrite scaled_succ in L.
  rewrite eps_value in L, U.
  set (x := inject_Z i * cpd) in *.
  set (rx := Double.round x) in *.
  lra.
Qed.

Lemma next_counter (i : Z) :
  (0 <= i <= 2 ^ 51)%Z -> Double.add (inject_Z i) 1 == inject_Z (i + 1).
Proof.
  intro H. unfold Double.add.
  rewrite (round_comp (inject_Z i + 1) (inject_Z (i + 1)))
    by (rewrite inject_Z_succ; reflexivity).
  apply round_Z. lia.
Qed.

Lemma end64_eq (i : Z) :
  (0 <= i <= 2 ^ 51)%Z ->
  Double.mul (Double.add (inject_Z i) 1) cpd == start64 cpd (i + 1).
Proof.
  intro H. unfold Double.mul, start64. apply round_comp.
  rewrite (next_counter i H). reflexivity.
Qed.

(** A window that starts before [d] is kept: its duration is computed
    without rounding error, is positive, and the window ends at the next
    start or at [d], whichever comes first. *)
Lemma windowAt64_kept (i : Z) :
  (0 <= i <= 2 ^ 51)%Z -> start64 cpd i < d ->
  let w := windowAt64 cpd d i in
  0 < actualDuration w
  /\ (start64 cpd (i + 1) <= d -> windowEnd w == start64 cpd (i + 1))
  /\ (d <= start64 cpd (i + 1) -> windowEnd w == d).
Proof.
  intros Hi Hlt w.
  pose proof (end64_eq i Hi) as He.
  pose proof (start64_strict i Hi) as Hs.
  pose proof (start64_nonneg i ltac:(lia)) as H0.
  pose proof (start64_representable i ltac:(lia)) as Rs.
  pose proof (start64_representable (i + 1) ltac:(lia)) as Rn.
  assert (Hsub : forall e, Double.representable e ->
                   start64 cpd i < e -> e <= start64 cpd (i + 1) ->
                   Double.sub e (start64 cpd i) == e - start64 cpd i).
  { intros e Re Hlo Hhi. unfold Double.sub. apply round_exact; [lra|].
    destruct (Z.eq_dec i 0) as [->|Hn].
    - apply (representable_comp e); [|assumption].
      rewrite start64_zero. ring.
    - apply sterbenz; try assumption; try lra.
      pose proof (start64_twice i ltac:(lia)). lra. }
  subst w. unfold windowAt64, windowEnd. cbn [start actualDuration].
  fold (start64 cpd i).
  set (e := Double.mul (Double.add (inject_Z i) 1) cpd) in *.
  destruct (JS.ltb d e) eqn:C.
  - apply ltb_true_iff in C. rewrite He in C.
    rewrite (Hsub d d_double Hlt ltac:(lra)).
    split; [lra|]. split; intro H; [lra | ring].
  - apply ltb_false_iff in C. rewrite He in C.
    assert (Re : Double.representable e)
      by (apply (representable_comp (start64 cpd (i + 1))); [symmetry|]; assumption).
    rewrite (Hsub e Re) by (rewrite He; lra).
    split; [rewrite He; lra|]. split; intro H; [rewrite <- He; ring | lra].
Qed.

Lemma windowAt64_dropped (i : Z) :
  (0 <= i <= 2 ^ 51)%Z -> d <= start64 cpd i ->
  actualDuration (windowAt64 cpd d i) <= 0.
Proof.
  intros Hi Hge.
  pose proof (end64_eq i Hi) as He.
  pose proof (start64_strict i Hi) as Hs.
  unfold windowAt64. cbn [actualDuration]. fold (start64 cpd i).
  set (e := Double.mul (Double.add (inject_Z i) 1) cpd) in *.
  destruct (JS.ltb d e) eqn:C.
  - apply round_neg. lra.
  - apply ltb_false_iff in C. rewrite He in C. lra.
Qed.

(** The loop keeps the windows that start before [d]. *)
Lemma planLoop64_shape (fuel : nat) :
  forall i, (0 <= i)%Z -> (i + Z.of_nat fuel <= 2 ^ 51 + 1)%Z ->
  exists m,
    (m <= fuel)%nat
    /\ planLoop64 fuel i cpd d = map (windowAt64 cpd d) (Zseq i m)
    /\ (forall j, (i <= j < i + Z.of_nat m)%Z -> start64 cpd j < d)
    /\ (m = fuel \/ d <= start64 cpd (i + Z.of_nat m)).
Proof.
  induction fuel as [|fuel IH]; intros i Hi Hmax.
  - exists 0%nat. split; [lia|]. split; [reflexivity|].
    split; [intros j Hj; lia | now left].
  - cbn [planLoop64].
    destruct (Qlt_le_dec (start64 cpd i) d) as [Hlt|Hge].
    + destruct (windowAt64_kept i ltac:(lia) Hlt) as (Hpos & _).
      apply leb_false_iff in Hpos. rewrite Hpos.
      destruct (IH (i + 1)%Z ltac:(lia) ltac:(lia)) as (m & Hm & Heq & Hall & Hend).
      exists (S m). split; [lia|]. split; [cbn [Zseq map]; now rewrite Heq|].
      split.
      * intros j Hj. destruct (Z.eq_dec j i) as [->|Hn]; [assumption|].
        apply Hall. lia.
      * destruct Hend as [->|Hend]; [now left | right].
        replace (i + Z.of_nat (S m))%Z with (i + 1 + Z.of_nat m)%Z by lia.
        assumption.
    + pose proof (windowAt64_dropped i ltac:(lia) Hge) as Hdrop.
      apply leb_true_iff in Hdrop. rewrite Hdrop.
      exists 0%nat. split; [lia|]. split; [reflexivity|].
      split; [intros j Hj; lia | right].
      replace (i + Z.of_nat 0)%Z with i by lia. assumption.
Qed.

Lemma kept_end (j : Z) :
  (0 <= j <= 2 ^ 51)%Z -> start64 cpd j < d ->
  let w := windowAt64 cpd d j in
  windowEnd w <= d /\ windowEnd w <= start64 cpd (j + 1)
  /\ start64 cpd j < windowEnd w
  /\ Double.representable (windowEnd w).
Proof.
  intros Hj Hlt w.
  destruct (windowAt64_kept j Hj Hlt) as (Hpos & Hin & Hout). fold w in Hpos, Hin, Hout.
  assert (Hst : start64 cpd j < windowEnd w).
  { unfold windowEnd. change (start w) with (start64 cpd j). lra. }
  destruct (Qlt_le_dec d (start64 cpd (j + 1))) as [C|C].
  - specialize (Hout ltac:(lra)).
    split; [lra|]. split; [lra|]. split; [assumption|].
    apply (representable_comp d); [symmetry|]; assumption.
  - specialize (Hin C).
    split; [lra|]. split; [lra|]. split; [assumption|].
    apply (representable_comp (start64 cpd (j + 1))); [symmetry; assumption|].
    apply start64_representable. lia.
Qed.

Section Kept.

Variables (i : Z) (m : nat).
Hypothesis i_nonneg : (0 <= i)%Z.
Hypothesis in_range : (i + Z.of_nat m <= 2 ^ 51 + 1)%Z.
Hypothesis all_kept : forall j, (i <= j < i + Z.of_nat m)%Z -> start64 cpd j < d.

Let ws := map (windowAt64 cpd d) (Zseq i m).

Lemma kept_nth (k : nat) (w : Window) :
  nth_error ws k = Some w ->
  (k < m)%nat /\ w = windowAt64 cpd d (i + Z.of_nat k)
  /\ start64 cpd (i + Z.of_nat k) < d.
Proof.
  intro H. apply nth_error_map_Zseq in H. destruct H as [Hk ->].
  split; [assumption|]. split; [reflexivity|]. apply all_kept. lia.
Qed.

Lemma kept_positive (w : Window) : In w ws -> 0 < actualDuration w.
Proof.
  intro H. apply In_nth_error in H. destruct H as [k Hk].
  destruct (kept_nth k w Hk) as (Hlt & -> & Hs).
  apply windowAt64_kept; [lia | assumption].
Qed.

Lemma kept_exactEnds : exactEnds ws.
Proof.
  apply Forall_forall. intros w H.
  apply In_nth_error in H. destruct H as [k Hk].
  destruct (kept_nth k w Hk) as (Hlt & -> & Hs).
  destruct (kept_end (i + Z.of_nat k) ltac:(lia) Hs) as (_ & _ & Hgt & Hr).
  unfold Double.add. apply round_exact; [|exact Hr].
  pose proof (start64_nonneg (i + Z.of_nat k) ltac:(lia)).
  fold (windowEnd (windowAt64 cpd d (i + Z.of_nat k))). lra.
Qed.

Lemma kept_nonOverlapping : nonOverlapping ws.
Proof.
  intros a b wa wb Hab Ha Hb.
  destruct (kept_nth a wa Ha) as (Hla & -> & Hsa).
  destruct (kept_nth b wb Hb) as (Hlb & -> & Hsb).
  destruct (kept_end (i + Z.of_nat a) ltac:(lia) Hsa) as (_ & Hn & _).
  eapply Qle_trans; [exact Hn|].
  change (start (windowAt64 cpd d (i + Z.of_nat b)))
    with (start64 cpd (i + Z.of_nat b)).
  apply start64_mono. lia.
Qed.

End Kept.

Lemma kept_contiguous (m : nat) :
  forall i, (0 <= i)%Z -> (i + Z.of_nat m <= 2 ^ 51 + 1)%Z ->
  (forall j, (i <= j < i + Z.of_nat m)%Z -> start64 cpd j < d) ->
  contiguous (map (windowAt64 cpd d) (Zseq i m)).
Proof.
  induction m as [|m IH]; intros i Hi Hmax Hall; [exact I|].
  destruct m as [|m]; [exact I|].
  change (Zseq i (S (S m))) with (i :: (i + 1)%Z :: Zseq (i + 1 + 1) m).
  cbn [map contiguous]. split.
  - destruct (windowAt64_kept i ltac:(lia) (Hall i ltac:(lia))) as (_ & Hin & _).
    rewrite Hin; [reflexivity|].
    apply Qlt_le_weak, Hall. lia.
  - apply (IH (i + 1)%Z); [lia | lia |].
    intros j Hj. apply Hall. lia.
Qed.

Lemma kept_last (m : nat) (i : Z) (w0 : Window) :
  last (map (windowAt64 cpd d) (Zseq i (S m))) w0
  = windowAt64 cpd d (i + Z.of_nat m).
Proof. rewrite Zseq_snoc, map_app. cbn [map]. apply last_last. Qed.

(** The windows of [n] iterations from 0. *)
Lemma loop64_timeline (n : Z) :
  (1 <= n <= 2 ^ 51)%Z ->
  let ws := planLoop64 (Z.to_nat n) 0 cpd d in
  startsAtZero ws /\ contiguous ws /\ nonOverlapping ws /\ exactEnds ws
  /\ (forall w, In w ws -> 0 < actualDuration w)
  /\ (List.length ws <= Z.to_nat n)%nat
  /\ (start64 cpd n <= d -> endsAt ws (start64 cpd n))
  /\ (d <= start64 cpd n -> endsAt ws d)
  /\ ((forall j, (0 <= j < n)%Z -> start64 cpd j < d) ->
      ws = map (windowAt64 cpd d) (Zseq 0 (Z.to_nat n))).
Proof.
  intros Hn ws.
  destruct (planLoop64_shape (Z.to_nat n) 0 ltac:(lia) ltac:(lia))
    as (m & Hm & Heq & Hall & Hend).
  fold ws in Heq.
  assert (Hm1 : (1 <= m)%nat).
  { destruct m as [|m]; [|lia]. exfalso.
    destruct Hend as [E|E]; [lia|].
    change (0 + Z.of_nat 0)%Z with 0%Z in E. rewrite start64_zero in E. lra. }
  assert (Hrange : (0 + Z.of_nat m <= 2 ^ 51 + 1)%Z) by lia.
  rewrite Heq.
  destruct m as [|m]; [lia|].
  split.
  { cbn [Zseq map]. eexists; eexists; split; [reflexivity|].
    change (start (windowAt64 cpd d 0)) with (start64 cpd 0).
    apply start64_zero. }
  split; [apply kept_contiguous; [lia | lia | assumption]|].
  split; [apply (kept_nonOverlapping 0 (S m)); solve [lia | assumption]|].
  split; [apply (kept_exactEnds 0 (S m)); solve [lia | assumption]|].
  split; [intros w Hw; apply (kept_positive 0 (S m)) with (w := w);
          solve [lia | assumption]|].
  split; [rewrite length_map, Zseq_length; assumption|].
  assert (Hlast : start64 cpd (Z.of_nat m) < d) by (apply Hall; lia).
  destruct (windowAt64_kept (Z.of_nat m) ltac:(lia) Hlast) as (_ & Hin & Hout).
  assert (Hends : forall t,
             windowEnd (windowAt64 cpd d (Z.of_nat m)) == t ->
             endsAt (map (windowAt64 cpd d) (Zseq 0 (S m))) t).
  { intros t Ht. unfold endsAt.
    change (Zseq 0 (S m)) with (0%Z :: Zseq (0 + 1) m) at 1. cbn [map].
    change (windowAt64 cpd d 0 :: map (windowAt64 cpd d) (Zseq (0 + 1) m))
      with (map (windowAt64 cpd d) (Zseq 0 (S m))).
    rewrite kept_last. exact Ht. }
  replace (Z.of_nat m + 1)%Z with (Z.of_nat (S m)) in Hin, Hout by lia.
  assert (Hmono : start64 cpd (Z.of_nat (S m)) <= start64 cpd n)
    by (apply start64_mono; lia).
  split; [|split].
  - intro Hle. apply Hends.
    destruct Hend as [E|E].
    + rewrite E in Hin. replace (Z.of_nat (Z.to_nat n)) with n in Hin by lia.
      apply Hin. assumption.
    + change (0 + Z.of_nat (S m))%Z with (Z.of_nat (S m)) in E.
      rewrite Hout by assumption. lra.
  - intro Hge. apply Hends.
    destruct Hend as [E|E].
    + rewrite E in Hout. replace (Z.of_nat (Z.to_nat n)) with n in Hout by lia.
      apply Hout. assumption.
    + change (0 + Z.of_nat (S m))%Z with (Z.of_nat (S m)) in E.
      apply Hout. assumption.
  - intro Hfull. destruct Hend as [E|E]; [rewrite E; reflexivity|].
    change (0 + Z.of_nat (S m))%Z with (Z.of_nat (S m)) in E.
    destruct (Z.eq_dec (Z.of_nat (S m)) n) as [En|Nn].
    + replace (Z.to_nat n) with (S m) by lia. reflexivity.
    + exfalso.
      assert (start64 cpd (Z.of_nat (S m)) < d) by (apply Hfull; lia). lra.
Qed.

End Loop64.

Lemma isDouble_representable (x : Q) :
  0 <= x -> Double.isDouble x -> Double.representable x.
Proof.
  intros H0 H. apply (representable_comp (Double.round x)); [exact H|].
  apply round_representable. assumption.
Qed.

Lemma eps_bounds : 0 < Double.eps /\ Double.eps < 1.
Proof. rewrite eps_value. split; reflexivity. Qed.

(** What the mode dispatch hands to the loop: at least one part of
    positive binary64 length, together reaching [d] up to one rounding. *)
Lemma planParams64_facts (cfg : Settings) (fileSize : Z) (d : Q) :
  validSpec cfg -> 0 < d ->
  let n := fst (planParams64 cfg fileSize d) in
  let cpd := snd (planParams64 cfg fileSize d) in
  (1 <= n)%Z /\ 0 < cpd
  /\ d * (1 - Double.eps) <= inject_Z n * cpd.
Proof.
  intros Hv Hd.
  assert (Hdiv : forall n : Z, (1 <= n)%Z ->
            0 < Double.div d (inject_Z n)
            /\ d * (1 - Double.eps) <= inject_Z n * Double.div d (inject_Z n)).
  { intros n Hn. pose proof (div_pos d n Hn Hd) as Hq.
    pose proof (inject_Z_pos n Hn) as Hnq.
    split; [apply round_pos; assumption|].
    destruct (round_error (d / inject_Z n) ltac:(lra)) as [L _].
    fold (Double.div d (inject_Z n)) in L.
    apply (Qmult_le_l _ _ (inject_Z n) Hnq) in L.
    setoid_replace (inject_Z n * (d / inject_Z n * (1 - Double.eps)))
      with (d * (1 - Double.eps)) in L by (field; lra).
    exact L. }
  unfold planParams64, validSpec in *.
  destruct (splitMode cfg); cbn [fst snd].
  - (* parts *)
    split; [lia|]. apply Hdiv. lia.
  - (* size *)
    set (c := JS.Math_ceil _).
    assert (Hc : (1 <= (if (c <? 1)%Z then 1 else c))%Z)
      by (destruct (Z.ltb_spec c 1); lia).
    split; [assumption|]. apply Hdiv. assumption.
  - (* time *)
    set (q := Double.div d (splitTime cfg)).
    set (c := JS.Math_ceil q).
    assert (Hc : (1 <= (if (c <? 1)%Z then 1 else c))%Z)
      by (destruct (Z.ltb_spec c 1); lia).
    assert (Hcq : q <= inject_Z (if (c <? 1)%Z then 1 else c)).
    { eapply Qle_trans; [apply Qle_ceiling|]. fold (JS.Math_ceil q). fold c.
      rewrite <- Zle_Qle. destruct (Z.ltb_spec c 1); lia. }
    split; [assumption|]. split; [lra|].
    assert (Hq0 : 0 < d / splitTime cfg).
    { apply Qlt_shift_div_l; lra. }
    destruct (round_error (d / splitTime cfg) ltac:(lra)) as [L _].
    fold (Double.div d (splitTime cfg)) in L. fold q in L.
    set (n := if (c <? 1)%Z then 1%Z else c) in *.
    assert (Hm : q * splitTime cfg <= inject_Z n * splitTime cfg)
      by (apply Qmult_le_r; [lra | assumption]).
    assert (Hm' : d / splitTime cfg * (1 - Double.eps) * splitTime cfg
                  <= q * splitTime cfg)
      by (apply Qmult_le_r; [lra | assumption]).
    setoid_replace (d / splitTime cfg * (1 - Double.eps) * splitTime cfg)
      with (d * (1 - Double.eps)) in Hm' by (field; lra).
    lra.
Qed.

(** The plan's last end point, from the product [n * cpd]. *)
Lemma loop64_end (n : Z) (cpd d : Q) :
  0 < cpd -> Double.representable d -> 0 < d ->
  (1 <= n <= 2 ^ 51)%Z ->
  d * (1 - Double.eps) <= inject_Z n * cpd ->
  endsBetween (planLoop64 (Z.to_nat n) 0 cpd d)
    (d * (1 - Double.eps) * (1 - Double.eps)) d.
Proof.
  intros Hc Rd Hd Hn Hprod.
  destruct (loop64_timeline cpd d Hc Rd Hd n Hn)
    as (_ & _ & _ & _ & _ & _ & Hin & Hout & _).
  assert (Hlow : d * (1 - Double.eps) * (1 - Double.eps) <= start64 cpd n).
  { destruct (round_error (inject_Z n * cpd)) as [L _].
    - apply Qmult_le_0_compat; [|lra].
      change 0 with (inject_Z 0). rewrite <- Zle_Qle. lia.
    - fold (Double.mul (inject_Z n) cpd) in L. fold (start64 cpd n) in L.
      rewrite eps_value in *.
      set (P := inject_Z n * cpd) in *. lra. }
  destruct eps_bounds as [E0 E1].
  destruct (Qlt_le_dec d (start64 cpd n)) as [C|C].
  - specialize (Hout ltac:(lra)).
    unfold endsAt, endsBetween in *.
    destruct (planLoop64 (Z.to_nat n) 0 cpd d) as [|w ws]; [assumption|].
    rewrite Hout. rewrite eps_value in *. split; lra.
  - specialize (Hin C).
    unfold endsAt, endsBetween in *.
    destruct (planLoop64 (Z.to_nat n) 0 cpd d) as [|w ws]; [assumption|].
    rewrite Hin. split; lra.
Qed.

Lemma endsBetween_within (ws : list Window) (d : Q) :
  0 < d -> d <= 4294967296 ->
  endsBetween ws (d * (1 - Double.eps) * (1 - Double.eps)) d ->
  endsWithin ws d.
Proof.
  intros Hd Hmax H. unfold endsBetween, endsWithin in *.
  destruct ws as [|w ws]; [assumption|].
  apply Qabs_Qle_condition. unfold tolerance.
  rewrite eps_value in H. split; lra.
Qed.

(** C1: for every split specification within the policy minimums, every
    positive binary64 duration and at most [2^51] parts, the windows
    [splitMedia] plans on binary64 values are contiguous (the code's own
    [start + actualDuration] is exact and equals the next start), do not
    overlap and start at 0.  The last window never ends after the
    duration and ends within two roundings of it, at or above
    [totalDuration * (1 - 2^-53)^2]; that is within 1e-6 s for durations
    up to [2^32] seconds. *)
Theorem plan64_timeline (cfg : Settings) (fileSize : Z) (totalDuration : Q) :
  validSpec cfg -> Double.isDouble totalDuration -> 0 < totalDuration ->
  (fst (planParams64 cfg fileSize totalDuration) <= 2 ^ 51)%Z ->
  let ws := plan64 cfg fileSize totalDuration in
  contiguous ws /\ exactEnds ws /\ nonOverlapping ws /\ startsAtZero ws
  /\ endsBetween ws
       (totalDuration * (1 - Double.eps) * (1 - Double.eps)) totalDuration
  /\ (totalDuration <= 4294967296 -> endsWithin ws totalDuration).
Proof.
  intros Hv Hdbl Hd Hmax ws.
  destruct (planParams64_facts cfg fileSize totalDuration Hv Hd)
    as (Hn & Hc & Hprod).
  assert (Rd : Double.representable totalDuration)
    by (apply isDouble_representable; [lra | assumption]).
  subst ws. unfold plan64.
  destruct (planParams64 cfg fileSize totalDuration) as [n cpd].
  cbn [fst snd] in *.
  destruct (loop64_timeline cpd totalDuration Hc Rd Hd n ltac:(lia))
    as (Hs & Hcont & Hno & Hex & _).
  pose proof (loop64_end n cpd totalDuration Hc Rd Hd ltac:(lia) Hprod) as He.
  split; [assumption|]. split; [assumption|]. split; [assumption|].
  split; [assumption|]. split; [assumption|].
  intro Hle. apply endsBetween_within; assumption.
Qed.

Lemma plan64_timeline_witness :
  let ws := plan64 (mkSettings ModeParts 3 10 60 Fast) 0 100 in
  contiguous ws /\ exactEnds ws /\ nonOverlapping ws /\ startsAtZero ws
  /\ endsBetween ws (100 * (1 - Double.eps) * (1 - Double.eps)) 100
  /\ (100 <= 4294967296 -> endsWithin ws 100).
Proof.
  apply (plan64_timeline (mkSettings ModeParts 3 10 60 Fast) 0 100).
  - unfold validSpec. simpl. lia.
  - reflexivity.
  - reflexivity.
  - simpl. lia.
Defined.

(** The absolute tolerance of 1e-6 s is missed for a long enough
    duration: 49 parts of [2^34] seconds end [2^-19] seconds early. *)
Lemma tolerance_missed :
  let cfg := mkSettings ModeParts 49 10 60 Fast in
  let d := inject_Z (2 ^ 34) in
  validSpec cfg /\ Double.isDouble d /\ 0 < d
  /\ ~ endsWithin (plan64 cfg 0 d) d.
Proof.
  split; [unfold validSpec; simpl; lia|].
  split; [reflexivity|]. split; [reflexivity|].
  vm_compute. intro H. apply H. reflexivity.
Qed.

Lemma parts_all_kept (count : Z) (d : Q) :
  (2 <= count <= 2 ^ 51)%Z -> 0 < d ->
  forall j, (0 <= j < count)%Z ->
    start64 (Double.div d (inject_Z count)) j < d.
Proof.
  intros Hn Hd j Hj.
  set (pd := Double.div d (inject_Z count)).
  assert (Hq : 0 < d / inject_Z count) by (apply div_pos; [lia | assumption]).
  assert (Hpd : 0 < pd) by (apply round_pos; assumption).
  eapply Qle_lt_trans; [apply (start64_mono pd Hpd j (count - 1)); lia|].
  pose proof (inject_Z_pos count ltac:(lia)) as Hnq.
  destruct (round_error (d / inject_Z count) ltac:(lra)) as [L U].
  fold (Double.div d (inject_Z count)) in L, U. fold pd in L, U.
  apply (Qmult_le_l _ _ (inject_Z count) Hnq) in L.
  apply (Qmult_le_l _ _ (inject_Z count) Hnq) in U.
  setoid_replace (inject_Z count * (d / inject_Z count * (1 - Double.eps)))
    with (d * (1 - Double.eps)) in L by (field; lra).
  setoid_replace (inject_Z count * (d / inject_Z count * (1 + Double.eps)))
    with (d * (1 + Double.eps)) in U by (field; lra).
  assert (B : inject_Z count * pd <= inject_Z (2 ^ 51) * pd)
    by (apply start_mono; [assumption | lia]).
  change (inject_Z (2 ^ 51)) with 2251799813685248 in B.
  assert (S : inject_Z (count - 1) * pd == inject_Z count * pd - pd).
  { unfold Z.sub. rewrite inject_Z_plus, inject_Z_opp. ring. }
  destruct (round_error (inject_Z (count - 1) * pd)) as [_ U'].
  { apply Qmult_le_0_compat; [|lra].
    change 0 with (inject_Z 0). rewrite <- Zle_Qle. lia. }
  unfold start64, Double.mul.
  set (r := Double.round (inject_Z (count - 1) * pd)) in *.
  rewrite S in U'. rewrite eps_value in *.
  set (P := inject_Z count * pd) in *.
  lra.
Qed.

(** C2: in parts mode with [2 <= count <= 2^51] and a positive binary64
    duration the plan on binary64 values has exactly [count] windows;
    window [i] has index [i], starts at the binary64 value of
    [i * (totalDuration / count)] and has positive duration; no window
    ends after [totalDuration]; the last one ends within two roundings
    of it, and the durations add up to that end point, so that their sum
    lies between [totalDuration * (1 - 2^-53)^2] and [totalDuration]:
    within 1e-6 s for durations up to [2^32] seconds. *)
Theorem parts_plan64 (cfg : Settings) (fileSize count : Z) (totalDuration : Q) :
  isParts cfg count -> (2 <= count <= 2 ^ 51)%Z ->
  Double.isDouble totalDuration -> 0 < totalDuration ->
  let ws := plan64 cfg fileSize totalDuration in
  let partDuration := Double.div totalDuration (inject_Z count) in
  List.length ws = Z.to_nat count
  /\ (forall i w, nth_error ws i = Some w ->
        index w = Z.of_nat i
        /\ start w = Double.mul (inject_Z (Z.of_nat i)) partDuration
        /\ 0 < actualDuration w
        /\ windowEnd w <= totalDuration)
  /\ endsBetween ws
       (totalDuration * (1 - Double.eps) * (1 - Double.eps)) totalDuration
  /\ (totalDuration * (1 - Double.eps) * (1 - Double.eps) <= sumDurations ws
      /\ sumDurations ws <= totalDuration)
  /\ (totalDuration <= 4294967296 ->
      Qabs (sumDurations ws - totalDuration) <= tolerance).
Proof.
  intros [Hmode Hcount] Hn Hdbl Hd ws pd.
  assert (Rd : Double.representable totalDuration)
    by (apply isDouble_representable; [lra | assumption]).
  assert (Hv : validSpec cfg) by (unfold validSpec; rewrite Hmode; lia).
  destruct (planParams64_facts cfg fileSize totalDuration Hv Hd)
    as (_ & Hc & Hprod).
  assert (Hpar : planParams64 cfg fileSize totalDuration = (count, pd))
    by (unfold planParams64; rewrite Hmode, Hcount; reflexivity).
  rewrite Hpar in Hc, Hprod. cbn [fst snd] in Hc, Hprod.
  pose proof (parts_all_kept count totalDuration Hn Hd) as Hall. fold pd in Hall.
  destruct (loop64_timeline pd totalDuration Hc Rd Hd count ltac:(lia))
    as (Hs & Hcont & _ & _ & Hpos & _ & _ & _ & Hfull).
  specialize (Hfull Hall).
  pose proof (loop64_end count pd totalDuration Hc Rd Hd ltac:(lia) Hprod) as He.
  assert (Hws : ws = map (windowAt64 pd totalDuration) (Zseq 0 (Z.to_nat count))).
  { unfold ws, plan64. rewrite Hpar. exact Hfull. }
  unfold ws, plan64 in *. rewrite Hpar in *.
  set (l := planLoop64 (Z.to_nat count) 0 pd totalDuration) in *.
  split; [rewrite Hfull, length_map; apply Zseq_length|].
  split.
  { intros i w Hi. rewrite Hfull in Hi.
    apply nth_error_map_Zseq in Hi. destruct Hi as [Hlt ->].
    rewrite Z.add_0_l.
    split; [reflexivity|]. split; [reflexivity|].
    assert (Hk : start64 pd (Z.of_nat i) < totalDuration) by (apply Hall; lia).
    split; [apply (windowAt64_kept pd totalDuration Hc Rd); [lia | assumption]|].
    apply (kept_end pd totalDuration Hc Rd); [lia | assumption]. }
  split; [assumption|].
  assert (Hsum : totalDuration * (1 - Double.eps) * (1 - Double.eps)
                 <= sumDurations l /\ sumDurations l <= totalDuration).
  { destruct Hs as (w & rest & Hw & Hs0). rewrite Hw in Hcont, He |- *.
    rewrite (sum_contiguous rest w Hcont). unfold endsBetween in He.
    rewrite Hs0. split; lra. }
  split; [assumption|].
  intro Hle. apply Qabs_Qle_condition. unfold tolerance.
  destruct Hsum as [S1 S2]. rewrite eps_value in S1. split; lra.
Qed.

Lemma parts_plan64_witness :
  let cfg := mkSettings ModeParts 3 10 60 Fast in
  let ws := plan64 cfg 0 100 in
  let partDuration := Double.div 100 (inject_Z 3) in
  List.length ws = Z.to_nat 3
  /\ (forall i w, nth_error ws i = Some w ->
        index w = Z.of_nat i
        /\ start w = Double.mul (inject_Z (Z.of_nat i)) partDuration
        /\ 0 < actualDuration w
        /\ windowEnd w <= 100)
  /\ endsBetween ws (100 * (1 - Double.eps) * (1 - Double.eps)) 100
  /\ (100 * (1 - Double.eps) * (1 - Double.eps) <= sumDurations ws
      /\ sumDurations ws <= 100)
  /\ (100 <= 4294967296 -> Qabs (sumDurations ws - 100) <= tolerance).
Proof.
  intro cfg.
  apply (parts_plan64 cfg 0 3 100).
  - split; reflexivity.
  - lia.
  - reflexivity.
  - reflexivity.
Defined.

(** The durations of 49 parts of [2^34] seconds miss the duration by
    more than the claim's tolerance. *)
Lemma sum_tolerance_missed :
  let cfg := mkSettings ModeParts 49 10 60 Fast in
  let d := inject_Z (2 ^ 34) in
  isParts cfg 49 /\ Double.isDouble d /\ 0 < d
  /\ List.length (plan64 cfg 0 d) = 49%nat
  /\ ~ Qabs (sumDurations (plan64 cfg 0 d) - d) <= tolerance.
Proof.
  split; [split; reflexivity|].
  split; [reflexivity|]. split; [reflexivity|].
  split; [vm_compute; reflexivity|].
  vm_compute. intro H. apply H. reflexivity.
Qed.

(** ** The parts-only loop on binary64 values *)

Lemma partsOnly_planLoop64_map (pd : Q) (fuel : nat) :
  forall i, PartsOnly.planLoop64 fuel i pd = map (PartsOnly.windowAt64 pd) (Zseq i fuel).
Proof.
  induction fuel as [|fuel IH]; intro i; [reflexivity|].
  cbn [PartsOnly.planLoop64 Zseq map]. now rewrite IH.
Qed.

(** Below the nominal end the clamp of the later revision does nothing:
    both revisions compute the same window. *)
Lemma partsOnly_window64_eq (pd d : Q) (i : Z) :
  0 < pd -> (0 <= i <= 2 ^ 51)%Z -> start64 pd (i + 1) <= d ->
  PartsOnly.windowAt64 pd i = windowAt64 pd d i.
Proof.
  intros Hpd Hi H. unfold PartsOnly.windowAt64, windowAt64.
  assert (C : JS.ltb d (Double.mul (Double.add (inject_Z i) 1) pd) = false).
  { apply ltb_false_iff. rewrite (end64_eq pd i Hi). assumption. }
  rewrite C. reflexivity.
Qed.

(** X20: in the parts-only revision, for [1 <= count <= 2^51] parts and
    a positive duration, the plan on binary64 values has [count] windows
    of positive duration; they are contiguous (the code's own
    [start + actualDuration] is exact and equals the next start), do not
    overlap and start at 0.  This revision does not clamp: the last
    window ends within two roundings of the duration, on either side of
    it, and the durations add up to that end point. *)
Theorem partsOnly_timeline64 (count : Z) (d : Q) :
  (1 <= count <= 2 ^ 51)%Z -> 0 < d ->
  let ws := PartsOnly.plan64 count d in
  List.length ws = Z.to_nat count
  /\ contiguous ws /\ exactEnds ws /\ nonOverlapping ws /\ startsAtZero ws
  /\ (forall w, In w ws -> 0 < actualDuration w)
  /\ endsBetween ws (d * (1 - Double.eps) * (1 - Double.eps))
       (d * (1 + Double.eps) * (1 + Double.eps))
  /\ sumDurations ws == windowEnd (last ws (mkWindow 0 0 0)).
Proof.
  intros Hn Hd ws.
  set (pd := Double.div d (inject_Z count)).
  assert (Hq : 0 < d / inject_Z count) by (apply div_pos; [lia | assumption]).
  assert (Hpd : 0 < pd) by (apply round_pos; assumption).
  set (e := start64 pd count).
  assert (Re : Double.representable e) by (apply start64_representable; [assumption | lia]).
  assert (Hall : forall j, (0 <= j < 0 + Z.of_nat (Z.to_nat count))%Z ->
                           start64 pd j < e).
  { intros j Hj.
    eapply Qlt_le_trans; [apply (start64_strict pd Hpd j); lia|].
    apply start64_mono; [assumption | lia]. }
  assert (Hws : ws = map (windowAt64 pd e) (Zseq 0 (Z.to_nat count))).
  { unfold ws, PartsOnly.plan64. fold pd. rewrite partsOnly_planLoop64_map.
    apply map_ext_in. intros i Hi. apply Zseq_bounds in Hi.
    apply partsOnly_window64_eq; [assumption | lia |].
    apply start64_mono; [assumption | lia]. }
  clearbody ws. subst ws.
  destruct (Z.to_nat count) as [|m] eqn:Em; [lia|].
  set (ws := map (windowAt64 pd e) (Zseq 0 (S m))).
  assert (Hlast : forall w0, last ws w0 = windowAt64 pd e (Z.of_nat m)).
  { intro w0. unfold ws. rewrite kept_last. f_equal. }
  assert (Hend : windowEnd (windowAt64 pd e (Z.of_nat m)) == e).
  { destruct (windowAt64_kept pd e Hpd Re (Z.of_nat m) ltac:(lia)
                (Hall (Z.of_nat m) ltac:(lia))) as (_ & Hin & _).
    assert (Hidx : (Z.of_nat m + 1)%Z = count) by lia.
    rewrite Hidx in Hin. apply Hin. apply Qle_refl. }
  assert (Hcont : contiguous ws)
    by (apply (kept_contiguous pd e Hpd Re); [lia | lia | assumption]).
  assert (Hs0 : start (windowAt64 pd e 0) == 0) by apply (start64_zero pd).
  assert (Hcons : ws = windowAt64 pd e 0 :: map (windowAt64 pd e) (Zseq (0 + 1) m))
    by reflexivity.
  split; [unfold ws; rewrite length_map; apply Zseq_length|].
  split; [assumption|].
  split; [apply (kept_exactEnds pd e Hpd Re); solve [lia | assumption]|].
  split; [apply (kept_nonOverlapping pd e Hpd Re); solve [lia | assumption]|].
  split; [eexists; eexists; split; [exact Hcons | exact Hs0]|].
  split.
  { intros w Hw.
    apply (kept_positive pd e Hpd Re 0 (S m)) with (w := w); solve [lia | assumption]. }
  split.
  { unfold endsBetween. rewrite Hcons. cbv beta iota.
    rewrite <- Hcons, Hlast, Hend.
    pose proof (inject_Z_pos count ltac:(lia)) as Hnq.
    destruct (round_error (d / inject_Z count) ltac:(lra)) as [L U].
    fold (Double.div d (inject_Z count)) in L, U. fold pd in L, U.
    apply (Qmult_le_l _ _ (inject_Z count) Hnq) in L.
    apply (Qmult_le_l _ _ (inject_Z count) Hnq) in U.
    setoid_replace (inject_Z count * (d / inject_Z count * (1 - Double.eps)))
      with (d * (1 - Double.eps)) in L by (field; lra).
    setoid_replace (inject_Z count * (d / inject_Z count * (1 + Double.eps)))
      with (d * (1 + Double.eps)) in U by (field; lra).
    destruct (round_error (inject_Z count * pd)) as [L' U'].
    { apply Qmult_le_0_compat; [|lra].
      change 0 with (inject_Z 0). rewrite <- Zle_Qle. lia. }
    fold (Double.mul (inject_Z count) pd) in L', U'.
    fold (start64 pd count) in L', U'. fold e in L', U'.
    rewrite eps_value in *.
    set (P := inject_Z count * pd) in *. split; lra. }
  rewrite Hlast, Hend.
  rewrite Hcons in Hcont |- *.
  rewrite (sum_contiguous _ _ Hcont).
  rewrite <- Hcons, Hlast, Hend, Hs0. ring.
Qed.

Lemma partsOnly_timeline64_witness :
  let ws := PartsOnly.plan64 11 100 in
  List.length ws = Z.to_nat 11
  /\ contiguous ws /\ exactEnds ws /\ nonOverlapping ws /\ startsAtZero ws
  /\ (forall w, In w ws -> 0 < actualDuration w)
  /\ endsBetween ws (100 * (1 - Double.eps) * (1 - Double.eps))
       (100 * (1 + Double.eps) * (1 + Double.eps))
  /\ sumDurations ws == windowEnd (last ws (mkWindow 0 0 0)).
Proof.
  apply (partsOnly_timeline64 11 100); [lia | reflexivity].
Defined.

(** Eleven parts of 100 s end a rounding step after the duration. *)
Example partsOnly_overshoot :
  100 < windowEnd (last (PartsOnly.plan64 11 100) (mkWindow 0 0 0)).
Proof. reflexivity. Qed.

(** ** The percentage of a part *)

Lemma Math_round_unique (x : Q) (k : Z) :
  inject_Z k <= x + (1 # 2) -> x + (1 # 2) < inject_Z k + 1 ->
  JS.Math_round x = k.
Proof.
  intros L U. unfold JS.Math_round. apply Qfloor_unique; [assumption|].
  rewrite inject_Z_succ. assumption.
Qed.

(** The computed value of [(i / n) * 100] is within two roundings of the
    exact one. *)
Lemma percent_error (i n : Z) :
  (0 <= i)%Z -> (1 <= n)%Z ->
  let x := inject_Z i / inject_Z n * 100 in
  let y := Double.mul (Double.div (inject_Z i) (inject_Z n)) 100 in
  x * (1 - Double.eps) * (1 - Double.eps) <= y
  /\ y <= x * (1 + Double.eps) * (1 + Double.eps).
Proof.
  intros Hi Hn x y.
  pose proof (inject_Z_pos n Hn) as Hnq.
  assert (Ha : 0 <= inject_Z i / inject_Z n).
  { apply Qle_shift_div_l; [assumption|]. rewrite Qmult_0_l.
    change 0 with (inject_Z 0). rewrite <- Zle_Qle. assumption. }
  destruct (round_error _ Ha) as [L1 U1].
  fold (Double.div (inject_Z i) (inject_Z n)) in L1, U1.
  destruct eps_bounds as [E0 E1].
  set (a := inject_Z i / inject_Z n) in *.
  set (q := Double.div (inject_Z i) (inject_Z n)) in *.
  assert (Hq : 0 <= q * 100).
  { rewrite eps_value in *. lra. }
  destruct (round_error _ Hq) as [L2 U2].
  fold (Double.mul q 100) in L2, U2. fold y in L2, U2.
  unfold x. rewrite eps_value in *. split; lra.
Qed.

Lemma partPercent_spec (i n : Z) :
  (0 <= i < n)%Z -> (n <= 2 ^ 40)%Z ->
  let exact := JS.Math_round (inject_Z i / inject_Z n * 100) in
  (0 <= partPercent i n <= 100)%Z
  /\ (partPercent i n = exact
      \/ (partPercent i n = (exact - 1)%Z
          /\ inject_Z i / inject_Z n * 100 + (1 # 2) == inject_Z exact)).
Proof.
  intros Hi Hn exact.
  assert (Hn1 : (1 <= n)%Z) by lia.
  pose proof (inject_Z_pos n Hn1) as Hnq.
  destruct (percent_error i n ltac:(lia) Hn1) as [L U].
  set (x := inject_Z i / inject_Z n * 100) in *.
  set (y := Double.mul (Double.div (inject_Z i) (inject_Z n)) 100) in *.
  assert (Hx0 : 0 <= x).
  { unfold x. apply Qmult_le_0_compat; [|lra].
    apply Qle_shift_div_l; [assumption|]. rewrite Qmult_0_l.
    change 0 with (inject_Z 0). rewrite <- Zle_Qle. lia. }
  assert (Hx1 : x <= 100).
  { unfold x.
    assert (inject_Z i / inject_Z n <= 1).
    { apply Qle_shift_div_r; [assumption|]. rewrite Qmult_1_l.
      rewrite <- Zle_Qle. lia. }
    lra. }
  rewrite eps_value in L, U.
  (* the exact value plus one half, as a fraction over 2 n *)
  set (A := (200 * i + n)%Z). set (B := (2 * n)%Z).
  assert (HB : 0 < inject_Z B)
    by (change 0 with (inject_Z 0); rewrite <- Zlt_Qlt; unfold B; lia).
  assert (Ht : x + (1 # 2) == inject_Z A / inject_Z B).
  { unfold x, A, B. rewrite inject_Z_plus, !inject_Z_mult.
    change (inject_Z 200) with 200. change (inject_Z 2) with 2.
    field. lra. }
  assert (Hr : exact = (A / B)%Z).
  { unfold exact, JS.Math_round. fold x. rewrite Zdiv_Qdiv.
    apply Qfloor_comp. assumption. }
  pose proof (Z.div_mod A B ltac:(unfold B; lia)) as Hdm.
  pose proof (Z.mod_pos_bound A B ltac:(unfold B; lia)) as Hrem.
  set (rem := (A mod B)%Z) in *. rewrite <- Hr in Hdm.
  set (u := / inject_Z B).
  assert (Hu : inject_Z B * u == 1) by (unfold u; field; lra).
  assert (Hu0 : 0 < u) by (apply Qinv_lt_0_compat; assumption).
  assert (Hu1 : 1 # 2199023255552 <= u).
  { assert (inject_Z B <= inject_Z (2 ^ 41))
      by (rewrite <- Zle_Qle; unfold B; lia).
    change (inject_Z (2 ^ 41)) with 2199023255552 in H.
    assert (inject_Z B * u <= 2199023255552 * u)
      by (apply Qmult_le_r; assumption).
    lra. }
  assert (Hxt : x + (1 # 2) == inject_Z exact + inject_Z rem * u).
  { rewrite Ht. unfold Qdiv. fold u. rewrite Hdm.
    rewrite inject_Z_plus, inject_Z_mult.
    setoid_replace ((inject_Z B * inject_Z exact + inject_Z rem) * u)
      with (inject_Z exact * (inject_Z B * u) + inject_Z rem * u) by ring.
    rewrite Hu. ring. }
  assert (Hy0 : 0 <= y) by lra.
  assert (Hp0 : (0 <= partPercent i n)%Z).
  { unfold partPercent. fold y. unfold JS.Math_round.
    change 0%Z with (Qfloor 0). apply Qfloor_resp_le. lra. }
  assert (Hp100 : (partPercent i n <= 100)%Z).
  { unfold partPercent. fold y. unfold JS.Math_round.
    change 100%Z with (Qfloor (100 + (1 # 2))). apply Qfloor_resp_le.
    assert (Hy100 : y <= 100); [|lra].
    assert (Ha : 0 <= inject_Z i / inject_Z n).
    { apply Qle_shift_div_l; [assumption|]. rewrite Qmult_0_l.
      change 0 with (inject_Z 0). rewrite <- Zle_Qle. lia. }
    assert (Q1 : Double.div (inject_Z i) (inject_Z n) <= 1).
    { apply Qle_trans with (Double.round 1).
      - apply round_mono; [assumption|].
        apply Qle_shift_div_r; [assumption|]. rewrite Qmult_1_l.
        rewrite <- Zle_Qle. lia.
      - apply Qle_lteq. right. exact (round_Z 1 ltac:(lia)). }
    apply Qle_trans with (Double.round 100).
    - apply round_mono; [|lra].
      apply Qmult_le_0_compat; [|lra]. apply round_nonneg. assumption.
    - apply Qle_lteq. right. exact (round_Z 100 ltac:(lia)). }
  split; [lia|].
  destruct (Z.eq_dec rem 0) as [E|N].
  - rewrite E in Hxt. change (inject_Z 0) with 0 in Hxt.
    destruct (Qlt_le_dec y x) as [C|C].
    + right. split.
      * unfold partPercent. fold y. apply Math_round_unique;
          unfold Z.sub; rewrite inject_Z_plus, inject_Z_opp;
          change (inject_Z 1) with 1; lra.
      * rewrite Hxt. ring.
    + left. unfold partPercent. fold y. apply Math_round_unique; lra.
  - left. unfold partPercent. fold y.
    assert (R1 : u <= inject_Z rem * u).
    { setoid_replace u with (1 * u) at 1 by ring.
      apply Qmult_le_r; [assumption|].
      change 1 with (inject_Z 1). rewrite <- Zle_Qle. lia. }
    assert (R2 : inject_Z rem * u <= 1 - u).
    { setoid_replace (1 - u) with (inject_Z (B - 1) * u).
      - apply Qmult_le_r; [assumption|]. rewrite <- Zle_Qle. lia.
      - unfold Z.sub. rewrite inject_Z_plus, inject_Z_opp.
        change (inject_Z 1) with 1.
        setoid_replace ((inject_Z B + - 1) * u) with (inject_Z B * u - u)
          by ring.
        rewrite Hu. reflexivity. }
    apply Math_round_unique; lra.
Qed.

(* ================================================================= *)
(** * Properties of the rest of the component *)

(** ** [formatTime] *)

Lemma floor_div (x : Q) (n : Z) :
  (0 < n)%Z -> Qfloor (x / inject_Z n) = (Qfloor x / n)%Z.
Proof.
  intro Hn.
  assert (Hq : 0 < inject_Z n) by (apply inject_Z_pos; lia).
  pose proof (Qfloor_le x) as Hf. pose proof (Qlt_floor x) as Hg.
  set (t := Qfloor x) in *.
  pose proof (Z.div_mod t n ltac:(lia)) as Hdm.
  pose proof (Z.mod_pos_bound t n Hn) as Hr.
  apply Qfloor_unique.
  - apply Qle_shift_div_l; [assumption|].
    eapply Qle_trans; [|exact Hf].
    rewrite <- inject_Z_mult, <- Zle_Qle. lia.
  - apply Qlt_shift_div_r; [assumption|].
    eapply Qlt_le_trans; [exact Hg|].
    rewrite <- inject_Z_mult, <- Zle_Qle. lia.
Qed.

Lemma floor_sub (x : Q) (k : Z) : Qfloor (x - inject_Z k) = (Qfloor x - k)%Z.
Proof.
  pose proof (Qfloor_le x) as Hf. pose proof (Qlt_floor x) as Hg.
  apply Qfloor_unique.
  - unfold Zminus. rewrite inject_Z_plus, inject_Z_opp. lra.
  - replace (Qfloor x - k + 1)%Z with (Qfloor x + 1 + - k)%Z by lia.
    rewrite inject_Z_plus, inject_Z_opp. lra.
Qed.

(** On a non-negative dividend [%] by a positive whole number takes
    away the whole multiples. *)
Lemma jsRem_nonneg (x : Q) (n : Z) :
  0 <= x -> (0 < n)%Z ->
  jsRem x (inject_Z n) == x - inject_Z (n * (Qfloor x / n)).
Proof.
  intros Hx Hn. unfold jsRem, jsTrunc.
  assert (Hq : 0 < inject_Z n) by (apply inject_Z_pos; lia).
  assert (Hd : 0 <= x / inject_Z n).
  { apply Qle_shift_div_l; [assumption|]. rewrite Qmult_0_l. assumption. }
  apply ltb_false_iff in Hd. rewrite Hd.
  rewrite floor_div by assumption.
  rewrite inject_Z_mult. reflexivity.
Qed.

Lemma formatTime_numbers (seconds : Q) :
  0 <= seconds ->
  let t := Qfloor seconds in
  Math_floor (seconds / 3600) = (t / 3600)%Z
  /\ Math_floor (jsRem seconds 3600 / 60) = ((t mod 3600) / 60)%Z
  /\ Math_floor (jsRem seconds 60) = (t mod 60)%Z.
Proof.
  intros Hs t. unfold Math_floor.
  change 3600 with (inject_Z 3600). change 60 with (inject_Z 60).
  split; [apply floor_div; lia|]. split.
  - rewrite floor_div by lia.
    rewrite (Qfloor_comp _ _ (jsRem_nonneg seconds 3600 Hs ltac:(lia))).
    rewrite floor_sub. fold t. f_equal.
    rewrite Z.mod_eq by lia. reflexivity.
  - rewrite (Qfloor_comp _ _ (jsRem_nonneg seconds 60 Hs ltac:(lia))).
    rewrite floor_sub. fold t.
    rewrite Z.mod_eq by lia. reflexivity.
Qed.

(** X1: for a non-negative number of seconds [formatTime] shows the
    hours, minutes and seconds of [floor seconds]: the three numbers add
    up to it with minutes and seconds below 60; hours are shown from 3600
    seconds on, minutes from 60 seconds on, and below that only the
    seconds (so every duration under one second reads "0s"). *)
Theorem formatTime_hms (seconds : Q) :
  0 <= seconds ->
  let t := Qfloor seconds in
  let h := (t / 3600)%Z in
  let m := ((t mod 3600) / 60)%Z in
  let s := (t mod 60)%Z in
  (t = h * 3600 + m * 60 + s)%Z
  /\ (0 <= m < 60)%Z /\ (0 <= s < 60)%Z
  /\ formatTime seconds
     = (if (3600 <=? t)%Z
        then JS.toString h ++ "h " ++ JS.toString m ++ "m "
               ++ JS.toString s ++ "s"
        else if (60 <=? t)%Z
             then JS.toString m ++ "m " ++ JS.toString s ++ "s"
             else JS.toString s ++ "s")%string.
Proof.
  intros Hs t h m s.
  assert (Ht : (0 <= t)%Z).
  { unfold t. rewrite <- (Qfloor_Z 0). apply Qfloor_resp_le. assumption. }
  assert (Harith : (t = h * 3600 + m * 60 + s /\ 0 <= m < 60 /\ 0 <= s < 60)%Z).
  { subst h m s. Z.div_mod_to_equations. lia. }
  destruct Harith as (H1 & H2 & H3).
  split; [assumption|]. split; [assumption|]. split; [assumption|].
  unfold formatTime.
  destruct (formatTime_numbers seconds Hs) as (Eh & Em & Es).
  fold t in Eh, Em, Es. rewrite Eh, Em, Es. fold h m s.
  destruct (Qeq_bool seconds 0) eqn:E0.
  - apply Qeq_bool_iff in E0.
    assert (t = 0%Z) by (unfold t; rewrite (Qfloor_comp _ _ E0); reflexivity).
    subst h m s. rewrite H. reflexivity.
  - assert (Hh : (0 <? h)%Z = (3600 <=? t)%Z).
    { subst h. destruct (Z.leb_spec 3600 t); destruct (Z.ltb_spec 0 (t / 3600));
        try reflexivity; Z.div_mod_to_equations; lia. }
    rewrite Hh. destruct (Z.leb_spec 3600 t) as [Hbig|Hsmall]; [reflexivity|].
    assert (Hm : (0 <? m)%Z = (60 <=? t)%Z).
    { subst m. destruct (Z.leb_spec 60 t);
        destruct (Z.ltb_spec 0 (t mod 3600 / 60));
        try reflexivity; Z.div_mod_to_equations; lia. }
    rewrite Hm. reflexivity.
Qed.

Lemma formatTime_hms_witness :
  formatTime (7384 + (1 # 2)) = "2h 3m 4s"%string
  /\ formatTime (1 # 2) = "0s"%string.
Proof.
  split.
  - destruct (formatTime_hms (7384 + (1 # 2)) ltac:(discriminate))
      as (_ & _ & _ & H).
    rewrite H. reflexivity.
  - destruct (formatTime_hms (1 # 2) ltac:(discriminate)) as (_ & _ & _ & H).
    rewrite H. reflexivity.
Defined.

(** ** The split controls *)

Lemma Math_max_cases (a x : Q) :
  (a < x /\ Math_max a x = x) \/ (x <= a /\ Math_max a x = a).
Proof.
  unfold Math_max. destruct (JS.ltb a x) eqn:E.
  - left. split; [apply ltb_true_iff; assumption | reflexivity].
  - right. split; [apply ltb_false_iff; assumption | reflexivity].
Qed.

Lemma onGrid_initial : onGrid initialSettings.
Proof.
  split; [simpl; lia|]. split.
  - exists 10%Z. split; [reflexivity | split; [lia | now left]].
  - exists 6%Z. split; [reflexivity | lia].
Qed.

Lemma onClick_onGrid (cfg : Settings) (c : Control) :
  onGrid cfg -> onGrid (onClick cfg c).
Proof.
  intros (Hp & (k & Hk & Hk1 & Hk5) & (j & Hj & Hj1)).
  destruct c; unfold onGrid; cbn [onClick parts splitSize splitTime].
  - split; [lia|]. split; [exists k; tauto | exists j; tauto].
  - split; [lia|]. split; [exists k; tauto | exists j; tauto].
  - split; [assumption|]. split; [|exists j; split; assumption].
    destruct (Math_max_cases 1 (splitSize cfg - 5)) as [[Hlt ->]|[Hle ->]].
    + exists (k - 5)%Z.
      assert (E : splitSize cfg - 5 == inject_Z (k - 5)).
      { rewrite Hk. unfold Zminus. rewrite inject_Z_plus, inject_Z_opp.
        reflexivity. }
      rewrite E in Hlt. change 1 with (inject_Z 1) in Hlt.
      rewrite <- Zlt_Qlt in Hlt.
      split; [assumption|]. split; [lia|].
      replace (k - 5)%Z with (k + (-1) * 5)%Z by lia.
      rewrite Z.mod_add by lia. assumption.
    + exists 1%Z. split; [reflexivity | split; [lia | now right]].
  - split; [assumption|]. split; [|exists j; split; assumption].
    exists (k + 5)%Z. split; [|split; [lia|]].
    + rewrite Hk, inject_Z_plus. reflexivity.
    + replace (k + 5)%Z with (k + 1 * 5)%Z by lia.
      rewrite Z.mod_add by lia. assumption.
  - split; [assumption|]. split; [exists k; tauto|].
    destruct (Math_max_cases 10 (splitTime cfg - 10)) as [[Hlt ->]|[Hle ->]].
    + exists (j - 1)%Z.
      assert (E : splitTime cfg - 10 == inject_Z (10 * (j - 1))).
      { rewrite Hj. replace (10 * (j - 1))%Z with (10 * j + - (10))%Z by lia.
        rewrite inject_Z_plus, inject_Z_opp. reflexivity. }
      rewrite E in Hlt. change 10 with (inject_Z 10) in Hlt.
      rewrite <- Zlt_Qlt in Hlt.
      split; [assumption | lia].
    + exists 1%Z. split; [reflexivity | lia].
  - split; [assumption|]. split; [exists k; tauto|].
    exists (j + 1)%Z. split; [|lia].
    rewrite Hj. replace (10 * (j + 1))%Z with (10 * j + 10)%Z by lia.
    rewrite inject_Z_plus. reflexivity.
  - split; [assumption|]. split; [exists k; tauto | exists j; tauto].
  - split; [assumption|]. split; [exists k; tauto | exists j; tauto].
Qed.

Lemma click_onGrid (processing : bool) (cfg : Settings) (c : Control) :
  onGrid cfg -> onGrid (click processing cfg c).
Proof.
  intro H. unfold click.
  destruct (rendered cfg c && negb (disabled processing cfg c));
    [apply onClick_onGrid|]; assumption.
Qed.

Lemma clicks_onGrid (l : list (bool * Control)) :
  forall cfg, onGrid cfg -> onGrid (clicks cfg l).
Proof.
  induction l as [|pc l IH]; intros cfg H; [assumption|].
  apply IH, click_onGrid, H.
Qed.

Lemma onGrid_bounds (cfg : Settings) :
  onGrid cfg ->
  (2 <= parts cfg)%Z /\ 1 <= splitSize cfg /\ 10 <= splitTime cfg.
Proof.
  intros (Hp & (k & Hk & Hk1 & _) & (j & Hj & Hj1)).
  split; [assumption|]. split.
  - rewrite Hk. change 1 with (inject_Z 1). rewrite <- Zle_Qle. assumption.
  - rewrite Hj. change 10 with (inject_Z 10). rewrite <- Zle_Qle. lia.
Qed.

(** X2: whatever buttons are pressed, in whatever order, starting from
    the initial settings, the settings stay within the policy minimums
    (parts at least 2, size at least 1 MB, time at least 10 s) and on the
    counters' grid, so every split the interface can request has a valid
    specification. *)
Theorem controls_keep_minimums (l : list (bool * Control)) :
  let cfg := clicks initialSettings l in
  (2 <= parts cfg)%Z /\ 1 <= splitSize cfg /\ 10 <= splitTime cfg
  /\ onGrid cfg /\ validSpec cfg.
Proof.
  intro cfg.
  assert (Hg : onGrid cfg) by (apply clicks_onGrid, onGrid_initial).
  destruct (onGrid_bounds cfg Hg) as (Hp & Hs & Ht).
  repeat split; try assumption; try apply Hg.
  unfold validSpec. destruct (splitMode cfg); assumption.
Qed.

(** X3: on every reachable setting where the minus button is enabled,
    plus undoes minus for the parts counter and for the time counter; for
    the size counter it does so exactly when the size is at least 6 (from
    5 MB, minus gives 1 and plus then gives 6). *)
Theorem plus_after_minus (l : list (bool * Control)) :
  let cfg := clicks initialSettings l in
  (splitMode cfg = ModeParts -> disabled false cfg MinusParts = false ->
   parts (click false (click false cfg MinusParts) PlusParts) = parts cfg)
  /\ (splitMode cfg = ModeTime -> disabled false cfg MinusTime = false ->
      splitTime (click false (click false cfg MinusTime) PlusTime)
      == splitTime cfg)
  /\ (splitMode cfg = ModeSize -> disabled false cfg MinusSize = false ->
      (splitSize (click false (click false cfg MinusSize) PlusSize)
       == splitSize cfg
       <-> 6 <= splitSize cfg)).
Proof.
  intro cfg.
  assert (Hg : onGrid cfg) by (apply clicks_onGrid, onGrid_initial).
  destruct Hg as (Hp & _ & (j & Hj & Hj1)).
  split; [|split]; intros Hmode Hen; unfold click, rendered;
    rewrite Hmode; rewrite Hen;
    cbn [negb andb onClick splitMode disabled orb parts splitSize splitTime];
    rewrite Hmode;
    cbn [negb andb onClick splitMode disabled orb parts splitSize splitTime].
  - cbn [disabled orb] in Hen. apply Z.leb_gt in Hen. lia.
  - cbn [disabled orb] in Hen. apply leb_false_iff in Hen.
    assert (H20 : 20 <= splitTime cfg).
    { rewrite Hj in Hen |- *. change 10 with (inject_Z 10) in Hen.
      change 20 with (inject_Z 20).
      rewrite <- Zlt_Qlt in Hen. rewrite <- Zle_Qle. lia. }
    destruct (Math_max_cases 10 (splitTime cfg - 10)) as [[_ ->]|[Hle ->]].
    + ring.
    + lra.
  - destruct (Math_max_cases 1 (splitSize cfg - 5)) as [[Hlt ->]|[Hle ->]].
    + split; intro; [lra | ring].
    + split; intro H; lra.
Qed.

Lemma plus_after_minus_witness :
  let cfg := clicks initialSettings
               [(false, ModeButton ModeSize); (false, MinusSize)] in
  splitSize cfg == 5
  /\ ~ splitSize (click false (click false cfg MinusSize) PlusSize) == splitSize cfg
  /\ parts (click false (click false
                           (clicks initialSettings [(false, PlusParts)])
                           MinusParts) PlusParts) = 3%Z.
Proof.
  intro cfg. split; [reflexivity|]. split.
  - intro H.
    apply (proj2 (proj2 (plus_after_minus
                           [(false, ModeButton ModeSize); (false, MinusSize)]))
             eq_refl eq_refl) in H.
    apply H. reflexivity.
  - apply (proj1 (plus_after_minus [(false, PlusParts)]) eq_refl eq_refl).
Defined.

(** ** The estimate badge *)

(** X4: for a valid specification and a positive duration the number the
    "Est. Parts" badge shows in size mode and in time mode is the number
    of windows [splitMedia] plans; for a zero duration the badge still
    shows at least 1 while no window is planned. *)
Theorem estimate_is_exact (cfg : Settings) (file : File) (d : Q) :
  (validSpec cfg -> 0 < d ->
   forall n, estimatedParts cfg file d = Some n ->
             Z.of_nat (List.length (plan cfg (size file) d)) = n)
  /\ (d == 0 ->
      forall n, estimatedParts cfg file d = Some n ->
                (1 <= n)%Z /\ plan cfg (size file) d = []).
Proof.
  split.
  - intros Hv Hd n Hn. rewrite (plan_length cfg (size file) d Hv Hd).
    unfold estimatedParts in Hn.
    destruct (splitMode cfg) eqn:Hmode; [discriminate| |].
    + rewrite (planParams_size cfg (size file) d Hmode). cbn [fst].
      congruence.
    + rewrite (planParams_time cfg (size file) d Hmode). cbn [fst].
      congruence.
  - intros Hd n Hn. split; [|apply plan_zero; assumption].
    unfold estimatedParts in Hn.
    destruct (splitMode cfg); [discriminate| |]; injection Hn as <-; lia.
Qed.

Lemma estimate_is_exact_witness :
  let cfg := mkSettings ModeTime 2 10 30 Fast in
  let file := mkFile "talk.mp4" 5242880 "video/mp4" in
  Z.of_nat (List.length (plan cfg (size file) 95)) = 4%Z
  /\ (1 <= 1)%Z /\ plan cfg (size file) (0 # 3) = [].
Proof.
  intros cfg file. split.
  - apply (proj1 (estimate_is_exact cfg file 95)).
    + unfold validSpec; simpl. discriminate.
    + reflexivity.
    + reflexivity.
  - apply (proj2 (estimate_is_exact cfg file (0 # 3))).
    + reflexivity.
    + reflexivity.
Defined.

(** ** How a run begins and ends *)

Lemma quiet_not_processing (l : list Event) :
  Forall quiet l -> forall b, ~ In (SetProcessing b) l.
Proof.
  intros H b Hin. rewrite Forall_forall in H. exact (H _ Hin).
Qed.

(** Once the duration probe has settled, a call of [splitMedia] with a
    file resolves whatever the engine does: it sets [processing] first,
    resets it last and never in between. *)
Lemma settled_brackets
    (env : Env) (cfg : Settings) (file : File) (s0 : AppState) :
  fst (run env cfg (Some file) s0) = Returned tt
  /\ processing (finalState env cfg (Some file) s0) = false
  /\ (exists mid,
         runLog env cfg (Some file) s0
         = SetProcessing true :: mid ++ [SetProcessing false]
         /\ forall b, ~ In (SetProcessing b) mid)
  /\ run env cfg None s0 = (Returned tt, mkWorld s0 []).
Proof.
  split; [rewrite run_trace; reflexivity|].
  split.
  - rewrite finalState_trace. unfold mediaTrace, runTrace.
    rewrite app_assoc, replay_app. reflexivity.
  - split; [|reflexivity].
    rewrite runLog_trace. unfold mediaTrace, runTrace.
    match goal with
    | |- context [(_ ++ ?b ++ [SetProcessing false])] => set (body := b)
    end.
    exists ([SetError ""%string; SetResultFiles []; SetStatus StReading;
             WriteFile "input"] ++ body).
    split; [reflexivity|].
    intros b Hin. apply in_app_or in Hin. destruct Hin as [Hin|Hin].
    + cbn [In] in Hin.
      repeat (destruct Hin as [Hin|Hin]; [discriminate|]). contradiction.
    + subst body. destruct (writeFile env "input" file).
      * cbn [List.app In] in Hin. destruct Hin as [Hin|Hin]; [discriminate|].
        apply in_app_or in Hin. destruct Hin as [Hin|Hin].
        -- revert Hin. apply quiet_not_processing, loopTrace_quiet.
        -- destruct (loopResult env file (commandOf cfg file) _ []);
             cbn [In] in Hin;
             repeat (destruct Hin as [Hin|Hin]; [discriminate|]); contradiction.
      * cbn [In] in Hin.
        destruct Hin as [Hin|Hin]; [discriminate | contradiction].
Qed.

(** ** A call whose duration probe stays pending *)

(** When the metadata loads, or the input is rejected before the probe,
    the call is the one of [splitMedia]. *)
Lemma await_settles (metadataLoads : File -> bool) (env : Env) (cfg : Settings)
    (file : File) (w : World) :
  metadataLoads file = true \/ writeFile env "input" file = false ->
  splitMediaAwait metadataLoads env cfg (Some file) w
  = lift (splitMedia env cfg (Some file)) w.
Proof.
  intros H.
  unfold splitMediaAwait, splitMedia, bindA, lift, tryCatchFinallyA,
    tryCatchFinally, await, bind, setProcessing, setError, setResultFiles,
    setStatus, setProgress, ffmpeg_writeFile, effect, ret, throw.
  cbn [ui log fst snd].
  destruct (writeFile env "input" file) eqn:Hw.
  - destruct H as [H|H]; [|discriminate]. rewrite H.
    destruct (planParams cfg (size file) (getDuration env file)) as [cp cpd].
    cbv beta iota zeta delta [bind lift].
    match goal with
    | |- context [splitLoop ?a ?b ?c ?d ?e ?f ?g ?h ?i ?j ?k ?l] =>
        destruct (splitLoop a b c d e f g h i j k l) as [[outs|] w2]
    end; reflexivity.
  - reflexivity.
Qed.

(** When the input is written and the metadata never loads, the call
    stops at the probe. *)
Lemma await_pending (metadataLoads : File -> bool) (env : Env) (cfg : Settings)
    (file : File) (s0 : AppState) :
  metadataLoads file = false -> writeFile env "input" file = true ->
  runAwait metadataLoads env cfg (Some file) s0
  = (Pending,
     mkWorld (mkAppState true StAnalyzing (progress s0) [] "")
       [SetProcessing true; SetError ""; SetResultFiles [];
        SetStatus StReading; WriteFile "input"; SetStatus StAnalyzing]).
Proof.
  intros Hl Hw.
  unfold runAwait, splitMediaAwait, bindA, lift, tryCatchFinallyA, await, bind,
    setProcessing, setError, setResultFiles, setStatus, ffmpeg_writeFile,
    effect, ret, throw.
  cbn [ui log fst snd]. rewrite Hw, Hl. reflexivity.
Qed.

Lemma runAwait_settled (metadataLoads : File -> bool) (env : Env) (cfg : Settings)
    (file : File) (s0 : AppState) :
  metadataLoads file = true \/ writeFile env "input" file = false ->
  runAwait metadataLoads env cfg (Some file) s0
  = (Settled (fst (run env cfg (Some file) s0)), snd (run env cfg (Some file) s0)).
Proof.
  intro H. unfold runAwait. rewrite (await_settles _ _ _ _ _ H).
  unfold lift, run. destruct (splitMedia env cfg (Some file) _); reflexivity.
Qed.

Lemma settles_or_pending (metadataLoads : File -> bool) (env : Env) (file : File) :
  (writeFile env "input" file = true /\ metadataLoads file = false)
  \/ (metadataLoads file = true \/ writeFile env "input" file = false).
Proof.
  destruct (writeFile env "input" file), (metadataLoads file); auto.
Qed.

(** X5: a call of [splitMedia] with a file sets [processing] first.  It
    never settles exactly when the input was written and the metadata of
    the file never loads: the component then stays in the processing
    state under the status "Analyzing duration...", and neither the
    [catch] nor the [finally] block has run.  In every other case the
    call resolves, whatever the engine does, with [processing] reset last
    and never in between.  Without a file it does nothing at all. *)
Theorem splitMedia_brackets_processing
    (metadataLoads : File -> bool) (env : Env) (cfg : Settings) (file : File)
    (s0 : AppState) :
  let r := runAwait metadataLoads env cfg (Some file) s0 in
  (fst r = Pending
   <-> writeFile env "input" file = true /\ metadataLoads file = false)
  /\ (fst r = Pending ->
      ui (snd r) = mkAppState true StAnalyzing (progress s0) [] ""
      /\ log (snd r)
         = [SetProcessing true; SetError ""; SetResultFiles [];
            SetStatus StReading; WriteFile "input"; SetStatus StAnalyzing])
  /\ (fst r <> Pending ->
      fst r = Settled (Returned tt)
      /\ processing (ui (snd r)) = false
      /\ exists mid,
           log (snd r) = SetProcessing true :: mid ++ [SetProcessing false]
           /\ forall b, ~ In (SetProcessing b) mid)
  /\ runAwait metadataLoads env cfg None s0
     = (Settled (Returned tt), mkWorld s0 []).
Proof.
  intro r.
  destruct (settles_or_pending metadataLoads env file) as [[Hw Hl]|Hs].
  - unfold r. rewrite (await_pending _ _ _ _ _ Hl Hw). cbn [fst snd ui log].
    split; [tauto|]. split; [tauto|]. split; [congruence | reflexivity].
  - unfold r. rewrite (runAwait_settled _ _ _ _ _ Hs). cbn [fst snd].
    destruct (settled_brackets env cfg file s0) as (Hret & Hp & Hlog & _).
    split.
    { split; [discriminate|]. intros [Hw Hl].
      destruct Hs as [Hs|Hs]; congruence. }
    split; [discriminate|].
    split; [|reflexivity].
    intros _. rewrite Hret. split; [reflexivity|].
    split; [exact Hp | exact Hlog].
Qed.

Lemma splitMedia_brackets_processing_witness :
  let metadataLoads := fun _ : File => false in
  let env := mkEnv (fun _ _ => true) (fun _ => 100)
               (fun _ => ([], true)) (fun _ => Some []) in
  let cfg := mkSettings ModeParts 2 10 60 Fast in
  let file := mkFile "notes.txt" 1024 "text/plain" in
  let s0 := mkAppState false StEmpty 0 [] "" in
  let r := runAwait metadataLoads env cfg (Some file) s0 in
  fst r = Pending
  /\ ui (snd r) = mkAppState true StAnalyzing 0 [] ""
  /\ log (snd r)
     = [SetProcessing true; SetError ""; SetResultFiles [];
        SetStatus StReading; WriteFile "input"; SetStatus StAnalyzing].
Proof.
  intros metadataLoads env cfg file s0 r.
  destruct (splitMedia_brackets_processing metadataLoads env cfg file s0)
    as (Hiff & Hpend & _).
  assert (H : fst r = Pending) by (apply Hiff; split; reflexivity).
  split; [exact H | exact (Hpend H)].
Defined.

(** X6: nothing of the state before the call survives it, except the
    progress value: the final [processing], [status], [resultFiles] and
    [error] and the whole log are the same from any two starting states
    with the same [progress]. *)
Theorem no_stale_state
    (env : Env) (cfg : Settings) (file : File) (s0 : AppState) :
  finalState env cfg (Some file) s0
  = finalState env cfg (Some file)
      (mkAppState false StEmpty (progress s0) [] "")
  /\ runLog env cfg (Some file) s0
     = runLog env cfg (Some file)
         (mkAppState false StEmpty (progress s0) [] "").
Proof.
  split; [|rewrite !runLog_trace; reflexivity].
  rewrite !finalState_trace. unfold mediaTrace, runTrace.
  rewrite !replay_app. reflexivity.
Qed.

(** ** The two outcomes of a run *)

Lemma loopResult_all (env : Env) (file : File)
    (commandFor : Window -> list Arg) (ws : list Window) :
  forall outputs outputs',
    loopResult env file commandFor ws outputs = Some outputs' ->
    exists arts,
      outputs' = outputs ++ arts
      /\ Forall2 (fun w a => windowResult env file commandFor w = Some a) ws arts.
Proof.
  induction ws as [|w ws IH]; intros outputs outputs' H.
  - injection H as <-. exists []. split; [now rewrite app_nil_r | constructor].
  - cbn [loopResult] in H.
    destruct (windowResult env file commandFor w) as [a|] eqn:Ea; [|discriminate].
    destruct (IH _ _ H) as (arts & -> & HF).
    exists (a :: arts). split; [now rewrite <- app_assoc|].
    constructor; assumption.
Qed.

Lemma Forall2_delivered (env : Env) (file : File)
    (commandFor : Window -> list Arg) (ws : list Window) (arts : list Artifact) :
  Forall2 (fun w a => windowResult env file commandFor w = Some a) ws arts ->
  forall w, In w ws -> engineDelivers env (commandFor w) (outputOf file w).
Proof.
  induction 1 as [|w a ws arts Hw _ IH]; intros w' Hin; [contradiction|].
  destruct Hin as [<-|Hin]; [|apply IH; assumption].
  apply windowResult_ok. congruence.
Qed.

(** Once the duration probe has settled a run has two outcomes: the
    engine accepted everything, or something was rejected. *)
Lemma settled_outcomes
    (env : Env) (cfg : Settings) (file : File) (s0 : AppState) :
  let ws := plan cfg (size file) (getDuration env file) in
  let final := finalState env cfg (Some file) s0 in
  (writeFile env "input" file = true
   /\ (forall w, In w ws -> engineOK env cfg file w)
   /\ final = mkAppState false StDone 100 (resultFiles final) ""
   /\ List.length (resultFiles final) = List.length ws)
  \/ (~ (writeFile env "input" file = true
         /\ forall w, In w ws -> engineOK env cfg file w)
      /\ resultFiles final = []
      /\ error final = errorMessage
      /\ processing final = false).
Proof.
  intros ws final.
  destruct (writeFile env "input" file) eqn:Hw.
  - destruct (loopResult env file (commandOf cfg file) ws []) as [outputs|]
      eqn:Hres.
    + left.
      destruct (loopResult_all env file _ ws [] outputs Hres) as (arts & -> & HF).
      pose proof (Forall2_delivered env file _ ws arts HF) as Hok.
      split; [reflexivity|]. split; [exact Hok|].
      unfold final.
      rewrite (final_success env cfg file s0 _ Hw Hres).
      split; [reflexivity|].
      cbn [resultFiles List.app]. symmetry. eapply Forall2_length; eassumption.
    + right.
      destruct (final_failure env cfg file s0 (or_intror Hres)) as (Hp & Hr & He).
      split; [|repeat split; assumption].
      intros [_ Hok].
      destruct (loopResult_ok env file (commandOf cfg file) ws Hok [])
        as (arts & Hres' & _).
      fold ws in Hres. congruence.
  - right.
    destruct (final_failure env cfg file s0 (or_introl Hw)) as (Hp & Hr & He).
    split; [|repeat split; assumption].
    intros [H _]. discriminate.
Qed.

(** X7: a call has exactly three outcomes.  The input was written and the
    metadata never loads: the call never settles and the component stays
    processing under "Analyzing duration...", with neither results nor an
    error.  Or the metadata loads and the engine delivered every planned
    window: then the component ends in "Done!" with progress 100, no
    error and one artifact per planned window.  Or something was
    rejected: then the result list is empty and the error message is
    set.  Results and an error are never present together. *)
Theorem run_outcomes
    (metadataLoads : File -> bool) (env : Env) (cfg : Settings) (file : File)
    (s0 : AppState) :
  let ws := plan cfg (size file) (getDuration env file) in
  let r := runAwait metadataLoads env cfg (Some file) s0 in
  let final := ui (snd r) in
  (writeFile env "input" file = true
   /\ metadataLoads file = false
   /\ fst r = Pending
   /\ final = mkAppState true StAnalyzing (progress s0) [] "")
  \/ (writeFile env "input" file = true
      /\ metadataLoads file = true
      /\ (forall w, In w ws -> engineOK env cfg file w)
      /\ fst r = Settled (Returned tt)
      /\ final = mkAppState false StDone 100 (resultFiles final) ""
      /\ List.length (resultFiles final) = List.length ws)
  \/ ((writeFile env "input" file = false
       \/ (metadataLoads file = true
           /\ ~ forall w, In w ws -> engineOK env cfg file w))
      /\ fst r = Settled (Returned tt)
      /\ resultFiles final = []
      /\ error final = errorMessage
      /\ processing final = false).
Proof.
  intros ws r final.
  destruct (settles_or_pending metadataLoads env file) as [[Hw Hl]|Hs].
  - left. unfold final, r. rewrite (await_pending _ _ _ _ _ Hl Hw).
    cbn [fst snd ui]. auto.
  - right. unfold final, r. rewrite (runAwait_settled _ _ _ _ _ Hs).
    cbn [fst snd].
    destruct (settled_brackets env cfg file s0) as (Hret & _).
    rewrite Hret.
    destruct (settled_outcomes env cfg file s0)
      as [(Hw & Hok & Hfin & Hlen)|(Hrej & Hr & He & Hp)].
    + left. destruct Hs as [Hs|Hs]; [|congruence].
      split; [exact Hw|]. split; [exact Hs|]. split; [exact Hok|].
      split; [reflexivity|]. split; [exact Hfin | exact Hlen].
    + right.
      split; [|split; [reflexivity|]; split; [exact Hr|]; split;
               [exact He | exact Hp]].
      destruct (writeFile env "input" file) eqn:Hw; [|left; reflexivity].
      right. destruct Hs as [Hs|Hs]; [|discriminate].
      split; [assumption|]. intro Hok. apply Hrej.
      split; [reflexivity | exact Hok].
Qed.

(** X8: every artifact a run leaves is the file the engine wrote for the
    planned window at the same position: the engine accepted that
    window's command, the blob holds the bytes [readFile] returned for
    the artifact's own name, and its MIME type is the input file's. *)
Theorem artifact_contents
    (env : Env) (cfg : Settings) (file : File) (s0 : AppState)
    (i : nat) (a : Artifact) :
  nth_error (resultFiles (finalState env cfg (Some file) s0)) i = Some a ->
  exists w data,
    nth_error (plan cfg (size file) (getDuration env file)) i = Some w
    /\ snd (exec env (commandOf cfg file w)) = true
    /\ artName a = outputOf file w
    /\ readFile env (artName a) = Some data
    /\ artUrl a = mkBlob data (type file).
Proof.
  set (ws := plan cfg (size file) (getDuration env file)).
  intro H.
  destruct (writeFile env "input" file) eqn:Hw.
  - destruct (loopResult env file (commandOf cfg file) ws []) as [outputs|]
      eqn:Hres.
    + rewrite (final_success env cfg file s0 _ Hw Hres) in H.
      cbn [resultFiles] in H.
      destruct (loopResult_all env file _ ws [] outputs Hres) as (arts & -> & HF).
      cbn [List.app] in H.
      clear Hres. revert i H.
      induction HF as [|w a' ws' arts' Hw' _ IH]; intros i H.
      * destruct i; discriminate.
      * destruct i as [|i]; [|apply IH; assumption].
        injection H as ->. exists w.
        unfold windowResult in Hw'.
        destruct (snd (exec env (commandOf cfg file w))) eqn:Ex; [|discriminate].
        destruct (readFile env (outputOf file w)) as [data|] eqn:Er;
          [|discriminate].
        injection Hw' as <-. exists data. cbn [artName artUrl].
        repeat split; assumption.
    + destruct (final_failure env cfg file s0 (or_intror Hres)) as (_ & Hr & _).
      rewrite Hr in H. destruct i; discriminate.
  - destruct (final_failure env cfg file s0 (or_introl Hw)) as (_ & Hr & _).
    rewrite Hr in H. destruct i; discriminate.
Qed.

Lemma artifact_contents_witness :
  let env := mkEnv (fun _ _ => true) (fun _ => 100)
               (fun _ => ([], true))
               (fun path => Some (list_byte_of_string path)) in
  let cfg := mkSettings ModeParts 2 10 60 Fast in
  let file := mkFile "talk.mp4" 5242880 "video/mp4" in
  let s0 := mkAppState false StEmpty 0 [] "" in
  let a := mkArtifact "2_talk_2.mp4"
             (mkBlob (list_byte_of_string "2_talk_2.mp4") "video/mp4") in
  exists w data,
    nth_error (plan cfg (size file) (getDuration env file)) 1 = Some w
    /\ snd (exec env (commandOf cfg file w)) = true
    /\ artName a = outputOf file w
    /\ readFile env (artName a) = Some data
    /\ artUrl a = mkBlob data (type file).
Proof.
  intros env cfg file s0 a.
  apply (artifact_contents env cfg file s0 1 a). reflexivity.
Defined.

(** ** Distinct output names *)

Lemma to_int_proper (z : Z) :
  Z.to_int z <> Decimal.Pos Decimal.Nil /\ Z.to_int z <> Decimal.Neg Decimal.Nil.
Proof.
  destruct z as [|p|p]; cbn [Z.to_int]; split; try discriminate;
    intro H; injection H as H;
    exact (DecimalPos.Unsigned.to_uint_nonnil p H).
Qed.

(** Decimal printing is injective. *)
Lemma toString_inj (a b : Z) : JS.toString a = JS.toString b -> a = b.
Proof.
  unfold JS.toString. intro H.
  apply (f_equal NilZero.int_of_string) in H.
  destruct (to_int_proper a) as [Ha1 Ha2].
  destruct (to_int_proper b) as [Hb1 Hb2].
  rewrite !NilZero.isi in H by assumption.
  injection H as H. apply DecimalZ.to_int_inj. exact H.
Qed.

Lemma uint_no_underscore (d : Decimal.uint) :
  hasUnderscore (NilEmpty.string_of_uint d) = false.
Proof. induction d; cbn; assumption || reflexivity. Qed.

Lemma toString_no_underscore (z : Z) : hasUnderscore (JS.toString z) = false.
Proof.
  unfold JS.toString, NilZero.string_of_int, NilZero.string_of_uint.
  destruct (Z.to_int z) as [d|d]; destruct d;
    try reflexivity;
    first [ apply (uint_no_underscore (Decimal.D0 d))
          | apply (uint_no_underscore (Decimal.D1 d))
          | apply (uint_no_underscore (Decimal.D2 d))
          | apply (uint_no_underscore (Decimal.D3 d))
          | apply (uint_no_underscore (Decimal.D4 d))
          | apply (uint_no_underscore (Decimal.D5 d))
          | apply (uint_no_underscore (Decimal.D6 d))
          | apply (uint_no_underscore (Decimal.D7 d))
          | apply (uint_no_underscore (Decimal.D8 d))
          | apply (uint_no_underscore (Decimal.D9 d)) ].
Qed.

Lemma beforeUnderscore_app (p r : string) :
  hasUnderscore p = false ->
  beforeUnderscore (p ++ String "_" r)%string = p.
Proof.
  induction p as [|c p IH]; intro H; [reflexivity|].
  cbn [hasUnderscore] in H. cbn [String.append beforeUnderscore].
  destruct (Ascii.eqb c "_"); [discriminate|].
  rewrite (IH H). reflexivity.
Qed.

(** The index can be read back from an output name. *)
Lemma outputName_inj (i j : Z) (b b' e e' : string) :
  outputName i b e = outputName j b' e' -> i = j.
Proof.
  unfold outputName. intro H.
  apply (f_equal beforeUnderscore) in H.
  change (JS.toString (i + 1) ++ "_" ++ b ++ "_" ++ JS.toString (i + 1)
            ++ "." ++ e)%string
    with (JS.toString (i + 1)
            ++ String "_" (b ++ "_" ++ JS.toString (i + 1) ++ "." ++ e))%string
    in H.
  change (JS.toString (j + 1) ++ "_" ++ b' ++ "_" ++ JS.toString (j + 1)
            ++ "." ++ e')%string
    with (JS.toString (j + 1)
            ++ String "_" (b' ++ "_" ++ JS.toString (j + 1) ++ "." ++ e'))%string
    in H.
  rewrite !beforeUnderscore_app in H by apply toString_no_underscore.
  apply toString_inj in H. lia.
Qed.

(** X9: no two windows of a plan get the same output name, so no command
    of a run overwrites the output of another, and no two artifacts of a
    result list share a name. *)
Theorem output_names_distinct
    (env : Env) (cfg : Settings) (file : File) (s0 : AppState) :
  NoDup (map (outputOf file) (plan cfg (size file) (getDuration env file)))
  /\ NoDup (map artName (resultFiles (finalState env cfg (Some file) s0))).
Proof.
  split.
  - apply NoDup_nth_error. intros i j Hi Heq.
    destruct (nth_error (map (outputOf file) _) i) as [n|] eqn:Ei;
      [|apply nth_error_None in Ei; lia].
    symmetry in Heq.
    rewrite nth_error_map in Ei, Heq.
    destruct (nth_error (plan cfg (size file) (getDuration env file)) i)
      as [wi|] eqn:Ewi; [|discriminate].
    destruct (nth_error (plan cfg (size file) (getDuration env file)) j)
      as [wj|] eqn:Ewj; [|discriminate].
    injection Ei as Ei. injection Heq as Heq.
    unfold outputOf in Ei, Heq.
    rewrite (plan_index _ _ _ _ _ Ewi) in Ei.
    rewrite (plan_index _ _ _ _ _ Ewj) in Heq.
    rewrite <- Ei in Heq. apply outputName_inj in Heq. lia.
  - apply NoDup_nth_error. intros i j Hi Heq.
    destruct (nth_error (map artName _) i) as [n|] eqn:Ei;
      [|apply nth_error_None in Ei; lia].
    symmetry in Heq.
    rewrite nth_error_map in Ei, Heq.
    destruct (nth_error (resultFiles (finalState env cfg (Some file) s0)) i)
      as [ai|] eqn:Eai; [|discriminate].
    destruct (nth_error (resultFiles (finalState env cfg (Some file) s0)) j)
      as [aj|] eqn:Eaj; [|discriminate].
    injection Ei as Ei. injection Heq as Heq.
    rewrite (artifact_names env cfg file s0 i ai Eai) in Ei.
    rewrite (artifact_names env cfg file s0 j aj Eaj) in Heq.
    rewrite <- Ei in Heq. apply outputName_inj in Heq. lia.
Qed.

(** ** The re-encoding command *)



(** ** What drives the progress bar *)

(** C7: the percentage of a part goes into the status text.  With a
    valid specification and a positive duration, the status shown on
    entering window [i] of the [N] planned windows carries
    [Math.round((i / N) * 100)] as the program computes it on binary64
    values, for every window the run enters (all [N] of them when the
    engine delivers every window).  That value lies between 0 and 100
    and is [round (i / N * 100)], except that it can be one less when
    [i / N * 100] lies exactly halfway between two integers.  A
    successful two-part run shows "(0%)" and "(50%)" in its two window
    statuses and ends with progress 100; the values [setProgress]
    receives are those of the engine's own callbacks, followed by
    100. *)
Theorem progress_reports :
  (forall (env : Env) (cfg : Settings) (file : File) (s0 : AppState),
      validSpec cfg -> 0 < getDuration env file ->
      let ws := plan cfg (size file) (getDuration env file) in
      let N := Z.of_nat (List.length ws) in
      exists m,
        (m <= List.length ws)%nat
        /\ splittingStatuses (runLog env cfg (Some file) s0)
           = map (fun i => StSplitting (i + 1) N (partPercent i N)) (Zseq 0 m)
        /\ (writeFile env "input" file = true ->
            (forall w, In w ws -> engineOK env cfg file w) ->
            m = List.length ws))
  /\ (forall i N : Z,
         (0 <= i < N)%Z -> (N <= 2 ^ 40)%Z ->
         let exact := JS.Math_round (inject_Z i / inject_Z N * 100) in
         (0 <= partPercent i N <= 100)%Z
         /\ (partPercent i N = exact
             \/ (partPercent i N = (exact - 1)%Z
                 /\ inject_Z i / inject_Z N * 100 + (1 # 2) == inject_Z exact)))
  /\ (forall (env : Env) (cfg : Settings) (file : File) (s0 : AppState),
         isParts cfg 2 -> 0 < getDuration env file ->
         writeFile env "input" file = true ->
         (forall w, In w (plan cfg (size file) (getDuration env file)) ->
                    engineOK env cfg file w) ->
         map renderStatus (splittingStatuses (runLog env cfg (Some file) s0))
         = ["Splitting part 1 of 2... (0%)";
            "Splitting part 2 of 2... (50%)"]%string
         /\ progress (finalState env cfg (Some file) s0) = 100%Z
         /\ progressSets (runLog env cfg (Some file) s0)
            = flat_map (fun w => engineProgress
                                   (fst (exec env (commandOf cfg file w))))
                (plan cfg (size file) (getDuration env file))
                ++ [100%Z]).
Proof.
  split; [|split].
  - intros env cfg file s0 Hv Hd ws N.
    rewrite statuses_media. fold ws.
    destruct (writeFile env "input" file).
    + destruct (enteredWindows_prefix env file (commandOf cfg file) ws)
        as (m & Hm & Hent).
      exists m. split; [assumption|]. split.
      * rewrite Hent. apply (statuses_of_plan env cfg file Hv Hd m Hm).
      * intros _ Hok.
        destruct (loopResult_ok env file (commandOf cfg file) ws Hok [])
          as (_ & _ & _ & Hall).
        rewrite Hall in Hent. apply firstn_all_length; [assumption | now symmetry].
    + exists 0%nat. split; [lia|]. split; [reflexivity | discriminate].
  - intros i N Hi HN. apply partPercent_spec; assumption.
  - intros env cfg file s0 [Hmode Hcount] Hd Hw Hok.
    assert (Hv : validSpec cfg)
      by (unfold validSpec; rewrite Hmode, Hcount; lia).
    destruct (loopResult_ok env file (commandOf cfg file) _ Hok [])
      as (arts & Hres & _ & Hent).
    split; [|split].
    + rewrite statuses_media, Hw, Hent.
      rewrite plan_covers by assumption.
      rewrite planParams_parts by assumption. rewrite Hcount.
      reflexivity.
    + rewrite (final_success env cfg file s0 _ Hw Hres). reflexivity.
    + rewrite runLog_trace. unfold mediaTrace.
      rewrite progressSets_run, Hw, Hres, Hent. reflexivity.
Qed.

Lemma progress_reports_witness :
  let env := mkEnv (fun _ _ => true) (fun _ => 120)
               (fun _ => ([OnProgress (1 # 2); OnProgress 1], true))
               (fun _ => Some []) in
  let cfg := mkSettings ModeParts 2 10 60 Compatible in
  let file := mkFile "talk.mp4" 5242880 "video/mp4" in
  let s0 := mkAppState false StEmpty 0 [] "" in
  map renderStatus (splittingStatuses (runLog env cfg (Some file) s0))
  = ["Splitting part 1 of 2... (0%)"; "Splitting part 2 of 2... (50%)"]%string
  /\ progress (finalState env cfg (Some file) s0) = 100%Z
  /\ progressSets (runLog env cfg (Some file) s0)
     = flat_map (fun w => engineProgress
                            (fst (exec env (commandOf cfg file w))))
         (plan cfg (size file) (getDuration env file))
         ++ [100%Z].
Proof.
  intros env cfg file s0.
  apply (proj2 (proj2 progress_reports) env cfg file s0).
  - split; reflexivity.
  - reflexivity.
  - reflexivity.
  - intros w _. split; [reflexivity | discriminate].
Defined.

(** The claim's percentage fails where binary64 rounding moves the
    product off the halfway point, and its progress sequence fails when
    the engine reports progress of its own: in a 40-part run the status
    of part 24 shows 57, not [round (23 / 40 * 100) = 58]; a two-part
    run whose engine reports one half and one for every command passes
    50, 100, 50, 100, 100 to [setProgress]. *)
Lemma percent_rounded_down :
  let env := mkEnv (fun _ _ => true) (fun _ => 400)
               (fun _ => ([OnProgress (1 # 2); OnProgress 1], true))
               (fun _ => Some []) in
  let file := mkFile "talk.mp4" 5242880 "video/mp4" in
  let s0 := mkAppState false StEmpty 0 [] "" in
  let forty := mkSettings ModeParts 40 10 60 Fast in
  let two := mkSettings ModeParts 2 10 60 Fast in
  nth_error (splittingStatuses (runLog env forty (Some file) s0)) 23
  = Some (StSplitting 24 40 57)
  /\ JS.Math_round (inject_Z 23 / inject_Z 40 * 100) = 58%Z
  /\ progressSets (runLog env two (Some file) s0) = [50; 100; 50; 100; 100]%Z
  /\ progressSets (runLog env two (Some file) s0) <> [0; 50; 100]%Z.
Proof.
  split; [vm_compute; reflexivity|]. split; [reflexivity|].
  split; [vm_compute; reflexivity|]. vm_compute. discriminate.
Qed.

(** X11: the progress bar is driven by the engine alone.  Every value
    [setProgress] receives during a run is one the ['progress'] listener
    computed from a callback of a planned window's command, or the final
    100; the percentage of the loop ([Math.round((i / N) * 100)]) goes to
    the status text only.  In a run where everything is delivered the values
    are those of the engine, window by window, followed by 100. *)
Theorem progress_is_engine_driven
    (env : Env) (cfg : Settings) (file : File) (s0 : AppState) :
  let ws := plan cfg (size file) (getDuration env file) in
  (forall p, In p (progressSets (runLog env cfg (Some file) s0)) ->
             p = 100%Z
             \/ exists w, In w ws
                          /\ In p (engineProgress
                                     (fst (exec env (commandOf cfg file w)))))
  /\ (writeFile env "input" file = true ->
      (forall w, In w ws -> engineOK env cfg file w) ->
      progressSets (runLog env cfg (Some file) s0)
      = flat_map (fun w => engineProgress
                             (fst (exec env (commandOf cfg file w)))) ws
          ++ [100%Z]).
Proof.
  intro ws. rewrite runLog_trace. unfold mediaTrace. fold ws.
  rewrite progressSets_run. split.
  - intros p Hin. destruct (writeFile env "input" file); [|contradiction].
    apply in_app_or in Hin. destruct Hin as [Hin|Hin].
    + right. apply in_flat_map in Hin. destruct Hin as (w & Hw & Hp).
      exists w. split; [|assumption].
      eapply enteredWindows_incl; eassumption.
    + left. destruct (loopResult env file (commandOf cfg file) ws []);
        [destruct Hin as [<-|[]]; reflexivity | contradiction].
  - intros Hw Hok. rewrite Hw.
    destruct (loopResult_ok env file (commandOf cfg file) ws Hok [])
      as (arts & -> & _ & ->).
    reflexivity.
Qed.

(** The listener rounds the product to binary64 before [Math.round]: a
    callback with 0.015 shows 2, although the binary64 value passed,
    times 100, lies below 1.5. *)
Example listener_rounds_product :
  callbackPercent (15 # 1000) = 2%Z
  /\ Double.round (15 # 1000) * 100 < 3 # 2
  /\ JS.Math_round (Double.round (15 # 1000) * 100) = 1%Z.
Proof. vm_compute. repeat split. Qed.

Lemma progress_is_engine_driven_witness :
  let env := mkEnv (fun _ _ => true) (fun _ => 120)
               (fun _ => ([OnProgress (1 # 3); OnLog "frame error";
                           OnProgress 1], true))
               (fun _ => Some []) in
  let cfg := mkSettings ModeParts 2 10 60 Compatible in
  let file := mkFile "talk.mp4" 5242880 "video/mp4" in
  let s0 := mkAppState false StEmpty 0 [] "" in
  progressSets (runLog env cfg (Some file) s0) = [33; 100; 33; 100; 100]%Z.
Proof.
  intros env cfg file s0.
  rewrite (proj2 (progress_is_engine_driven env cfg file s0)).
  - reflexivity.
  - reflexivity.
  - intros w _. split; [reflexivity | discriminate].
Defined.

(** ** Zero duration in the parts-only revision *)

Lemma partsOnly_zero_window (d : Q) (parts i : Z) :
  d == 0 ->
  start (PartsOnly.windowAt (d / inject_Z parts) i) == 0
  /\ actualDuration (PartsOnly.windowAt (d / inject_Z parts) i) == 0.
Proof.
  intro Hd. unfold PartsOnly.windowAt; cbn [start actualDuration].
  assert (E : d / inject_Z parts == 0).
  { rewrite Hd. unfold Qdiv. apply Qmult_0_l. }
  rewrite E. split; ring.
Qed.

(** X12: the parts-only revision has no guard for a zero duration: it
    still plans [parts] windows, each starting at 0 with duration 0, and
    when the engine delivers them the run sends [parts] commands and
    ends as a success with [parts] artifacts. *)
Theorem partsOnly_zero_duration
    (env : Env) (parts : Z) (file : File) (s0 : AppState) :
  getDuration env file == 0 ->
  let ws := PartsOnly.plan parts (getDuration env file) in
  let final := snd (PartsOnly.run env parts (Some file) s0) in
  List.length ws = Z.to_nat parts
  /\ (forall w, In w ws -> start w == 0 /\ actualDuration w == 0)
  /\ (writeFile env "input" file = true ->
      (forall w, In w ws ->
                 engineDelivers env (partsOnlyCommandOf file w) (outputOf file w)) ->
      List.length (execs (log final)) = Z.to_nat parts
      /\ List.length (resultFiles (ui final)) = Z.to_nat parts
      /\ error (ui final) = ""%string
      /\ status (ui final) = StDone).
Proof.
  intros Hd ws final.
  assert (Hlen : List.length ws = Z.to_nat parts).
  { unfold ws. rewrite partsOnly_plan_map, length_map. apply Zseq_length. }
  split; [assumption|]. split.
  - intros w Hin. unfold ws in Hin. rewrite partsOnly_plan_map in Hin.
    apply in_map_iff in Hin. destruct Hin as (i & <- & _).
    apply partsOnly_zero_window; assumption.
  - intros Hw Hok. unfold final.
    rewrite partsOnly_log, partsOnly_ui. unfold partsOnlyTrace. fold ws.
    destruct (loopResult_ok env file (partsOnlyCommandOf file) ws Hok [])
      as (arts & Hres & Hn & Hent).
    rewrite execs_run, Hw, Hent, length_map.
    rewrite (replay_success env file _ _ ws s0 _ Hw Hres).
    cbn [resultFiles error status List.app].
    split; [assumption|]. split; [|split; reflexivity].
    rewrite <- Hlen, <- (length_map artName), Hn, length_map. reflexivity.
Qed.

Lemma partsOnly_zero_duration_witness :
  let env := mkEnv (fun _ _ => true) (fun _ => 0)
               (fun _ => ([], true)) (fun _ => Some []) in
  let file := mkFile "talk.mp4" 5242880 "video/mp4" in
  let s0 := mkAppState false StEmpty 0 [] "" in
  let final := snd (PartsOnly.run env 3 (Some file) s0) in
  List.length (execs (log final)) = 3%nat
  /\ List.length (resultFiles (ui final)) = 3%nat
  /\ error (ui final) = ""%string
  /\ status (ui final) = StDone.
Proof.
  intros env file s0 final.
  apply (partsOnly_zero_duration env 3 file s0).
  - reflexivity.
  - reflexivity.
  - intros w _. split; [reflexivity | discriminate].
Defined.

(** ** The component around a run *)

Lemma startSplitting_success
    (env : Env) (c : UI.Component) (f : File) (outputs : list Artifact) :
  UI.file c = Some f ->
  writeFile env "input" f = true ->
  loopResult env f (commandOf (UI.settings c) f)
    (plan (UI.settings c) (size f) (getDuration env f)) [] = Some outputs ->
  UI.startSplitting env c
  = UI.mkComponent (UI.loaded c) (Some f) (UI.settings c) false "Done!" 100
      outputs "" (UI.fileDuration c) (UI.isDragging c).
Proof.
  intros Hf Hw Hres. unfold UI.startSplitting. rewrite Hf.
  rewrite (final_success env (UI.settings c) f (UI.cells c) outputs Hw Hres).
  reflexivity.
Qed.

Lemma startSplitting_failure (env : Env) (c : UI.Component) (f : File) :
  UI.file c = Some f ->
  writeFile env "input" f = false
  \/ loopResult env f (commandOf (UI.settings c) f)
       (plan (UI.settings c) (size f) (getDuration env f)) [] = None ->
  exists text value,
    UI.startSplitting env c
    = UI.mkComponent (UI.loaded c) (Some f) (UI.settings c) false text value
        [] errorMessage (UI.fileDuration c) (UI.isDragging c).
Proof.
  intros Hf Hfail. unfold UI.startSplitting. rewrite Hf.
  destruct (final_failure env (UI.settings c) f (UI.cells c) Hfail)
    as (Hp & Hr & He).
  destruct (finalState env (UI.settings c) (Some f) (UI.cells c))
    as [p st pr r e].
  cbn in Hp, Hr, He. subst p r e.
  exists (renderStatus st), pr. reflexivity.
Qed.

(** The engine accepts the whole plan exactly when the loop returns its
    artifacts. *)
Lemma accepted_iff (env : Env) (cfg : Settings) (f : File) (ws : list Window) :
  (forall w, In w ws -> engineOK env cfg f w)
  <-> loopResult env f (commandOf cfg f) ws [] <> None.
Proof.
  split.
  - intro Hok.
    destruct (loopResult_ok env f (commandOf cfg f) ws Hok []) as (arts & -> & _).
    discriminate.
  - intros Hres.
    destruct (loopResult env f (commandOf cfg f) ws []) as [outputs|] eqn:E;
      [|congruence].
    destruct (loopResult_all env f _ ws [] outputs E) as (arts & _ & HF).
    exact (Forall2_delivered env f _ ws arts HF).
Qed.

(** What the user sees after a run whose duration probe has settled. *)
Lemma view_after_settled (env : Env) (c : UI.Component) (f : File) :
  UI.loaded c = true -> UI.file c = Some f ->
  let c' := UI.startSplitting env c in
  let ws := plan (UI.settings c) (size f) (getDuration env f) in
  let accepted :=
    writeFile env "input" f = true
    /\ forall w, In w ws -> engineOK env (UI.settings c) f w in
  UI.showProgress c' = false
  /\ (UI.showError c' = true <-> ~ accepted)
  /\ (UI.showResults c' = true <-> accepted /\ ws <> [])
  /\ UI.showStart c' = negb (UI.showResults c')
  /\ UI.startEnabled c' = true
  /\ (UI.showResults c' = true ->
      map snd (UI.downloadAll c') = map (outputOf f) ws).
Proof.
  intros Hl Hf c' ws accepted.
  destruct (writeFile env "input" f) eqn:Hw.
  - destruct (loopResult env f (commandOf (UI.settings c) f) ws []) as [outputs|]
      eqn:Hres.
    + assert (Hacc : accepted).
      { split; [reflexivity|]. apply accepted_iff. fold ws. congruence. }
      destruct (loopResult_ok env f (commandOf (UI.settings c) f) ws
                  (proj2 Hacc) []) as (arts & Hres' & Hnames & _).
      rewrite Hres in Hres'. injection Hres' as ->. cbn [List.app] in Hres.
      assert (Hlen : List.length arts = List.length ws).
      { rewrite <- (length_map artName arts), Hnames. apply length_map. }
      unfold c'. rewrite (startSplitting_success env c f arts Hf Hw Hres).
      unfold UI.showProgress, UI.showError, UI.showResults, UI.showStart,
        UI.startEnabled, UI.downloadAll.
      cbn [UI.loaded UI.processing UI.error UI.resultFiles UI.file].
      rewrite Hl, Hlen. cbn [andb negb String.eqb].
      split; [reflexivity|]. split; [split; [discriminate | tauto]|].
      split.
      { split.
        - intro H. split; [assumption|]. intro E. rewrite E in H. discriminate.
        - intros [_ H]. destruct ws; [congruence | reflexivity]. }
      split; [destruct (List.length ws); reflexivity|].
      split; [reflexivity|].
      intros _. rewrite <- Hnames, map_map. reflexivity.
    + assert (Hrej : ~ accepted).
      { intros [_ Hok]. apply accepted_iff in Hok. fold ws in Hres. congruence. }
      destruct (startSplitting_failure env c f Hf (or_intror Hres))
        as (text & value & E).
      unfold c'. rewrite E.
      unfold UI.showProgress, UI.showError, UI.showResults, UI.showStart,
        UI.startEnabled, UI.downloadAll.
      cbn [UI.loaded UI.processing UI.error UI.resultFiles UI.file List.length].
      rewrite Hl. cbn.
      split; [reflexivity|]. split; [tauto|].
      split; [split; [discriminate | tauto]|].
      split; [reflexivity|]. split; [reflexivity | discriminate].
  - assert (Hrej : ~ accepted) by (intros [H _]; discriminate).
    destruct (startSplitting_failure env c f Hf (or_introl Hw))
      as (text & value & E).
    unfold c'. rewrite E.
    unfold UI.showProgress, UI.showError, UI.showResults, UI.showStart,
      UI.startEnabled, UI.downloadAll.
    cbn [UI.loaded UI.processing UI.error UI.resultFiles UI.file List.length].
    rewrite Hl. cbn.
    split; [reflexivity|]. split; [tauto|].
    split; [split; [discriminate | tauto]|].
    split; [reflexivity|]. split; [reflexivity | discriminate].
Qed.

Lemma startSplittingAwait_settled (metadataLoads : File -> bool) (env : Env)
    (c : UI.Component) (f : File) :
  UI.file c = Some f ->
  metadataLoads f = true \/ writeFile env "input" f = false ->
  UI.startSplittingAwait metadataLoads env c = UI.startSplitting env c.
Proof.
  intros Hf Hs. unfold UI.startSplittingAwait, UI.startSplitting. rewrite Hf.
  rewrite (runAwait_settled _ _ _ _ _ Hs). reflexivity.
Qed.

(** X16: what the user sees after pressing "Start Splitting" on a loaded
    component with a file.  If the input was written and the metadata of
    the file never loads, the progress panel stays, showing "Analyzing
    duration..." over the old progress value, and neither the Start
    button nor results nor an error card are shown.  Otherwise the
    progress panel is gone; the error card is shown exactly when the
    engine rejected something; the result list is shown exactly when the
    engine accepted everything and the plan has at least one window, and
    "Download All" then saves one file per planned window under that
    window's output name; in every other case the enabled Start button is
    back, and when the plan is empty and nothing was rejected, neither
    results nor an error are shown. *)
Theorem view_after_run (metadataLoads : File -> bool) (env : Env)
    (c : UI.Component) (f : File) :
  UI.loaded c = true -> UI.file c = Some f ->
  let c' := UI.startSplittingAwait metadataLoads env c in
  let ws := plan (UI.settings c) (size f) (getDuration env f) in
  let stuck := writeFile env "input" f = true /\ metadataLoads f = false in
  let accepted :=
    writeFile env "input" f = true
    /\ forall w, In w ws -> engineOK env (UI.settings c) f w in
  (stuck ->
   UI.showProgress c' = true
   /\ UI.status c' = "Analyzing duration..."%string
   /\ UI.progress c' = UI.progress c
   /\ UI.showError c' = false
   /\ UI.showResults c' = false
   /\ UI.showStart c' = false)
  /\ (~ stuck ->
      UI.showProgress c' = false
      /\ (UI.showError c' = true <-> ~ accepted)
      /\ (UI.showResults c' = true <-> accepted /\ ws <> [])
      /\ UI.showStart c' = negb (UI.showResults c')
      /\ UI.startEnabled c' = true
      /\ (UI.showResults c' = true ->
          map snd (UI.downloadAll c') = map (outputOf f) ws)).
Proof.
  intros Hl Hf c' ws stuck accepted. split.
  - intros [Hw Hm]. unfold c', UI.startSplittingAwait. rewrite Hf.
    rewrite (await_pending _ _ _ _ _ Hm Hw). cbn [snd ui].
    unfold UI.showProgress, UI.showError, UI.showResults, UI.showStart.
    cbn [UI.loaded UI.processing UI.error UI.resultFiles UI.status UI.progress
         renderStatus].
    rewrite Hl. cbn [UI.cells progress]. repeat split; reflexivity.
  - intro Hns.
    assert (Hs : metadataLoads f = true \/ writeFile env "input" f = false).
    { destruct (settles_or_pending metadataLoads env f) as [H|H];
        [contradiction | exact H]. }
    unfold c'. rewrite (startSplittingAwait_settled _ _ _ _ Hf Hs).
    exact (view_after_settled env c f Hl Hf).
Qed.

Lemma view_after_run_witness :
  let metadataLoads := fun g : File => String.eqb (type g) "video/mp4" in
  let env := mkEnv (fun _ _ => true) (fun _ => 100)
               (fun _ => ([], true))
               (fun path => Some (list_byte_of_string path)) in
  let f := mkFile "talk.mp4" 5242880 "video/mp4" in
  let g := mkFile "notes.txt" 1024 "text/plain" in
  let c := UI.mkComponent true (Some f) initialSettings false "" 0 [] "" 100
             false in
  let d := UI.mkComponent true (Some g) initialSettings false "Done!" 100 [] ""
             0 false in
  let c' := UI.startSplittingAwait metadataLoads env c in
  let d' := UI.startSplittingAwait metadataLoads env d in
  (UI.showProgress d' = true
   /\ UI.status d' = "Analyzing duration..."%string
   /\ UI.progress d' = 100%Z
   /\ UI.showError d' = false
   /\ UI.showResults d' = false
   /\ UI.showStart d' = false)
  /\ (UI.showProgress c' = false
      /\ UI.showResults c' = true
      /\ UI.showStart c' = false
      /\ map snd (UI.downloadAll c')
         = ["1_talk_1.mp4"; "2_talk_2.mp4"]%string).
Proof.
  intros metadataLoads env f g c d c' d'. split.
  - apply (proj1 (view_after_run metadataLoads env d g eq_refl eq_refl)).
    split; reflexivity.
  - destruct (proj2 (view_after_run metadataLoads env c f eq_refl eq_refl))
      as (Hp & _ & Hr & Hs & _ & Hd).
    + intros [_ H]. discriminate.
    + assert (Hres : UI.showResults c' = true) by reflexivity.
      split; [exact Hp|]. split; [exact Hres|].
      split; [fold c' in Hs; rewrite Hs, Hres; reflexivity|].
      fold c' in Hd. rewrite (Hd Hres). reflexivity.
Defined.

(** X17: no job leaks into the next one.  Pressing "Process another
    file", choosing a file and starting gives the component a first run
    on that file with the same settings would give, whatever the earlier
    run left behind.  Choosing a new file directly, without that button,
    differs in one cell only: the old progress value is still there when
    the run starts. *)
Theorem next_run_is_fresh (env : Env) (c : UI.Component) (g : File) :
  let fresh (value : Z) :=
    UI.mkComponent (UI.loaded c) None (UI.settings c) false "" value [] "" 0
      (UI.isDragging c) in
  UI.startSplitting env
    (UI.handleFileChange env (Some g) (UI.processAnother c))
  = UI.startSplitting env (UI.handleFileChange env (Some g) (fresh 0%Z))
  /\ UI.startSplitting env (UI.handleFileChange env (Some g) c)
     = UI.startSplitting env
         (UI.handleFileChange env (Some g) (fresh (UI.progress c))).
Proof.
  intro fresh.
  unfold UI.startSplitting, UI.handleFileChange, UI.processAnother, UI.cells,
    fresh.
  cbn [UI.loaded UI.file UI.settings UI.processing UI.status UI.progress
       UI.resultFiles UI.error UI.fileDuration UI.isDragging].
  rewrite !finalState_trace. unfold mediaTrace, runTrace.
  rewrite !replay_app. split; reflexivity.
Qed.

(** ** Loading the engine *)

Lemma listen_keeps (during : list EngineEvent) :
  forall c,
    let c' := fold_left (fun c e => UI.listen e c) during c in
    UI.loaded c' = UI.loaded c /\ UI.file c' = UI.file c
    /\ UI.settings c' = UI.settings c /\ UI.processing c' = UI.processing c
    /\ UI.resultFiles c' = UI.resultFiles c /\ UI.error c' = UI.error c.
Proof.
  induction during as [|e during IH]; intro c; [cbn; tauto|].
  cbn [fold_left]. destruct (IH (UI.listen e c)) as (H1 & H2 & H3 & H4 & H5 & H6).
  cbv zeta. rewrite H1, H2, H3, H4, H5, H6.
  destruct e as [message|ratio]; cbn [UI.listen];
    [destruct (JS.includes "error" message)|]; cbn; tauto.
Qed.

Lemma session_not_loaded (env : Env) (l : list UI.Action) :
  forall c, UI.loaded c = false -> UI.session env l c = c.
Proof.
  induction l as [|a l IH]; intros c H; [reflexivity|].
  unfold UI.session. cbn [fold_left].
  assert (E : UI.act env a c = c)
    by (unfold UI.act, UI.showControls; rewrite H; reflexivity).
  rewrite E. apply IH, H.
Qed.

(** X18: loading the engine.  When the load fails, whatever the message
    and whatever the engine logged meanwhile, the error card is shown,
    the spinner and the controls are not, and nothing the user does
    changes the component any more: only a page reload helps.  When the
    load succeeds the controls appear with an empty status text, no error
    and a disabled Start button. *)
Theorem engine_load
    (env : Env) (during : list EngineEvent) (message : string)
    (l : list UI.Action) :
  let failed := UI.loadFFmpeg during (Some message) UI.initial in
  let ready := UI.loadFFmpeg during None UI.initial in
  (UI.showError failed = true /\ UI.showSpinner failed = false
   /\ UI.showControls failed = false
   /\ UI.session env l failed = failed)
  /\ (UI.showControls ready = true /\ UI.showSpinner ready = false
      /\ UI.showError ready = false /\ UI.status ready = ""%string
      /\ UI.showStart ready = true /\ UI.startEnabled ready = false).
Proof.
  intros failed ready.
  pose proof (listen_keeps during
                (UI.mkComponent false None initialSettings false
                   UI.loadingStatus 0 [] "" 0 false))
    as (H1 & H2 & H3 & H4 & H5 & H6).
  cbn [UI.loaded UI.file UI.settings UI.processing UI.resultFiles UI.error]
    in H1, H2, H3, H4, H5, H6.
  split.
  - assert (Hl : UI.loaded failed = false) by exact H1.
    split; [reflexivity|].
    split; [unfold UI.showSpinner; rewrite Hl; reflexivity|].
    split; [exact Hl | apply session_not_loaded, Hl].
  - unfold ready, UI.loadFFmpeg, UI.initial, UI.showControls, UI.showSpinner,
      UI.showError, UI.showStart, UI.startEnabled.
    cbn [UI.loaded UI.file UI.settings UI.processing UI.resultFiles UI.error
         UI.status UI.progress UI.fileDuration UI.isDragging].
    rewrite H2, H4, H5, H6. repeat split.
Qed.

(** ** Runs of the parts-only revision *)

Lemma partsOnly_failure_aborts_witness :
  let env := mkEnv (fun _ _ => true) (fun _ => 90)
               (fun _ => ([OnProgress 1], true))
               (fun path => if String.eqb path "2_clip_2.mp4"
                            then None else Some []) in
  let file := mkFile "clip.mp4" 3145728 "video/mp4" in
  let old := mkArtifact "1_old_1.mp4" (mkBlob [] "video/mp4") in
  let s0 := mkAppState false StDone 100 [old] "" in
  let final := snd (PartsOnly.run env 3 (Some file) s0) in
  resultFiles (ui final) = []
  /\ error (ui final) = errorMessage
  /\ processing (ui final) = false
  /\ errorsRaised (log final) = [errorMessage]
  /\ exists j, (j <= 2)%nat
               /\ execs (log final)
                  = map (partsOnlyCommandOf file)
                      (firstn j (PartsOnly.plan 3 (getDuration env file))).
Proof.
  intros env file old s0 final.
  apply (partsOnly_failure_aborts env 3 file s0 1
           (PartsOnly.windowAt (90 / inject_Z 3) 1)).
  - reflexivity.
  - right. reflexivity.
Defined.

Lemma partsOnly_names_witness :
  let file := mkFile "holiday.2024.mp4" 5242880 "video/mp4" in
  artName (mkArtifact "3_holiday.2024_3.mp4" (mkBlob [] "video/mp4"))
  = outputName (Z.of_nat 2) (baseNameOf (name file)) (fileExtOf (name file)).
Proof.
  intro file.
  apply (partsOnly_names
           (mkEnv (fun _ _ => true) (fun _ => 100)
              (fun _ => ([], true)) (fun _ => Some []))
           4 file (mkAppState false StEmpty 0 [] "") 2).
  reflexivity.
Defined.
